(** * S&P 500 moving-average crossover backtest: model and properties

    Shallow embedding of the strategy engine of the repository
    (src/utils/helpers.py, src/data/retrieval.py, src/strategies/basic.py;
    src/sp500_strategy.py repeats the same functions verbatim).

    Numbers: Python floats are idealised as exact rationals [Q]; a float NaN
    (a moving average that is not yet available) is [None].  What is stated
    about amounts is either the expression the code evaluates (an equality
    [=] between the same operations on the same operands, which holds
    whatever the rounding) or a comparison that rounding to nearest
    preserves.  Where rounding decides, the strategies are evaluated on
    IEEE doubles in the module [Double].  The indicator calculator changes
    the frame of its caller; the module [InPlace] models that frame as an
    object in a store.
    Python exceptions are values of [exn], carried by the [result] monad. *)

From Stdlib Require Import List Bool Arith ZArith QArith Qfield Lia Lqa.
From Stdlib Require Import Sorted.
From Stdlib Require Import Floats.
From Stdlib Require String.
Import ListNotations.

Local Open Scope Q_scope.

(** ** Exceptions and the error monad *)

Inductive exn : Type :=
| IndexError          (* positional indexer out of bounds *)
| ZeroDivisionError   (* float division by zero *)
| TypeError           (* float() of something that is not one number *)
| KeyError            (* label absent from the index *)
| InvalidPriceError.  (* error kind of the specification; the code never raises it *)

Inductive result (A : Type) : Type :=
| Ok (a : A)
| Raise (e : exn).

Arguments Ok {A} a.
Arguments Raise {A} e.

Definition bind {A B : Type} (m : result A) (k : A -> result B) : result B :=
  match m with
  | Ok a => k a
  | Raise e => Raise e
  end.

Notation "x <- m ;; k" := (bind m (fun x => k))
  (at level 61, m at next level, right associativity).

(** ** Python values handed to [to_scalar] *)

(** What a cell access can yield: a Python/numpy number, a pandas Series
    (a row of a frame whose "Close" selection is itself a frame, or the
    matches of a duplicated label), or a pandas DataFrame. *)
Inductive pyvalue : Type :=
| PyInt (z : Z)
| PyFloat (x : Q)
| PySeries (xs : list Q)
| PyFrame (rows : list (list Q)).

(** [isinstance(value, (pd.Series, pd.DataFrame))] *)
Definition is_pandas (value : pyvalue) : bool :=
  match value with
  | PySeries _ | PyFrame _ => true
  | PyInt _ | PyFloat _ => false
  end.

(** [value.empty]: a Series without elements; a DataFrame with no row or no
    column. *)
Definition empty (value : pyvalue) : bool :=
  match value with
  | PySeries [] => true
  | PyFrame [] => true
  | PyFrame ([] :: _) => true
  | _ => false
  end.

(** [value.iloc[0]]: first element of a Series, first row of a DataFrame. *)
Definition iloc0 (value : pyvalue) : result pyvalue :=
  match value with
  | PySeries (x :: _) => Ok (PyFloat x)
  | PyFrame (r :: _) => Ok (PySeries r)
  | _ => Raise IndexError
  end.

(** [float(value)]: a number converts to itself (an integer beyond 2^53 in
    magnitude would be rounded, which [Q] does not show); a Series converts
    only when it holds exactly one element, as pandas before version 3 has
    it (later versions raise TypeError for every Series); a DataFrame never
    does. *)
Definition py_float (value : pyvalue) : result Q :=
  match value with
  | PyInt z => Ok (inject_Z z)
  | PyFloat x => Ok x
  | PySeries [x] => Ok x
  | PySeries _ => Raise TypeError
  | PyFrame _ => Raise TypeError
  end.

(** src/utils/helpers.py, [to_scalar]. *)
Definition to_scalar (value : pyvalue) : result Q :=
  if is_pandas value then
    if empty value then Ok 0
    else first <- iloc0 value ;; py_float first
  else py_float value.

(** [x / y] on Python floats. *)
Definition py_div (x y : Q) : result Q :=
  if Qeq_bool y 0 then Raise ZeroDivisionError else Ok (x / y).

(** [x > y] on floats. *)
Definition Qgtb (x y : Q) : bool := negb (Qle_bool x y).

(** ** Positional access *)

(** [col.iloc[i]] for [i >= 0]. *)
Definition iloc {A : Type} (col : list A) (i : nat) : result A :=
  match nth_error col i with
  | Some a => Ok a
  | None => Raise IndexError
  end.

(** [col.iloc[-1]]. *)
Definition iloc_last {A : Type} (col : list A) : result A :=
  match col with
  | [] => Raise IndexError
  | _ :: _ => iloc col (length col - 1)
  end.

(** [range(a, b)] *)
Definition range (a b : nat) : list nat := seq a (b - a).

(** A [for] loop whose body may raise: the first exception ends the loop. *)
Fixpoint for_each {S : Type} (idx : list nat) (body : nat -> S -> result S)
    (s : S) : result S :=
  match idx with
  | [] => Ok s
  | i :: rest => s' <- body i s ;; for_each rest body s'
  end.

(** ** Indicator calculator (src/data/retrieval.py) *)

(** Running state of the rolling-mean aggregation of pandas: the sum of the
    observations inside the window and their number.  On doubles pandas
    also carries a compensation term for the sum and returns the value
    itself on a window of equal values; an exact sum needs neither. *)
Record MeanState : Type := mkMeanState { sum_x : Q; nobs : nat }.

Definition add_mean (v : Q) (s : MeanState) : MeanState :=
  {| sum_x := sum_x s + v; nobs := S (nobs s) |}.

Definition remove_mean (v : Q) (s : MeanState) : MeanState :=
  {| sum_x := sum_x s - v; nobs := pred (nobs s) |}.

(** The mean is available once [minp] observations are in the window. *)
Definition calc_mean (minp : nat) (s : MeanState) : option Q :=
  if (minp <=? nobs s)%nat && (0 <? nobs s)%nat
  then Some (sum_x s / inject_Z (Z.of_nat (nobs s)))
  else None.

(** One pass over the column: at index [i] the observation leaving the
    window (index [i - window]) is removed, the one at [i] is added, and
    the mean of the window is written. *)
Fixpoint roll_mean (window : nat) (values : list Q) (i : nat)
    (todo : list Q) (s : MeanState) : list (option Q) :=
  match todo with
  | [] => []
  | v :: rest =>
      let s1 := if (window <=? i)%nat
                then remove_mean (nth (i - window) values 0) s else s in
      let s2 := add_mean v s1 in
      calc_mean window s2 :: roll_mean window values (S i) rest s2
  end.

(** [series.rolling(window=window).mean()], with [min_periods = window]. *)
Definition rolling_mean (window : nat) (values : list Q) : list (option Q) :=
  roll_mean window values 0 values {| sum_x := 0; nobs := 0 |}.

(** The two columns [calculate_moving_averages] adds to the frame; the write
    into the frame of the caller is [InPlace.calculate_moving_averages]. *)
Record Averages : Type := mkAverages {
  MA50 : list (option Q);
  MA200 : list (option Q)
}.

Definition calculate_moving_averages (close : list Q) : Averages :=
  {| MA50 := rolling_mean 50 close;
     MA200 := rolling_mean 200 close |}.

(** The trailing mean as the specification words it: the arithmetic mean of
    the [window] closes ending at [i] inclusive, undefined for
    [i < window - 1]. *)
Definition Qsum (l : list Q) : Q := fold_right Qplus 0 l.

Definition trailing_mean (window : nat) (close : list Q) (i : nat) : option Q :=
  if (i <? window - 1)%nat then None
  else Some (Qsum (firstn window (skipn (i + 1 - window) close))
             / inject_Z (Z.of_nat window)).

(** The sum of the [n] values starting at [lo]. *)
Definition window_sum (values : list Q) (lo n : nat) : Q :=
  Qsum (firstn n (skipn lo values)).

(** What the running state holds before index [i] is processed: the
    window is [[i - window, i)], cut at the start of the column. *)
Definition mean_inv (window : nat) (values : list Q) (i : nat) (s : MeanState)
    : Prop :=
  nobs s = Nat.min i window /\
  sum_x s == window_sum values (i - window) (Nat.min i window).

(** Two optional amounts agree: both undefined, or both defined and equal. *)
Definition opt_Qeq (a b : option Q) : Prop :=
  match a, b with
  | None, None => True
  | Some x, Some y => x == y
  | _, _ => False
  end.

(** ** Signal generator (src/data/retrieval.py) *)

(** Comparisons of float columns; a comparison with NaN is false. *)
Definition nan_gt (a b : option Q) : bool :=
  match a, b with Some x, Some y => Qgtb x y | _, _ => false end.
Definition nan_lt (a b : option Q) : bool := nan_gt b a.
Definition nan_le (a b : option Q) : bool :=
  match a, b with Some x, Some y => Qle_bool x y | _, _ => false end.
Definition nan_ge (a b : option Q) : bool := nan_le b a.

(** Element-wise operation on two columns of one frame. *)
Definition zip_with {A B C : Type} (f : A -> B -> C) (l : list A) (l' : list B)
    : list C :=
  map (fun p => f (fst p) (snd p)) (combine l l').

(** [col.shift(1)]: every value moves one row down, the first row is NaN. *)
Definition shift1 (col : list (option Q)) : list (option Q) :=
  firstn (length col) (None :: col).

(** [data.loc[mask, "Signal"] = v] *)
Definition loc_mask_set (mask : list bool) (v : Z) (col : list Z) : list Z :=
  zip_with (fun (m : bool) old => if m then v else old) mask col.

(** A row of the indicator-augmented frame, as [generate_signals] reads it. *)
Record MARow : Type := mkMARow { ma50 : option Q; ma200 : option Q }.

(** [generate_signals]: the "Signal" column it adds. *)
Definition generate_signals (data : list MARow) : list Z :=
  let MA50 := map ma50 data in
  let MA200 := map ma200 data in
  let signal := map (fun _ => 0%Z) data in
  let buy := zip_with andb (zip_with nan_gt MA50 MA200)
                           (zip_with nan_le (shift1 MA50) (shift1 MA200)) in
  let signal := loc_mask_set buy 1%Z signal in
  let sell := zip_with andb (zip_with nan_lt MA50 MA200)
                            (zip_with nan_ge (shift1 MA50) (shift1 MA200)) in
  loc_mask_set sell (-1)%Z signal.

(** The value [generate_signals] leaves at one row, from the averages of
    that row and of the row before. *)
Definition signal_of (p50 p200 c50 c200 : option Q) : Z :=
  if nan_lt c50 c200 && nan_ge p50 p200 then (-1)%Z
  else if nan_gt c50 c200 && nan_le p50 p200 then 1%Z
  else 0%Z.

(** The comparisons of the specification on averages that may be
    undefined: an undefined average is neither above nor at most anything. *)
Definition above (a b : option Q) : Prop :=
  match a, b with Some x, Some y => y < x | _, _ => False end.

Definition at_most (a b : option Q) : Prop :=
  match a, b with Some x, Some y => x <= y | _, _ => False end.

(** The classification of the specification at one index. *)
Inductive SignalKind : Type := Buy | Sell | NoSignal.

Definition signal_code (k : SignalKind) : Z :=
  match k with Buy => 1%Z | Sell => (-1)%Z | NoSignal => 0%Z end.

(** ** The frame the strategies read *)

(** One trading day: the index label, what ["Close"] yields at that row
    (before [to_scalar]) and the integer of the ["Signal"] column. *)
Record Row : Type := mkRow { date : Z; Close : pyvalue; Signal : Z }.

Definition DataFrame : Type := list Row.

(** [data.index], [data["Close"]], [data["Signal"]] *)
Definition index (data : DataFrame) : list Z := map date data.
Definition close_col (data : DataFrame) : list pyvalue := map Close data.
Definition signal_col (data : DataFrame) : list pyvalue :=
  map (fun r => PyInt (Signal r)) data.

(** Several cells selected by one label, stacked: numbers make a Series,
    rows make a DataFrame. *)
Definition as_number (c : pyvalue) : option Q :=
  match c with
  | PyInt z => Some (inject_Z z)
  | PyFloat x => Some x
  | _ => None
  end.

Definition as_row (c : pyvalue) : list Q :=
  match c with
  | PyInt z => [inject_Z z]
  | PyFloat x => [x]
  | PySeries xs => xs
  | PyFrame rows => concat rows
  end.

Fixpoint numbers (cells : list pyvalue) : option (list Q) :=
  match cells with
  | [] => Some []
  | c :: rest =>
      match as_number c, numbers rest with
      | Some x, Some xs => Some (x :: xs)
      | _, _ => None
      end
  end.

Definition stack (cells : list pyvalue) : pyvalue :=
  match numbers cells with
  | Some xs => PySeries xs
  | None => PyFrame (map as_row cells)
  end.

(** [data.loc[label, column]]: the cell when the label occurs once, the
    stacked cells when it is duplicated. *)
Definition loc_get (column : Row -> pyvalue) (data : DataFrame) (label : Z)
    : result pyvalue :=
  match filter (fun r => (date r =? label)%Z) data with
  | [] => Raise KeyError
  | [r] => Ok (column r)
  | rs => Ok (stack (map column rs))
  end.

(** [data.loc[label, column] = v] on a column [col] of the frame: every row
    carrying the label is written. *)
Definition loc_set (data : DataFrame) (label : Z) (v : Q)
    (col : list (option Q)) : list (option Q) :=
  zip_with (fun r old => if (date r =? label)%Z then Some v else old) data col.

(** ** Strategies (src/strategies/basic.py) *)

Definition initial_investment : Q := 10000.

Record BuyHoldResult : Type := mkBuyHoldResult {
  bh_initial_investment : Q;
  bh_final_value : Q;
  bh_return_percentage : Q;
  bh_shares : Q
}.

(** [buy_and_hold] *)
Definition buy_and_hold (data : DataFrame) : result BuyHoldResult :=
  cell <- iloc (close_col data) 200 ;;
  price <- to_scalar cell ;;
  shares <- py_div initial_investment price ;;
  last <- iloc_last (close_col data) ;;
  last_price <- to_scalar last ;;
  let final_value := shares * last_price in
  let returns := (final_value - initial_investment) / initial_investment * 100 in
  Ok {| bh_initial_investment := initial_investment;
        bh_final_value := final_value;
        bh_return_percentage := returns;
        bh_shares := shares |}.

Inductive Action : Type := BUY | SELL.

(** An entry of the [transactions] list. *)
Record Transaction : Type := mkTransaction {
  tx_date : Z;
  tx_action : Action;
  tx_price : Q;
  tx_shares : Q;
  tx_value : Q
}.

(** The local variables of [ma_crossover_strategy]. *)
Record Position : Type := mkPosition {
  cash : Q;
  shares : Q;
  in_market : bool;
  transactions : list Transaction
}.

Definition initial_position : Position :=
  {| cash := initial_investment; shares := 0; in_market := false;
     transactions := [] |}.

(** The trade decision of [ma_crossover_strategy] on one day, given the
    label, price and signal read for it. *)
Definition trade (d : Z) (price signal : Q) (st : Position) : result Position :=
  if Qeq_bool signal 1 && negb (in_market st) then
    sh <- py_div (cash st) price ;;
    Ok {| cash := 0; shares := sh; in_market := true;
          transactions := transactions st ++
            [ {| tx_date := d; tx_action := BUY; tx_price := price;
                 tx_shares := sh; tx_value := sh * price |} ] |}
  else if Qeq_bool signal (-1) && in_market st then
    let c := shares st * price in
    Ok {| cash := c; shares := 0; in_market := false;
          transactions := transactions st ++
            [ {| tx_date := d; tx_action := SELL; tx_price := price;
                 tx_shares := 0; tx_value := c |} ] |}
  else Ok st.

(** Body of [for i in range(200, len(data))]. *)
Definition crossover_body (data : DataFrame) (i : nat) (st : Position)
    : result Position :=
  d <- iloc (index data) i ;;
  cell <- iloc (close_col data) i ;;
  price <- to_scalar cell ;;
  sig <- iloc (signal_col data) i ;;
  signal <- to_scalar sig ;;
  trade d price signal st.

Definition crossover_loop (data : DataFrame) : result Position :=
  for_each (range 200 (length data)) (crossover_body data) initial_position.

Record CrossoverResult : Type := mkCrossoverResult {
  ma_initial_investment : Q;
  ma_final_value : Q;
  ma_return_percentage : Q;
  ma_transactions : list Transaction
}.

(** The final-value rule of the source: cash when it is positive, else the
    shares at the last close. *)
Definition final_value_rule (final_cash final_shares final_price : Q) : Q :=
  if Qgtb final_cash 0 then final_cash else final_shares * final_price.

(** [ma_crossover_strategy] *)
Definition ma_crossover_strategy (data : DataFrame) : result CrossoverResult :=
  st <- crossover_loop data ;;
  last <- iloc_last (close_col data) ;;
  final_price <- to_scalar last ;;
  let final_value := final_value_rule (cash st) (shares st) final_price in
  let returns := (final_value - initial_investment) / initial_investment * 100 in
  Ok {| ma_initial_investment := initial_investment;
        ma_final_value := final_value;
        ma_return_percentage := returns;
        ma_transactions := transactions st |}.

(** ** Equity curves (src/data/retrieval.py, [prepare_strategy_data]) *)

(** Body of the first loop, which appends to the list [bh_values]. *)
Definition bh_body (data : DataFrame) (bh_shares : Q) (i : nat)
    (bh_values : list (option Q)) : result (list (option Q)) :=
  if (i <? 200)%nat then Ok (bh_values ++ [None])
  else
    cell <- iloc (close_col data) i ;;
    price <- to_scalar cell ;;
    Ok (bh_values ++ [Some (bh_shares * price)]).

Definition bh_values_loop (data : DataFrame) (bh_shares : Q)
    : result (list (option Q)) :=
  for_each (range 0 (length data)) (bh_body data bh_shares) [].

(** The local variables of the second loop and the ["MA_Value"] column it
    writes. *)
Record Replay : Type := mkReplay {
  current_value : Q;
  rp_in_market : bool;
  rp_shares : Q;
  ma_values : list (option Q)
}.

(** Body of [for i in range(201, len(sp500_data))]. *)
Definition replay_body (data : DataFrame) (i : nat) (st : Replay)
    : result Replay :=
  prev_idx <- iloc (index data) (i - 1) ;;
  curr_idx <- iloc (index data) i ;;
  sig <- loc_get (fun r => PyInt (Signal r)) data prev_idx ;;
  prev_signal <- to_scalar sig ;;
  pc <- loc_get Close data prev_idx ;;
  prev_close <- to_scalar pc ;;
  cc <- loc_get Close data curr_idx ;;
  curr_close <- to_scalar cc ;;
  st1 <- (if Qeq_bool prev_signal 1 && negb (rp_in_market st) then
            sh <- py_div (current_value st) prev_close ;;
            Ok {| current_value := current_value st; rp_in_market := true;
                  rp_shares := sh; ma_values := ma_values st |}
          else if Qeq_bool prev_signal (-1) && rp_in_market st then
            Ok {| current_value := rp_shares st * prev_close;
                  rp_in_market := false; rp_shares := 0;
                  ma_values := ma_values st |}
          else Ok st) ;;
  let v := if rp_in_market st1 then rp_shares st1 * curr_close
           else current_value st1 in
  Ok {| current_value := current_value st1; rp_in_market := rp_in_market st1;
        rp_shares := rp_shares st1;
        ma_values := loc_set data curr_idx v (ma_values st1) |}.

(** The two columns [prepare_strategy_data] adds to the frame. *)
Record Curves : Type := mkCurves {
  BH_Value : list (option Q);
  MA_Value : list (option Q)
}.

Definition replay_start (data : DataFrame) (start : Z) : Replay :=
  {| current_value := 10000; rp_in_market := false; rp_shares := 0;
     ma_values := loc_set data start 10000 (repeat None (length data)) |}.

(** [prepare_strategy_data].  The frame is changed in place: when the
    function raises after the first loop, the column [bh_values_loop]
    computed has already been stored in it. *)
Definition prepare_strategy_data (data : DataFrame) (bh_shares : Q)
    : result Curves :=
  bh_values <- bh_values_loop data bh_shares ;;
  start <- iloc (index data) 200 ;;
  st <- for_each (range 201 (length data)) (replay_body data)
                 (replay_start data start) ;;
  Ok {| BH_Value := bh_values; MA_Value := ma_values st |}.

(** ** The position simulator as the specification words it *)

Inductive MarketState : Type := FLAT | IN_MARKET.

Record SimState : Type := mkSimState {
  sim_state : MarketState;
  sim_cash : Q;
  sim_shares : Q;
  sim_log : list Transaction
}.

Definition sim_start : SimState :=
  {| sim_state := FLAT; sim_cash := initial_investment; sim_shares := 0;
     sim_log := [] |}.

(** The signal computed at index [j]. *)
Definition signal_at (data : DataFrame) (j : nat) : result SignalKind :=
  r <- iloc data j ;;
  Ok (if (Signal r =? 1)%Z then Buy
      else if (Signal r =? -1)%Z then Sell else NoSignal).

(** The close at index [j]; a close that is not positive is an
    [InvalidPriceError]. *)
Definition valid_close (data : DataFrame) (j : nat) : result Q :=
  r <- iloc data j ;;
  match to_scalar (Close r) with
  | Ok p => if Qgtb p 0 then Ok p else Raise InvalidPriceError
  | Raise _ => Raise InvalidPriceError
  end.

(** At index [i] the simulator inspects the signal computed at [i-1] and
    trades at the close of [i-1], logging the transaction dated [i-1]. *)
Definition lagged_step (data : DataFrame) (i : nat) (st : SimState)
    : result SimState :=
  s <- signal_at data (i - 1) ;;
  d <- iloc (index data) (i - 1) ;;
  match s, sim_state st with
  | Buy, FLAT =>
      p <- valid_close data (i - 1) ;;
      let sh := sim_cash st / p in
      Ok {| sim_state := IN_MARKET; sim_cash := sim_cash st; sim_shares := sh;
            sim_log := sim_log st ++
              [ {| tx_date := d; tx_action := BUY; tx_price := p;
                   tx_shares := sh; tx_value := sh * p |} ] |}
  | Sell, IN_MARKET =>
      p <- valid_close data (i - 1) ;;
      let c := sim_shares st * p in
      Ok {| sim_state := FLAT; sim_cash := c; sim_shares := sim_shares st;
            sim_log := sim_log st ++
              [ {| tx_date := d; tx_action := SELL; tx_price := p;
                   tx_shares := 0; tx_value := c |} ] |}
  | _, _ => Ok st
  end.

(** The scan starts one past the warm-up boundary. *)
Definition lagged_crossover (data : DataFrame) : result SimState :=
  for_each (range 201 (length data)) (lagged_step data) sim_start.

(** Equity at an index: shares at that close when in the market, else cash. *)
Definition sim_equity (st : SimState) (close : Q) : Q :=
  match sim_state st with
  | IN_MARKET => sim_shares st * close
  | FLAT => sim_cash st
  end.

(** ** Predicates on frames and logs *)

Definition positive_close (r : Row) : Prop :=
  exists p, to_scalar (Close r) = Ok p /\ 0 < p.

Definition all_closes_positive (data : DataFrame) : Prop :=
  Forall positive_close data.

Definition positive_closeb (r : Row) : bool :=
  match to_scalar (Close r) with
  | Ok p => Qgtb p 0
  | Raise _ => false
  end.

Definition flip (a : Action) : Action :=
  match a with BUY => SELL | SELL => BUY end.

Definition Action_eqb (a b : Action) : bool :=
  match a, b with
  | BUY, BUY | SELL, SELL => true
  | _, _ => false
  end.

(** The labels read [next], [flip next], [next], ... *)
Fixpoint alternates (next : Action) (l : list Action) : bool :=
  match l with
  | [] => true
  | a :: rest => Action_eqb a next && alternates (flip next) rest
  end.

(** Boolean test that a list of labels has no duplicate. *)
Fixpoint nodupb (l : list Z) : bool :=
  match l with
  | [] => true
  | x :: rest => negb (existsb (Z.eqb x) rest) && nodupb rest
  end.

(** The first label, if any, is BUY. *)
Definition starts_with_buy (l : list Action) : Prop :=
  match l with
  | [] => True
  | a :: _ => a = BUY
  end.

(** No two consecutive labels are the same. *)
Definition no_repeat (l : list Action) : Prop :=
  forall k a b, nth_error l k = Some a -> nth_error l (S k) = Some b -> a <> b.

Definition actions (log : list Transaction) : list Action := map tx_action log.

(** Exactly one of cash and shares is active. *)
Definition position_inv (st : Position) : Prop :=
  if in_market st then cash st == 0 /\ 0 < shares st
  else shares st == 0 /\ 0 < cash st.

(** The log alternates from BUY and its parity is the [in_market] flag. *)
Definition log_inv (st : Position) : Prop :=
  alternates BUY (actions (transactions st)) = true /\
  in_market st = Nat.odd (length (transactions st)).

(** The final value selected by the [in_market] flag. *)
Definition final_value_by_flag (st : Position) (final_price : Q) : Q :=
  if in_market st then shares st * final_price else cash st.

(** Number of points at which an equity curve is defined. *)
Definition defined_points (curve : list (option Q)) : nat :=
  length (filter (fun v => match v with Some _ => true | None => false end)
                 curve).

(** Every share count of the log is non-negative. *)
Definition shares_nonneg (log : list Transaction) : Prop :=
  Forall (fun t => 0 <= tx_shares t) log.

(** ** Sample frames *)

(** [n] consecutive trading days with numeric closes and given signals. *)
Definition sample_frame (n : nat) (close : nat -> Q) (signal : nat -> Z)
    : DataFrame :=
  map (fun i => mkRow (Z.of_nat i) (PyFloat (close i)) (signal i)) (seq 0 n).

(** 205 days, closes 100, 101, ..., a Buy signal on days 200 and 203 and a
    Sell signal on day 202. *)
Definition sample_close (i : nat) : Q := inject_Z (Z.of_nat (100 + i)).

Definition sample_signal (i : nat) : Z :=
  if (i =? 200)%nat then 1%Z
  else if (i =? 202)%nat then (-1)%Z
  else if (i =? 203)%nat then 1%Z
  else 0%Z.

Definition sample : DataFrame := sample_frame 205 sample_close sample_signal.

(** Quiet frames (no signal) of 10, 200 and 201 days. *)
Definition quiet_frame (n : nat) : DataFrame :=
  sample_frame n sample_close (fun _ => 0%Z).

Definition frame10 : DataFrame := quiet_frame 10.
Definition frame200 : DataFrame := quiet_frame 200.
Definition frame201 : DataFrame := quiet_frame 201.

(** 201 days with a Buy signal on day 200, whose close is [c]. *)
Definition buy_at_200 (c : Q) : DataFrame :=
  sample_frame 201 (fun i => if (i =? 200)%nat then c else 100)
                   (fun i => if (i =? 200)%nat then 1%Z else 0%Z).

Definition negative_close_frame : DataFrame := buy_at_200 (-100).
Definition zero_close_frame : DataFrame := buy_at_200 0.
Definition buy_on_last_day : DataFrame := buy_at_200 100.

(** Sixty closes 0, 1, ..., 59. *)
Definition ramp60 : list Q := map (fun n => inject_Z (Z.of_nat n)) (seq 0 60).

(** Three rows of averages: an upward cross at row 1, a downward one at
    row 2. *)
Definition crossing_rows : list MARow :=
  [ mkMARow (Some 1) (Some 2); mkMARow (Some 3) (Some 2);
    mkMARow (Some 1) (Some 2) ].

(** 201 days whose last close is missing: an empty Series. *)
Definition missing_last_close : DataFrame :=
  quiet_frame 200 ++ [mkRow 200 (PySeries []) 0].

(** ** Statements of the specification that the code is measured against *)

(** Series shorter than the long window: the simulation succeeds with
    equity curves that are entirely undefined and an empty log. *)
Definition short_series_succeed : Prop :=
  forall (data : DataFrame) (bh : Q),
    all_closes_positive data -> (length data < 200)%nat ->
    exists b c r,
      buy_and_hold data = Ok b /\
      prepare_strategy_data data bh = Ok c /\
      defined_points (BH_Value c) = 0%nat /\
      defined_points (MA_Value c) = 0%nat /\
      ma_crossover_strategy data = Ok r /\ ma_transactions r = [].

(** Series of exactly 200 points: buy-and-hold enters at the last index
    with the full capital, its curve is defined at exactly one point, the
    crossover strategy does not trade. *)
Definition boundary_at_last_index : Prop :=
  forall (data : DataFrame) (bh : Q),
    all_closes_positive data -> length data = 200%nat ->
    exists b col r last,
      buy_and_hold data = Ok b /\
      (cell <- iloc_last (close_col data) ;; to_scalar cell) = Ok last /\
      bh_shares b == initial_investment / last /\
      bh_values_loop data bh = Ok col /\ defined_points col = 1%nat /\
      ma_crossover_strategy data = Ok r /\ ma_transactions r = [].

(** A close that is not positive on a day on which the simulator trades
    aborts the simulation with InvalidPriceError. *)
Definition invalid_price_rejected : Prop :=
  forall (data : DataFrame) (i : nat) (r : Row) (p : Q) (st : Position),
    (200 <= i)%nat ->
    for_each (range 200 i) (crossover_body data) initial_position = Ok st ->
    nth_error data i = Some r -> to_scalar (Close r) = Ok p -> p <= 0 ->
    (Signal r = 1%Z /\ in_market st = false) \/
    (Signal r = (-1)%Z /\ in_market st = true) ->
    ma_crossover_strategy data = Raise InvalidPriceError.

(** A state of the simulator of the specification and a position of the
    code agree: same log, same market state, same active amount. *)
Definition sim_matches (sim : SimState) (st : Position) : Prop :=
  sim_log sim = transactions st /\
  match sim_state sim with
  | IN_MARKET => in_market st = true /\ sim_shares sim = shares st
  | FLAT => in_market st = false /\ sim_cash sim = cash st
  end.

(** The crossover simulator acts at each index [i], from one past the
    warm-up boundary on, on the signal of [i-1] at the close of [i-1]: the
    position and the log of [ma_crossover_strategy] are those of
    [lagged_crossover]. *)
Definition lagged_execution : Prop :=
  forall data : DataFrame,
    (200 < length data)%nat -> all_closes_positive data ->
    exists st sim,
      crossover_loop data = Ok st /\ lagged_crossover data = Ok sim /\
      sim_matches sim st.

(** The position of [prepare_strategy_data] against the one of
    [ma_crossover_strategy]. *)
Definition replay_matches (rp : Replay) (st : Position) : Prop :=
  rp_in_market rp = in_market st /\
  if in_market st then rp_shares rp = shares st
  else current_value rp = cash st.

(** ** The steps of [main] (src/main.py) *)

(** The frame after [calculate_moving_averages], as [generate_signals] reads
    it: the two average columns side by side. *)
Definition indicator_rows (close : list Q) : list MARow :=
  let ma := calculate_moving_averages close in
  zip_with mkMARow (MA50 ma) (MA200 ma).

(** The frame after [calculate_moving_averages] and [generate_signals], as
    the strategies read it, for a download whose ["Close"] is a plain numeric
    column: one row per (date, close) pair. *)
Definition with_signals (raw : list (Z * Q)) : DataFrame :=
  let signal := generate_signals (indicator_rows (map snd raw)) in
  zip_with (fun dc s => mkRow (fst dc) (PyFloat (snd dc)) s) raw signal.

(** What [main] computes between the download and the output: the two
    strategy results, then the equity curves from the buy-and-hold shares.
    Printing, plotting and the CSV export are left out. *)
Record Analysis : Type := mkAnalysis {
  bh_results : BuyHoldResult;
  ma_results : CrossoverResult;
  curves : Curves
}.

Definition main_analysis (data : DataFrame) : result Analysis :=
  bh <- buy_and_hold data ;;
  ma <- ma_crossover_strategy data ;;
  cv <- prepare_strategy_data data (bh_shares bh) ;;
  Ok {| bh_results := bh; ma_results := ma; curves := cv |}.

(** ** Reading the transaction log *)

(** The transaction [t] was made on row [i] of the frame: a row past the
    warm-up whose label and close it carries and whose signal asked for it. *)
Definition tx_at (data : DataFrame) (i : nat) (t : Transaction) : Prop :=
  (200 <= i)%nat /\
  exists r, nth_error data i = Some r /\
            tx_date t = date r /\
            to_scalar (Close r) = Ok (tx_price t) /\
            Signal r = match tx_action t with BUY => 1%Z | SELL => (-1)%Z end.

(** Every cell of the ["Close"] column converts to a number. *)
Definition closes_convert (data : DataFrame) : Prop :=
  Forall (fun r => exists p, to_scalar (Close r) = Ok p) data.

(** The last entry of a log, if any. *)
Definition last_tx (log : list Transaction) : option Transaction :=
  nth_error log (length log - 1).

(** The position is the one the last entry of its log left: no entry, the
    initial cash; a BUY, its shares; a SELL, its proceeds. *)
Definition mirrors (st : Position) : Prop :=
  match last_tx (transactions st) with
  | None => in_market st = false /\ cash st = initial_investment
  | Some t =>
      if in_market st
      then tx_action t = BUY /\ shares st = tx_shares t /\ cash st = 0
      else tx_action t = SELL /\ cash st = tx_value t /\ shares st = 0
  end.

(** The entries of a log fit together: the first one buys for the initial
    cash, a SELL cashes the shares of the BUY before it at its own price, a
    BUY invests the proceeds of the SELL before it; a BUY is valued at its
    shares times its price and a SELL leaves no shares. *)
Definition chained (log : list Transaction) : Prop :=
  (forall a, nth_error log 0 = Some a ->
     tx_action a = BUY /\ tx_shares a = initial_investment / tx_price a) /\
  (forall k a b,
     nth_error log k = Some a -> nth_error log (S k) = Some b ->
     match tx_action a with
     | BUY => tx_action b = SELL /\ tx_value b = tx_shares a * tx_price b
     | SELL => tx_action b = BUY /\ tx_shares b = tx_value a / tx_price b
     end) /\
  Forall (fun t => match tx_action t with
                   | BUY => tx_value t = tx_shares t * tx_price t
                   | SELL => tx_shares t = 0
                   end) log.

(** A download of 300 days at the constant close 100. *)
Definition flat_download : list (Z * Q) :=
  map (fun i => (Z.of_nat i, 100)) (seq 0 300).

(** ** What [plot_strategies] draws (src/analysis/visualization.py) *)

(** [sp500_data[sp500_data["Signal"] == 1]] and its Sell counterpart. *)
Definition buy_signals (data : DataFrame) : DataFrame :=
  filter (fun r => (Signal r =? 1)%Z) data.

Definition sell_signals (data : DataFrame) : DataFrame :=
  filter (fun r => (Signal r =? -1)%Z) data.

(** The points of [ax1.scatter(rows.index, rows["Close"], ...)]. *)
Definition scatter_points (rows : DataFrame) : list (Z * pyvalue) :=
  combine (index rows) (close_col rows).

(** The points of [ax2.plot(sp500_data.index[200:], column[200:], ...)]. *)
Definition line_points (data : DataFrame) (column : list (option Q))
    : list (Z * option Q) :=
  combine (skipn 200 (index data)) (skipn 200 column).

(** The data [plot_strategies] selects for the markers of the top subplot
    and the two lines of the bottom one.  The three lines of the top
    subplot draw the whole Close, MA50 and MA200 columns and are left out,
    like the rendering itself; [bh_shares] is not used by the source. *)
Record Plot : Type := mkPlot {
  buy_markers : list (Z * pyvalue);
  sell_markers : list (Z * pyvalue);
  bh_line : list (Z * option Q);
  ma_line : list (Z * option Q)
}.

Definition plot_strategies (data : DataFrame) (cv : Curves) (bh_shares : Q)
    : Plot :=
  {| buy_markers := scatter_points (buy_signals data);
     sell_markers := scatter_points (sell_signals data);
     bh_line := line_points data (BH_Value cv);
     ma_line := line_points data (MA_Value cv) |}.

Definition is_defined (v : option Q) : Prop := v <> None.

(** ** The date range of [main] (src/main.py) *)

(** Gregorian calendar of Python's [datetime]. *)
Definition is_leap (year : Z) : bool :=
  ((year mod 4 =? 0) && (negb (year mod 100 =? 0) || (year mod 400 =? 0)))%Z.

Definition days_in_month (year month : Z) : Z :=
  if (month =? 2)%Z then (if is_leap year then 29 else 28)%Z
  else if ((month =? 4) || (month =? 6) || (month =? 9) || (month =? 11))%Z
       then 30%Z
  else if ((1 <=? month) && (month <=? 12))%Z then 31%Z
  else 0%Z.

(** The outcome of the constructor [datetime(year, month, day)]: the date,
    or ValueError when the year is outside 1..9999, the month outside 1..12
    or the day outside the month. *)
Inductive date_result : Type :=
| DateOk (year month day : Z)
| DateValueError.

Definition datetime (year month day : Z) : date_result :=
  if ((1 <=? year) && (year <=? 9999) && (1 <=? month) && (month <=? 12)
      && (1 <=? day) && (day <=? days_in_month year month))%Z
  then DateOk year month day
  else DateValueError.

(** [start_date = datetime(end_date.year - 10, end_date.month, end_date.day)],
    computed by [main] before the download and outside its [try]. *)
Definition start_date (year month day : Z) : date_result :=
  datetime (year - 10) month day.

(** The exceptions of the arithmetic on cells: a cell that is not one
    number, a division by a zero price. *)
Definition cell_error (e : exn) : Prop := e = TypeError \/ e = ZeroDivisionError.

(** ** The frame as a Python object (src/data/retrieval.py) *)

(** A frame lives in the store under its address; a function that is handed
    a frame is handed the address, and [data[name] = column] changes the
    frame of every holder of that address. *)
Module InPlace.
Import String.

Definition Column : Type := list (option Q).

(** The ["Close"] column and the other columns by name, in insertion
    order. *)
Record Frame : Type := mkFrame {
  frame_close : list Q;
  frame_columns : list (string * Column)
}.

Definition Ref : Type := nat.
Definition Store : Type := Ref -> Frame.

Definition col_MA50 : string := "MA50".
Definition col_MA200 : string := "MA200".


(** [frame[name] = col]: an existing column is replaced, a new one is
    appended. *)
Fixpoint set_column (name : string) (col : Column)
    (cols : list (string * Column)) : list (string * Column) :=
  match cols with
  | [] => [(name, col)]
  | (n, c) :: rest =>
      if String.eqb n name then (n, col) :: rest
      else (n, c) :: set_column name col rest
  end.

(** [data[name] = col] on the frame at address [data]. *)
Definition setitem (h : Store) (data : Ref) (name : string) (col : Column)
    : Store :=
  fun a =>
    if (a =? data)%nat
    then {| frame_close := frame_close (h data);
            frame_columns := set_column name col (frame_columns (h data)) |}
    else h a.

(** [calculate_moving_averages(data)]: the store after the call and the
    address returned. *)
Definition calculate_moving_averages (h : Store) (data : Ref) : Store * Ref :=
  let h1 := setitem h data col_MA50 (rolling_mean 50 (frame_close (h data))) in
  let h2 := setitem h1 data col_MA200
                    (rolling_mean 200 (frame_close (h1 data))) in
  (h2, data).



End InPlace.

(** ** The strategies on IEEE doubles *)

(** The functions of src/utils/helpers.py, src/strategies/basic.py and
    [prepare_strategy_data] once more, with the binary64 arithmetic Python
    floats have: every operation rounds to nearest, overflows to infinity
    and underflows to zero.  The control flow is that of the definitions
    above; only the number type differs. *)
Module Double.
Local Open Scope float_scope.

Inductive pyvalue : Type :=
| PyInt (z : Z)
| PyFloat (x : float)
| PySeries (xs : list float)
| PyFrame (rows : list (list float)).

Definition is_pandas (value : pyvalue) : bool :=
  match value with
  | PySeries _ | PyFrame _ => true
  | PyInt _ | PyFloat _ => false
  end.

Definition empty (value : pyvalue) : bool :=
  match value with
  | PySeries [] => true
  | PyFrame [] => true
  | PyFrame ([] :: _) => true
  | _ => false
  end.

Definition iloc0 (value : pyvalue) : result pyvalue :=
  match value with
  | PySeries (x :: _) => Ok (PyFloat x)
  | PyFrame (r :: _) => Ok (PySeries r)
  | _ => Raise IndexError
  end.

(** The double nearest to an integer (ties to even); the integers of a
    frame are int64 cells, which never overflow a double. *)
Definition float_of_Z (z : Z) : float :=
  SF2Prim (binary_normalize prec emax z 0 false).

Definition py_float (value : pyvalue) : result float :=
  match value with
  | PyInt z => Ok (float_of_Z z)
  | PyFloat x => Ok x
  | PySeries [x] => Ok x
  | PySeries _ => Raise TypeError
  | PyFrame _ => Raise TypeError
  end.

Definition to_scalar (value : pyvalue) : result float :=
  if is_pandas value then
    if empty value then Ok 0
    else first <- iloc0 value ;; py_float first
  else py_float value.

(** [x / y]: Python raises on a zero divisor of either sign. *)
Definition py_div (x y : float) : result float :=
  if PrimFloat.eqb y 0 then Raise ZeroDivisionError else Ok (x / y).

(** [x > y] *)
Definition gtb (x y : float) : bool := PrimFloat.ltb y x.

Record Row : Type := mkRow { date : Z; Close : pyvalue; Signal : Z }.

Definition DataFrame : Type := list Row.

Definition index (data : DataFrame) : list Z := map date data.
Definition close_col (data : DataFrame) : list pyvalue := map Close data.
Definition signal_col (data : DataFrame) : list pyvalue :=
  map (fun r => PyInt (Signal r)) data.

Definition as_number (c : pyvalue) : option float :=
  match c with
  | PyInt z => Some (float_of_Z z)
  | PyFloat x => Some x
  | _ => None
  end.

Definition as_row (c : pyvalue) : list float :=
  match c with
  | PyInt z => [float_of_Z z]
  | PyFloat x => [x]
  | PySeries xs => xs
  | PyFrame rows => concat rows
  end.

Fixpoint numbers (cells : list pyvalue) : option (list float) :=
  match cells with
  | [] => Some []
  | c :: rest =>
      match as_number c, numbers rest with
      | Some x, Some xs => Some (x :: xs)
      | _, _ => None
      end
  end.

Definition stack (cells : list pyvalue) : pyvalue :=
  match numbers cells with
  | Some xs => PySeries xs
  | None => PyFrame (map as_row cells)
  end.

Definition loc_get (column : Row -> pyvalue) (data : DataFrame) (label : Z)
    : result pyvalue :=
  match filter (fun r => (date r =? label)%Z) data with
  | [] => Raise KeyError
  | [r] => Ok (column r)
  | rs => Ok (stack (map column rs))
  end.

Definition loc_set (data : DataFrame) (label : Z) (v : float)
    (col : list (option float)) : list (option float) :=
  zip_with (fun r old => if (date r =? label)%Z then Some v else old) data col.

Definition initial_investment : float := 10000.

Record Transaction : Type := mkTransaction {
  tx_date : Z;
  tx_action : Action;
  tx_price : float;
  tx_shares : float;
  tx_value : float
}.

Record Position : Type := mkPosition {
  cash : float;
  shares : float;
  in_market : bool;
  transactions : list Transaction
}.

Definition initial_position : Position :=
  {| cash := initial_investment; shares := 0; in_market := false;
     transactions := [] |}.

Definition trade (d : Z) (price signal : float) (st : Position)
    : result Position :=
  if PrimFloat.eqb signal 1 && negb (in_market st) then
    sh <- py_div (cash st) price ;;
    Ok {| cash := 0; shares := sh; in_market := true;
          transactions := transactions st ++
            [ {| tx_date := d; tx_action := BUY; tx_price := price;
                 tx_shares := sh; tx_value := sh * price |} ] |}
  else if PrimFloat.eqb signal (-1) && in_market st then
    let c := shares st * price in
    Ok {| cash := c; shares := 0; in_market := false;
          transactions := transactions st ++
            [ {| tx_date := d; tx_action := SELL; tx_price := price;
                 tx_shares := 0; tx_value := c |} ] |}
  else Ok st.

Definition crossover_body (data : DataFrame) (i : nat) (st : Position)
    : result Position :=
  d <- iloc (index data) i ;;
  cell <- iloc (close_col data) i ;;
  price <- to_scalar cell ;;
  sig <- iloc (signal_col data) i ;;
  signal <- to_scalar sig ;;
  trade d price signal st.

Definition crossover_loop (data : DataFrame) : result Position :=
  for_each (range 200 (length data)) (crossover_body data) initial_position.

Record CrossoverResult : Type := mkCrossoverResult {
  ma_initial_investment : float;
  ma_final_value : float;
  ma_return_percentage : float;
  ma_transactions : list Transaction
}.

Definition final_value_rule (final_cash final_shares final_price : float)
    : float :=
  if gtb final_cash 0 then final_cash else final_shares * final_price.

Definition ma_crossover_strategy (data : DataFrame) : result CrossoverResult :=
  st <- crossover_loop data ;;
  last <- iloc_last (close_col data) ;;
  final_price <- to_scalar last ;;
  let final_value := final_value_rule (cash st) (shares st) final_price in
  let returns := (final_value - initial_investment) / initial_investment * 100 in
  Ok {| ma_initial_investment := initial_investment;
        ma_final_value := final_value;
        ma_return_percentage := returns;
        ma_transactions := transactions st |}.

Definition bh_body (data : DataFrame) (bh_shares : float) (i : nat)
    (bh_values : list (option float)) : result (list (option float)) :=
  if (i <? 200)%nat then Ok (bh_values ++ [None])
  else
    cell <- iloc (close_col data) i ;;
    price <- to_scalar cell ;;
    Ok (bh_values ++ [Some (bh_shares * price)]).

Definition bh_values_loop (data : DataFrame) (bh_shares : float)
    : result (list (option float)) :=
  for_each (range 0 (length data)) (bh_body data bh_shares) [].

Record Replay : Type := mkReplay {
  current_value : float;
  rp_in_market : bool;
  rp_shares : float;
  ma_values : list (option float)
}.

Definition replay_body (data : DataFrame) (i : nat) (st : Replay)
    : result Replay :=
  prev_idx <- iloc (index data) (i - 1) ;;
  curr_idx <- iloc (index data) i ;;
  sig <- loc_get (fun r => PyInt (Signal r)) data prev_idx ;;
  prev_signal <- to_scalar sig ;;
  pc <- loc_get Close data prev_idx ;;
  prev_close <- to_scalar pc ;;
  cc <- loc_get Close data curr_idx ;;
  curr_close <- to_scalar cc ;;
  st1 <- (if PrimFloat.eqb prev_signal 1 && negb (rp_in_market st) then
            sh <- py_div (current_value st) prev_close ;;
            Ok {| current_value := current_value st; rp_in_market := true;
                  rp_shares := sh; ma_values := ma_values st |}
          else if PrimFloat.eqb prev_signal (-1) && rp_in_market st then
            Ok {| current_value := rp_shares st * prev_close;
                  rp_in_market := false; rp_shares := 0;
                  ma_values := ma_values st |}
          else Ok st) ;;
  let v := if rp_in_market st1 then rp_shares st1 * curr_close
           else current_value st1 in
  Ok {| current_value := current_value st1; rp_in_market := rp_in_market st1;
        rp_shares := rp_shares st1;
        ma_values := loc_set data curr_idx v (ma_values st1) |}.

Record Curves : Type := mkCurves {
  BH_Value : list (option float);
  MA_Value : list (option float)
}.

Definition replay_start (data : DataFrame) (start : Z) : Replay :=
  {| current_value := 10000; rp_in_market := false; rp_shares := 0;
     ma_values := loc_set data start 10000 (repeat None (length data)) |}.

Definition prepare_strategy_data (data : DataFrame) (bh_shares : float)
    : result Curves :=
  bh_values <- bh_values_loop data bh_shares ;;
  start <- iloc (index data) 200 ;;
  st <- for_each (range 201 (length data)) (replay_body data)
                 (replay_start data start) ;;
  Ok {| BH_Value := bh_values; MA_Value := ma_values st |}.

(** Every close is a finite double above zero. *)
Definition positive_closeb (r : Row) : bool :=
  match to_scalar (Close r) with
  | Ok p => gtb p 0 && PrimFloat.ltb p infinity
  | Raise _ => false
  end.

Definition all_closes_positive (data : DataFrame) : Prop :=
  forallb positive_closeb data = true.

(** The two implementations of the crossover strategy agree: the last
    entry of the MA_Value curve is the final value. *)
Definition curve_end_is_final_value : Prop :=
  forall (data : DataFrame) (bh : float),
    (200 < length data)%nat -> all_closes_positive data ->
    NoDup (index data) ->
    exists cv v res,
      prepare_strategy_data data bh = Ok cv /\
      iloc_last (MA_Value cv) = Ok (Some v) /\
      ma_crossover_strategy data = Ok res /\
      PrimFloat.eqb v (ma_final_value res) = true.

(** Exactly one of cash and shares is active, the active one above zero. *)
Definition position_inv (st : Position) : bool :=
  if in_market st
  then PrimFloat.eqb (cash st) 0 && gtb (shares st) 0
  else PrimFloat.eqb (shares st) 0 && gtb (cash st) 0.

Definition cash_xor_shares : Prop :=
  forall (data : DataFrame) (k : nat) (st : Position),
    all_closes_positive data -> (k <= length data - 200)%nat ->
    for_each (range 200 (200 + k)) (crossover_body data) initial_position
      = Ok st ->
    position_inv st = true.

Definition sample_frame (n : nat) (close : nat -> float) (signal : nat -> Z)
    : DataFrame :=
  map (fun i => mkRow (Z.of_nat i) (PyFloat (close i)) (signal i)) (seq 0 n).

(** 201 days at the close 4980.38 with a Buy signal on the last day. *)
Definition buy_on_last_day : DataFrame :=
  sample_frame 201 (fun _ => 0x1.3746147ae147bp+12)
                   (fun i => if (i =? 200)%nat then 1%Z else 0%Z).

(** 202 days: a Buy at the close 2^1000 on day 200, a Sell at the close
    2^-1000 on day 201. *)
Definition crash : DataFrame :=
  sample_frame 202
    (fun i => if (i =? 200)%nat then 0x1p+1000
              else if (i =? 201)%nat then 0x1p-1000 else 1)
    (fun i => if (i =? 200)%nat then 1%Z
              else if (i =? 201)%nat then (-1)%Z else 0%Z).
End Double.

(** ** Invariant of the position that survives rounding *)

(** The inactive amount is the literal 0 the code assigns; the active one
    is not negative. *)
Definition position_amounts (st : Position) : Prop :=
  if in_market st then cash st = 0 /\ 0 <= shares st
  else shares st = 0 /\ 0 <= cash st.

(** ** Conversion of a DataFrame, and one more sample *)

(** A DataFrame whose first row holds two columns. *)
Definition two_columns : pyvalue := PyFrame [[1; 2]].

(** The conversion of a DataFrame that is not empty, as the specification
    words it: the float of its first element. *)
Definition frame_converts_to_first_element : Prop :=
  forall x r rows, to_scalar (PyFrame ((x :: r) :: rows)) = Ok x.

(** The sample frame with only its first Buy signal. *)
Definition sample_one_buy : DataFrame :=
  sample_frame 205 sample_close (fun i => if (i =? 200)%nat then 1%Z else 0%Z).

(** * Properties *)

(** ** The error monad, positional access and loops *)

Lemma bind_Ok_inv {A B} (m : result A) (k : A -> result B) (b : B) :
  bind m k = Ok b -> exists a, m = Ok a /\ k a = Ok b.
Proof.
  destruct m as [a|e]; simpl; intros H; [exists a; auto | discriminate].
Qed.

Lemma bind_assoc {A B C} (m : result A) (f : A -> result B) (g : B -> result C) :
  bind (bind m f) g = bind m (fun a => bind (f a) g).
Proof. destruct m; reflexivity. Qed.

Lemma Qgtb_iff x y : Qgtb x y = true <-> y < x.
Proof.
  unfold Qgtb. rewrite negb_true_iff, <- not_true_iff_false, Qle_bool_iff.
  split; [apply Qnot_le_lt | apply Qlt_not_le].
Qed.

Lemma Qgtb_false_iff x y : Qgtb x y = false <-> x <= y.
Proof.
  unfold Qgtb. rewrite negb_false_iff. apply Qle_bool_iff.
Qed.

Lemma py_div_pos x y : 0 < y -> py_div x y = Ok (x / y).
Proof.
  intros Hy. unfold py_div.
  destruct (Qeq_bool y 0) eqn:E; [|reflexivity].
  apply Qeq_bool_eq in E. rewrite E in Hy. exfalso. revert Hy. apply Qlt_irrefl.
Qed.

Lemma py_div_zero x y : y == 0 -> py_div x y = Raise ZeroDivisionError.
Proof.
  intros Hy. unfold py_div. now rewrite (Qeq_eq_bool _ _ Hy).
Qed.

Section Iloc.
Context {A : Type}.
Implicit Types (col : list A) (i : nat).

Lemma iloc_lt col i :
  (i < length col)%nat -> exists a, iloc col i = Ok a /\ nth_error col i = Some a.
Proof.
  intros Hi. unfold iloc.
  destruct (nth_error col i) as [a|] eqn:E; [eauto|].
  apply nth_error_None in E. lia.
Qed.

Lemma iloc_ge col i : (length col <= i)%nat -> iloc col i = Raise IndexError.
Proof.
  intros Hi. unfold iloc.
  apply nth_error_None in Hi. now rewrite Hi.
Qed.

Lemma iloc_Ok_nth col i a : iloc col i = Ok a <-> nth_error col i = Some a.
Proof.
  unfold iloc. destruct (nth_error col i); split; congruence.
Qed.

Lemma iloc_last_eq col :
  col <> [] -> iloc_last col = iloc col (length col - 1).
Proof. destruct col; [congruence | reflexivity]. Qed.
End Iloc.

Lemma iloc_map {A B} (f : A -> B) (col : list A) (i : nat) :
  iloc (map f col) i = (a <- iloc col i ;; Ok (f a)).
Proof.
  unfold iloc. rewrite nth_error_map. now destruct (nth_error col i).
Qed.

Lemma for_each_app {S} (l1 l2 : list nat) (body : nat -> S -> result S) (s : S) :
  for_each (l1 ++ l2) body s = (s' <- for_each l1 body s ;; for_each l2 body s').
Proof.
  revert s. induction l1 as [|i l1 IH]; intros s; simpl; [reflexivity|].
  destruct (body i s); simpl; auto.
Qed.

Lemma range_empty a b : (b <= a)%nat -> range a b = [].
Proof. intros H. unfold range. now replace (b - a)%nat with 0%nat by lia. Qed.

Lemma range_snoc a b : (a <= b)%nat -> range a (S b) = range a b ++ [b].
Proof.
  intros H. unfold range.
  replace (S b - a)%nat with (S (b - a)) by lia.
  rewrite seq_S. do 2 f_equal. lia.
Qed.

(** ** [to_scalar] *)

(** C10, the statement of the specification fails: a DataFrame that is not
    empty does not always convert to the float of its first element.
    [to_scalar] hands the first row of the frame to [float], and on a row of
    two columns [float] raises TypeError. *)
Lemma to_scalar_two_columns_raises :
  empty two_columns = false /\
  to_scalar two_columns = Raise TypeError /\
  ~ frame_converts_to_first_element.
Proof.
  split; [reflexivity|]. split; [reflexivity|].
  intros H. specialize (H 1 [2] []). discriminate H.
Qed.

(** C10, amended. [to_scalar] returns 0.0 for an empty Series or DataFrame
    instead of raising; for a Series that is not empty it returns its first
    element; on a DataFrame whose first row has more than one column it
    raises TypeError, and whenever it returns a value for a DataFrame that is
    not empty, that value is the only cell of the first row; a float is
    returned as it is, and so is an integer that a double holds exactly (up
    to 2^53 in magnitude).  So when the last close of the frame is missing
    (an empty Series or DataFrame), [ma_crossover_strategy] values the
    position at the price 0.0 and returns a result, no error. *)
Theorem to_scalar_first_element :
  (forall value, is_pandas value = true -> empty value = true ->
     to_scalar value = Ok 0)
  /\ (forall x xs, to_scalar (PySeries (x :: xs)) = Ok x)
  /\ (forall x y r rows,
        to_scalar (PyFrame ((x :: y :: r) :: rows)) = Raise TypeError)
  /\ (forall rows v,
        empty (PyFrame rows) = false -> to_scalar (PyFrame rows) = Ok v ->
        exists rest, rows = [v] :: rest)
  /\ (forall x, to_scalar (PyFloat x) = Ok x)
  /\ (forall z, (Z.abs z <= 2 ^ 53)%Z -> to_scalar (PyInt z) = Ok (inject_Z z))
  /\ (forall data st missing,
        crossover_loop data = Ok st ->
        iloc_last (close_col data) = Ok missing ->
        is_pandas missing = true -> empty missing = true ->
        exists res,
          ma_crossover_strategy data = Ok res /\
          ma_final_value res = final_value_rule (cash st) (shares st) 0).
Proof.
  split; [|split; [|split; [|split; [|split; [|split]]]]].
  - intros value Hp He. unfold to_scalar. now rewrite Hp, He.
  - reflexivity.
  - reflexivity.
  - intros rows v He H.
    destruct rows as [|[|x [|y r]] rest]; try discriminate.
    injection H as <-. now exists rest.
  - reflexivity.
  - reflexivity.
  - intros data st missing Hloop Hlast Hp He.
    unfold ma_crossover_strategy. rewrite Hloop. simpl. rewrite Hlast. simpl.
    unfold to_scalar. rewrite Hp, He. simpl. eexists. split; reflexivity.
Qed.

Lemma to_scalar_first_element_witness :
  to_scalar (PySeries []) = Ok 0 /\
  to_scalar (PyInt 1) = Ok 1 /\
  (exists rest, [[3]] = [3] :: rest) /\
  exists res,
    ma_crossover_strategy missing_last_close = Ok res /\
    ma_final_value res = final_value_rule initial_investment 0 0.
Proof.
  destruct to_scalar_first_element
    as [Hempty [_ [_ [Hframe [_ [Hint Hlast]]]]]].
  split; [apply Hempty; reflexivity|].
  split; [apply (Hint 1%Z); vm_compute; discriminate|].
  split; [apply (Hframe [[3]] 3); reflexivity|].
  apply (Hlast missing_last_close initial_position (PySeries []));
    try reflexivity; vm_compute; reflexivity.
Defined.

(** ** Indicator calculator *)

Section RollingMean.
Variable window : nat.
Variable values : list Q.
Hypothesis window_pos : (0 < window)%nat.

Lemma Qsum_app (l1 l2 : list Q) : Qsum (l1 ++ l2) == Qsum l1 + Qsum l2.
Proof.
  induction l1 as [|x l1 IH]; simpl; [ring | rewrite IH; ring].
Qed.

Lemma skipn_cons_nth (lo : nat) :
  (lo < length values)%nat ->
  skipn lo values = nth lo values 0 :: skipn (S lo) values.
Proof.
  revert lo. induction values as [|x l IH]; intros lo Hlo.
  - simpl in Hlo. lia.
  - destruct lo as [|lo]; [reflexivity|].
    simpl in Hlo. simpl. apply IH. lia.
Qed.

Lemma window_sum_add (lo n : nat) :
  (lo + n < length values)%nat ->
  window_sum values lo (S n) == window_sum values lo n + nth (lo + n) values 0.
Proof.
  unfold window_sum. revert lo. induction n as [|n IH]; intros lo H.
  - rewrite skipn_cons_nth by lia. simpl. rewrite Nat.add_0_r. ring.
  - rewrite skipn_cons_nth by lia.
    change (firstn (S (S n)) (?x :: ?l)) with (x :: firstn (S n) l).
    change (firstn (S n) (?x :: ?l)) with (x :: firstn n l).
    cbn [Qsum fold_right]. fold (Qsum (firstn (S n) (skipn (S lo) values))).
    fold (Qsum (firstn n (skipn (S lo) values))).
    rewrite IH by lia. replace (S lo + n)%nat with (lo + S n)%nat by lia. ring.
Qed.

Lemma window_sum_remove (lo n : nat) :
  (lo < length values)%nat ->
  window_sum values lo (S n) - nth lo values 0 == window_sum values (S lo) n.
Proof.
  intros H. unfold window_sum. rewrite skipn_cons_nth by lia.
  cbn [firstn Qsum fold_right]. fold (Qsum (firstn n (skipn (S lo) values))).
  ring.
Qed.

Lemma mean_inv_step (i : nat) (s : MeanState) :
  (i < length values)%nat -> mean_inv window values i s ->
  let s1 := if (window <=? i)%nat
            then remove_mean (nth (i - window) values 0) s else s in
  let s2 := add_mean (nth i values 0) s1 in
  mean_inv window values (S i) s2 /\
  sum_x s2 == window_sum values (S i - window) (Nat.min (S i) window).
Proof.
  intros Hi [Hn Hs]. cbv zeta.
  assert (Hgoal :
    nobs (add_mean (nth i values 0)
            (if (window <=? i)%nat
             then remove_mean (nth (i - window) values 0) s else s))
      = Nat.min (S i) window /\
    sum_x (add_mean (nth i values 0)
            (if (window <=? i)%nat
             then remove_mean (nth (i - window) values 0) s else s))
      == window_sum values (S i - window) (Nat.min (S i) window)).
  { destruct (Nat.leb_spec window i) as [Hle|Hlt];
      cbn [nobs sum_x add_mean remove_mean].
    - split; [rewrite Hn; lia|].
      rewrite Hs.
      replace (Nat.min i window) with (S (window - 1)) by lia.
      rewrite window_sum_remove by lia.
      replace (S i - window)%nat with (S (i - window)) by lia.
      replace (Nat.min (S i) window) with (S (window - 1)) by lia.
      rewrite window_sum_add by lia.
      replace (S (i - window) + (window - 1))%nat with i by lia.
      reflexivity.
    - split; [rewrite Hn; lia|].
      rewrite Hs.
      replace (i - window)%nat with 0%nat by lia.
      replace (S i - window)%nat with 0%nat by lia.
      replace (Nat.min i window) with i by lia.
      replace (Nat.min (S i) window) with (S i) by lia.
      rewrite window_sum_add by lia. reflexivity. }
  destruct Hgoal as [H1 H2]. repeat split; assumption.
Qed.

Lemma roll_mean_length (i : nat) (todo : list Q) (s : MeanState) :
  length (roll_mean window values i todo s) = length todo.
Proof.
  revert i s. induction todo as [|v rest IH]; intros i s; simpl;
    [reflexivity | now rewrite IH].
Qed.

Lemma roll_mean_nth (todo : list Q) :
  forall (i : nat) (s : MeanState) (k : nat),
    todo = skipn i values -> mean_inv window values i s -> (k < length todo)%nat ->
    opt_Qeq (nth k (roll_mean window values i todo s) None)
            (trailing_mean window values (i + k)).
Proof.
  induction todo as [|v rest IH]; intros i s k Htodo Hinv Hk;
    [simpl in Hk; lia|].
  assert (Hi : (i < length values)%nat).
  { destruct (Nat.lt_ge_cases i (length values)) as [H|H]; [exact H|].
    rewrite skipn_all2 in Htodo by exact H. discriminate. }
  rewrite skipn_cons_nth in Htodo by exact Hi.
  injection Htodo as Hv Hrest.
  destruct (mean_inv_step i s Hi Hinv) as [Hinv' Hsum]. cbv zeta in *.
  cbn [roll_mean]. rewrite Hv in *.
  destruct k as [|k].
  - rewrite Nat.add_0_r. cbn [nth].
    destruct Hinv' as [Hn _].
    unfold calc_mean, trailing_mean. rewrite Hn.
    destruct (Nat.ltb_spec i (window - 1)) as [Hlt|Hge].
    + replace (window <=? Nat.min (S i) window)%nat with false
        by (symmetry; apply Nat.leb_gt; lia).
      exact I.
    + replace (window <=? Nat.min (S i) window)%nat with true
        by (symmetry; apply Nat.leb_le; lia).
      replace (0 <? Nat.min (S i) window)%nat with true
        by (symmetry; apply Nat.ltb_lt; lia).
      cbn [andb opt_Qeq]. rewrite Hsum.
      replace (Nat.min (S i) window) with window by lia.
      replace (S i - window)%nat with (i + 1 - window)%nat by lia.
      reflexivity.
  - cbn [nth]. replace (i + S k)%nat with (S i + k)%nat by lia.
    apply IH; [exact Hrest | exact Hinv' | simpl in Hk; lia].
Qed.

Lemma rolling_mean_length : length (rolling_mean window values) = length values.
Proof. apply roll_mean_length. Qed.

Lemma rolling_mean_trailing (i : nat) :
  (i < length values)%nat ->
  opt_Qeq (nth i (rolling_mean window values) None)
          (trailing_mean window values i).
Proof.
  intros Hi. unfold rolling_mean.
  apply (roll_mean_nth values 0 _ i); [reflexivity | | exact Hi].
  split; simpl; [reflexivity|]. unfold window_sum. simpl. reflexivity.
Qed.
End RollingMean.

(** ** Signal generator *)

Section ZipWith.
Context {A B C : Type} (f : A -> B -> C).

Lemma zip_with_length (l : list A) (l' : list B) :
  length l = length l' -> length (zip_with f l l') = length l.
Proof.
  intros H. unfold zip_with. rewrite length_map, length_combine. lia.
Qed.

Lemma zip_with_nth (l : list A) (l' : list B) (i : nat) (a : A) (b : B) (c : C) :
  length l = length l' -> (i < length l)%nat ->
  nth i (zip_with f l l') c = f (nth i l a) (nth i l' b).
Proof.
  intros Hlen Hi. unfold zip_with.
  rewrite (nth_indep _ c (f a b)) by (rewrite length_map, length_combine; lia).
  change (f a b) with ((fun p => f (fst p) (snd p)) (a, b)).
  rewrite map_nth, combine_nth by exact Hlen. reflexivity.
Qed.
End ZipWith.

Lemma shift1_length (col : list (option Q)) : length (shift1 col) = length col.
Proof. unfold shift1. rewrite length_firstn. simpl. lia. Qed.

Lemma shift1_nth (col : list (option Q)) (i : nat) :
  (i < length col)%nat ->
  nth i (shift1 col) None =
  match i with O => None | S j => nth j col None end.
Proof.
  intros Hi. unfold shift1. rewrite nth_firstn.
  replace (i <? length col)%nat with true by (symmetry; apply Nat.ltb_lt; lia).
  destruct i; reflexivity.
Qed.

Lemma nan_gt_above a b : nan_gt a b = true <-> above a b.
Proof.
  destruct a, b; simpl; try (split; [discriminate | tauto]). apply Qgtb_iff.
Qed.

Lemma nan_le_at_most a b : nan_le a b = true <-> at_most a b.
Proof.
  destruct a, b; simpl; try (split; [discriminate | tauto]). apply Qle_bool_iff.
Qed.

Lemma above_asym a b : above a b -> above b a -> False.
Proof.
  destruct a, b; simpl; try tauto. intros H1 H2.
  apply (Qlt_irrefl q). eapply Qlt_trans; eauto.
Qed.

Lemma generate_signals_length (data : list MARow) :
  length (generate_signals data) = length data.
Proof.
  unfold generate_signals, loc_mask_set.
  repeat (rewrite zip_with_length
          || rewrite length_map || rewrite shift1_length); reflexivity.
Qed.

Lemma generate_signals_nth (data : list MARow) (i : nat) :
  (i < length data)%nat ->
  nth i (generate_signals data) 0%Z =
  signal_of (match i with O => None | S j => nth j (map ma50 data) None end)
            (match i with O => None | S j => nth j (map ma200 data) None end)
            (nth i (map ma50 data) None) (nth i (map ma200 data) None).
Proof.
  intros Hi. unfold generate_signals, loc_mask_set.
  assert (L50 : length (map ma50 data) = length data) by apply length_map.
  assert (L200 : length (map ma200 data) = length data) by apply length_map.
  assert (S50 := shift1_length (map ma50 data)).
  assert (S200 := shift1_length (map ma200 data)).
  set (MA50 := map ma50 data) in *. set (MA200 := map ma200 data) in *.
  assert (Lz : forall f g : option Q -> option Q -> bool,
             length (zip_with andb (zip_with f MA50 MA200)
                       (zip_with g (shift1 MA50) (shift1 MA200)))
             = length data).
  { intros f g. repeat rewrite zip_with_length; congruence. }
  assert (Nz : forall f g : option Q -> option Q -> bool,
             nth i (zip_with andb (zip_with f MA50 MA200)
                       (zip_with g (shift1 MA50) (shift1 MA200))) false
             = f (nth i MA50 None) (nth i MA200 None)
               && g (nth i (shift1 MA50) None) (nth i (shift1 MA200) None)).
  { intros f g.
    rewrite (zip_with_nth andb _ _ i false false)
      by (repeat rewrite zip_with_length; congruence).
    rewrite (zip_with_nth f _ _ i None None) by congruence.
    rewrite (zip_with_nth g _ _ i None None) by congruence.
    reflexivity. }
  rewrite (zip_with_nth _ _ _ i false 0%Z).
  2:{ rewrite Lz, zip_with_length; rewrite ?Lz, ?length_map; reflexivity. }
  2:{ rewrite Lz. exact Hi. }
  rewrite (zip_with_nth _ _ _ i false 0%Z).
  2:{ rewrite Lz, length_map. reflexivity. }
  2:{ rewrite Lz. exact Hi. }
  rewrite !Nz.
  rewrite !shift1_nth by congruence.
  replace (nth i (map (fun _ : MARow => 0%Z) data) 0%Z) with 0%Z.
  2:{ clear. revert i. induction data as [|r l IH]; intros [|i]; simpl; auto. }
  unfold signal_of. reflexivity.
Qed.

Lemma signal_of_cases (p50 p200 c50 c200 : option Q) :
  let s := signal_of p50 p200 c50 c200 in
  (s = 1 \/ s = -1 \/ s = 0)%Z /\
  (s = 1%Z <-> above c50 c200 /\ at_most p50 p200) /\
  (s = (-1)%Z <-> above c200 c50 /\ at_most p200 p50).
Proof.
  unfold signal_of, nan_lt, nan_ge.
  destruct (nan_gt c200 c50) eqn:S1; destruct (nan_le p200 p50) eqn:S2;
    destruct (nan_gt c50 c200) eqn:B1; destruct (nan_le p50 p200) eqn:B2;
    cbn [andb];
    repeat match goal with
    | H : nan_gt _ _ = true |- _ => apply nan_gt_above in H
    | H : nan_le _ _ = true |- _ => apply nan_le_at_most in H
    | H : nan_gt ?a ?b = false |- _ =>
        assert (~ above a b) by (rewrite <- nan_gt_above; congruence); clear H
    | H : nan_le ?a ?b = false |- _ =>
        assert (~ at_most a b) by (rewrite <- nan_le_at_most; congruence); clear H
    end;
    try (exfalso; eapply above_asym; eassumption);
    (split; [auto|]); split; split; try tauto; try discriminate.
Qed.

Lemma signal_of_undefined (p50 p200 c50 c200 : option Q) :
  p50 = None \/ p200 = None \/ c50 = None \/ c200 = None ->
  signal_of p50 p200 c50 c200 = 0%Z.
Proof.
  unfold signal_of, nan_lt, nan_ge, nan_gt, nan_le.
  intros H.
  destruct p50, p200, c50, c200;
    try (destruct H as [H|[H|[H|H]]]; discriminate);
    rewrite ?andb_false_r; reflexivity.
Qed.

(** C6. At every index [i >= 1] of an indicator-augmented series the signal
    is exactly one of Buy (1), Sell (-1), None (0): Buy iff
    [ma_short[i] > ma_long[i]] and [ma_short[i-1] <= ma_long[i-1]], Sell iff
    [ma_short[i] < ma_long[i]] and [ma_short[i-1] >= ma_long[i-1]], None
    otherwise and in particular whenever an average is undefined at [i] or
    [i-1]; the signal at index 0 is None. *)
Theorem generate_signals_crossover (data : list MARow) (i : nat) :
  (i < length data)%nat ->
  let s := nth i (generate_signals data) 0%Z in
  let MA50 := map ma50 data in
  let MA200 := map ma200 data in
  (s = 1 \/ s = -1 \/ s = 0)%Z /\
  (i = 0%nat -> s = 0%Z) /\
  ((1 <= i)%nat ->
   (s = 1%Z <-> above (nth i MA50 None) (nth i MA200 None) /\
                at_most (nth (i - 1) MA50 None) (nth (i - 1) MA200 None)) /\
   (s = (-1)%Z <-> above (nth i MA200 None) (nth i MA50 None) /\
                   at_most (nth (i - 1) MA200 None) (nth (i - 1) MA50 None)) /\
   (nth i MA50 None = None \/ nth i MA200 None = None \/
    nth (i - 1) MA50 None = None \/ nth (i - 1) MA200 None = None ->
    s = 0%Z)).
Proof.
  intros Hi s MA50 MA200. subst s MA50 MA200.
  rewrite (generate_signals_nth data i Hi).
  split; [apply signal_of_cases|]. split.
  - intros ->. apply signal_of_undefined. auto.
  - intros H1. destruct i as [|j]; [lia|].
    replace (S j - 1)%nat with j by lia.
    split; [apply signal_of_cases|]. split; [apply signal_of_cases|].
    intros H. apply signal_of_undefined. tauto.
Qed.

Lemma generate_signals_crossover_witness :
  nth 1 (generate_signals crossing_rows) 0%Z = 1%Z /\
  nth 2 (generate_signals crossing_rows) 0%Z = (-1)%Z.
Proof.
  assert (H1 : (1 < length crossing_rows)%nat) by (simpl; lia).
  assert (H2 : (2 < length crossing_rows)%nat) by (simpl; lia).
  split.
  - apply (proj1 (proj2 (proj2 (generate_signals_crossover crossing_rows 1 H1))
                   ltac:(lia))).
    simpl. split; [reflexivity | discriminate].
  - apply (proj1 (proj2 (proj2 (proj2
             (generate_signals_crossover crossing_rows 2 H2)) ltac:(lia)))).
    simpl. split; [reflexivity | discriminate].
Defined.

(** ** The crossover loop *)

Lemma for_each_total {S} (P : S -> Prop) (idx : list nat)
    (body : nat -> S -> result S) (s : S) :
  (forall i s, In i idx -> P s -> exists s', body i s = Ok s' /\ P s') ->
  P s -> exists s', for_each idx body s = Ok s' /\ P s'.
Proof.
  revert s. induction idx as [|i idx IH]; intros s Hbody Hs; simpl.
  - eauto.
  - destruct (Hbody i s (or_introl eq_refl) Hs) as [s1 [E1 P1]].
    rewrite E1. simpl. apply IH; [|exact P1].
    intros j t Hj. apply Hbody. now right.
Qed.

Lemma for_each_preserves {S} (P : S -> Prop) (idx : list nat)
    (body : nat -> S -> result S) (s s' : S) :
  (forall i s s', In i idx -> P s -> body i s = Ok s' -> P s') ->
  P s -> for_each idx body s = Ok s' -> P s'.
Proof.
  revert s. induction idx as [|i idx IH]; intros s Hbody Hs; simpl.
  - now intros [= <-].
  - intros H. apply bind_Ok_inv in H. destruct H as [s1 [E1 E2]].
    apply (IH s1); [| |exact E2].
    + intros j t t' Hj. apply Hbody. now right.
    + apply (Hbody i s s1); auto. now left.
Qed.

Lemma in_range i a b : In i (range a b) <-> (a <= i < b)%nat.
Proof. unfold range. rewrite in_seq. lia. Qed.

Lemma to_scalar_int z : to_scalar (PyInt z) = Ok (inject_Z z).
Proof. reflexivity. Qed.

(** What an iteration does once its row is known. *)
Lemma crossover_body_row (data : DataFrame) (i : nat) (r : Row) (st : Position) :
  nth_error data i = Some r ->
  crossover_body data i st =
  (price <- to_scalar (Close r) ;;
   trade (date r) price (inject_Z (Signal r)) st).
Proof.
  intros Hr. unfold crossover_body, index, close_col, signal_col.
  rewrite !iloc_map. apply iloc_Ok_nth in Hr. rewrite Hr. simpl.
  destruct (to_scalar (Close r)); reflexivity.
Qed.

Lemma crossover_body_out_of_range (data : DataFrame) (i : nat) (st : Position) :
  (length data <= i)%nat -> crossover_body data i st = Raise IndexError.
Proof.
  intros Hi. unfold crossover_body, index.
  rewrite iloc_ge by (rewrite length_map; exact Hi). reflexivity.
Qed.

Lemma positive_closeb_iff (r : Row) : positive_closeb r = true <-> positive_close r.
Proof.
  unfold positive_closeb, positive_close.
  destruct (to_scalar (Close r)) as [p|e].
  - rewrite Qgtb_iff. split; [eauto|]. now intros [q [[= <-] Hq]].
  - split; [discriminate|]. now intros [q [[=] _]].
Qed.

Lemma all_closes_positive_forallb (data : DataFrame) :
  forallb positive_closeb data = true -> all_closes_positive data.
Proof.
  rewrite forallb_forall. intros H. apply Forall_forall.
  intros r Hr. apply positive_closeb_iff. auto.
Qed.

Lemma positive_close_nth (data : DataFrame) (i : nat) (r : Row) :
  all_closes_positive data -> nth_error data i = Some r -> positive_close r.
Proof.
  intros Hall Hr. eapply Forall_forall; [exact Hall|].
  eapply nth_error_In; eauto.
Qed.

Lemma trade_position_inv (d : Z) (p signal : Q) (st : Position) :
  0 < p -> position_inv st ->
  exists st', trade d p signal st = Ok st' /\ position_inv st'.
Proof.
  intros Hp Hinv. unfold trade, position_inv in *.
  destruct (in_market st) eqn:Hm; destruct Hinv as [Hz Hpos];
    rewrite ?andb_true_r, ?andb_false_r; cbn [negb andb].
  - destruct (Qeq_bool signal (-1)).
    + eexists. split; [reflexivity|]. cbn. split; [reflexivity|].
      apply Qmult_lt_0_compat; assumption.
    + eexists. split; [reflexivity|]. rewrite Hm. auto.
  - destruct (Qeq_bool signal 1).
    + rewrite (py_div_pos _ _ Hp). eexists. split; [reflexivity|]. cbn.
      split; [reflexivity|]. apply Qlt_shift_div_l; [exact Hp|].
      now rewrite Qmult_0_l.
    + eexists. split; [reflexivity|]. rewrite Hm. auto.
Qed.

Lemma alternates_snoc (next a : Action) (l : list Action) :
  alternates next (l ++ [a]) =
  alternates next l &&
  Action_eqb a (if Nat.even (length l) then next else flip next).
Proof.
  revert next. induction l as [|b l IH]; intros next;
    cbn [alternates app length].
  - now rewrite andb_true_r.
  - rewrite IH, <- andb_assoc. rewrite Nat.even_succ, <- Nat.negb_even.
    destruct (Nat.even (length l)), next; reflexivity.
Qed.

Lemma trade_log_inv (d : Z) (p signal : Q) (st st' : Position) :
  log_inv st -> trade d p signal st = Ok st' -> log_inv st'.
Proof.
  unfold trade, log_inv, actions. intros [Halt Hpar].
  destruct (Qeq_bool signal 1 && negb (in_market st)) eqn:Hbuy.
  - apply andb_true_iff in Hbuy. destruct Hbuy as [_ Hm].
    apply negb_true_iff in Hm.
    intros H. apply bind_Ok_inv in H. destruct H as [sh [_ [= <-]]].
    cbn [transactions in_market]. rewrite map_app. cbn [map tx_action].
    rewrite alternates_snoc, Halt.
    rewrite length_map, length_app, Nat.add_1_r, Nat.odd_succ.
    rewrite Hm in Hpar. rewrite <- Nat.negb_odd, <- Hpar. split; reflexivity.
  - destruct (Qeq_bool signal (-1) && in_market st) eqn:Hsell.
    + apply andb_true_iff in Hsell. destruct Hsell as [_ Hm].
      intros [= <-].
      cbn [transactions in_market]. rewrite map_app. cbn [map tx_action].
    rewrite alternates_snoc, Halt.
      rewrite length_map, length_app, Nat.add_1_r, Nat.odd_succ.
      rewrite Hm in Hpar. rewrite <- Nat.negb_odd, <- Hpar. split; reflexivity.
    + intros [= <-]. auto.
Qed.

Lemma crossover_body_log_inv (data : DataFrame) (i : nat) (st st' : Position) :
  log_inv st -> crossover_body data i st = Ok st' -> log_inv st'.
Proof.
  intros Hinv H.
  destruct (nth_error data i) as [r|] eqn:Hr.
  - rewrite (crossover_body_row data i r st Hr) in H.
    apply bind_Ok_inv in H. destruct H as [p [_ Ht]].
    eapply trade_log_inv; eauto.
  - apply nth_error_None in Hr.
    rewrite crossover_body_out_of_range in H by exact Hr. discriminate.
Qed.

Lemma alternates_starts_with_buy (l : list Action) :
  alternates BUY l = true -> starts_with_buy l.
Proof.
  destruct l as [|a l]; simpl; [auto|].
  destruct a; simpl; [reflexivity | discriminate].
Qed.

Lemma alternates_no_repeat (next : Action) (l : list Action) :
  alternates next l = true -> no_repeat l.
Proof.
  revert next. induction l as [|a l IH]; intros next H k x y Hx Hy.
  - destruct k; discriminate.
  - simpl in H. apply andb_true_iff in H. destruct H as [Ha Hl].
    destruct k as [|k].
    + simpl in Hx, Hy. injection Hx as <-.
      destruct l as [|b l]; [discriminate|]. simpl in Hy. injection Hy as <-.
      simpl in Hl. apply andb_true_iff in Hl. destruct Hl as [Hb _].
      destruct a, b, next; simpl in *; congruence.
    + simpl in Hx. apply (IH (flip next) Hl k); assumption.
Qed.

(** C8. In the transaction log [ma_crossover_strategy] returns, the action
    labels alternate BUY, SELL, BUY, SELL, ... starting with BUY: the first
    transaction, if any, is a BUY and no two consecutive transactions carry
    the same action. *)
Theorem crossover_log_alternates (data : DataFrame) (res : CrossoverResult) :
  ma_crossover_strategy data = Ok res ->
  alternates BUY (actions (ma_transactions res)) = true /\
  starts_with_buy (actions (ma_transactions res)) /\
  no_repeat (actions (ma_transactions res)).
Proof.
  intros H. unfold ma_crossover_strategy in H.
  apply bind_Ok_inv in H. destruct H as [st [Hloop H]].
  apply bind_Ok_inv in H. destruct H as [last [_ H]].
  apply bind_Ok_inv in H. destruct H as [final_price [_ H]].
  injection H as <-. cbn [ma_transactions].
  assert (Hinv : log_inv st).
  { apply (for_each_preserves log_inv (range 200 (length data))
             (crossover_body data) initial_position st).
    - intros i s s' _. apply crossover_body_log_inv.
    - split; reflexivity.
    - exact Hloop. }
  destruct Hinv as [Halt _].
  split; [exact Halt|]. split.
  - now apply alternates_starts_with_buy.
  - now apply (alternates_no_repeat BUY).
Qed.

Lemma crossover_log_alternates_witness :
  exists res,
    ma_crossover_strategy sample = Ok res /\
    actions (ma_transactions res) = [BUY; SELL; BUY] /\
    no_repeat (actions (ma_transactions res)).
Proof.
  eexists. split; [vm_compute; reflexivity|].
  split; [reflexivity|].
  apply (crossover_log_alternates sample). vm_compute. reflexivity.
Defined.

Lemma crossover_body_position_inv (data : DataFrame) (i : nat) (st : Position) :
  all_closes_positive data -> (i < length data)%nat -> position_inv st ->
  exists st', crossover_body data i st = Ok st' /\ position_inv st'.
Proof.
  intros Hall Hi Hinv.
  destruct (nth_error data i) as [r|] eqn:Hr;
    [|apply nth_error_None in Hr; lia].
  destruct (positive_close_nth data i r Hall Hr) as [p [Hp Hpos]].
  rewrite (crossover_body_row data i r st Hr), Hp. simpl.
  now apply trade_position_inv.
Qed.

Lemma crossover_prefix_position_inv (data : DataFrame) (k : nat) :
  all_closes_positive data -> (k <= length data - 200)%nat ->
  exists st,
    for_each (range 200 (200 + k)) (crossover_body data) initial_position = Ok st
    /\ position_inv st.
Proof.
  intros Hall Hk. apply for_each_total.
  - intros i s Hi Hs. apply in_range in Hi.
    apply crossover_body_position_inv; [exact Hall | lia | exact Hs].
  - unfold position_inv. simpl. split; [reflexivity|]. reflexivity.
Qed.

Lemma final_value_rule_by_flag (st : Position) (p : Q) :
  position_inv st ->
  final_value_rule (cash st) (shares st) p = final_value_by_flag st p.
Proof.
  unfold position_inv, final_value_rule, final_value_by_flag.
  destruct (in_market st); intros [Hz Hpos].
  - replace (Qgtb (cash st) 0) with false; [reflexivity|].
    symmetry. apply Qgtb_false_iff. rewrite Hz. apply Qle_refl.
  - replace (Qgtb (cash st) 0) with true; [reflexivity|].
    symmetry. now apply Qgtb_iff.
Qed.

(** C9, the statement of the specification fails on the doubles the code
    computes with: after a Buy at the close 2^1000 and a Sell at the close
    2^-1000 the proceeds, shares times price, underflow to 0.0, so the
    position is out of the market with no shares and no cash above zero. *)
Lemma crash_leaves_no_cash :
  Double.all_closes_positive Double.crash /\
  (exists st,
     for_each (range 200 (200 + 2)) (Double.crossover_body Double.crash)
              Double.initial_position = Ok st /\
     Double.in_market st = false /\
     Double.shares st = 0%float /\ Double.cash st = 0%float /\
     Double.gtb (Double.cash st) 0 = false) /\
  ~ Double.cash_xor_shares.
Proof.
  split; [vm_compute; reflexivity|]. split.
  - eexists. split; [vm_compute; reflexivity|]. repeat split.
  - intros H.
    assert (Hst : exists st,
              for_each (range 200 (200 + 2))
                       (Double.crossover_body Double.crash)
                       Double.initial_position = Ok st /\
              Double.position_inv st = false).
    { eexists. split; [vm_compute; reflexivity|]. vm_compute. reflexivity. }
    destruct Hst as [st [Hst Hinv]].
    assert (Hall : Double.all_closes_positive Double.crash)
      by (vm_compute; reflexivity).
    assert (Hk : (2 <= length Double.crash - 200)%nat) by (vm_compute; lia).
    rewrite (H Double.crash 2%nat st Hall Hk Hst) in Hinv. discriminate Hinv.
Qed.

Lemma trade_position_amounts (d : Z) (p signal : Q) (st st' : Position) :
  0 < p -> position_amounts st -> trade d p signal st = Ok st' ->
  position_amounts st'.
Proof.
  intros Hp Hinv. unfold trade, position_amounts in *.
  destruct (in_market st) eqn:Hm; destruct Hinv as [Hz Hpos];
    rewrite ?andb_true_r, ?andb_false_r; cbn [negb andb].
  - destruct (Qeq_bool signal (-1)).
    + intros [= <-]. cbn. split; [reflexivity|].
      apply Qmult_le_0_compat; [exact Hpos | now apply Qlt_le_weak].
    + intros [= <-]. rewrite Hm. auto.
  - destruct (Qeq_bool signal 1).
    + rewrite (py_div_pos _ _ Hp). intros [= <-]. cbn.
      split; [reflexivity|]. apply Qle_shift_div_l; [exact Hp|].
      now rewrite Qmult_0_l.
    + intros [= <-]. rewrite Hm. auto.
Qed.

Lemma crossover_prefix_position_amounts (data : DataFrame) (k : nat)
    (st : Position) :
  all_closes_positive data ->
  for_each (range 200 (200 + k)) (crossover_body data) initial_position = Ok st ->
  position_amounts st.
Proof.
  intros Hall.
  apply (for_each_preserves position_amounts).
  - intros i s s' _ Hs Hbody.
    destruct (nth_error data i) as [r|] eqn:Hr.
    + destruct (positive_close_nth data i r Hall Hr) as [p [Hp Hpos]].
      rewrite (crossover_body_row data i r s Hr), Hp in Hbody.
      exact (trade_position_amounts _ _ _ s s' Hpos Hs Hbody).
    + apply nth_error_None in Hr.
      rewrite crossover_body_out_of_range in Hbody by exact Hr. discriminate.
  - unfold position_amounts. cbn. split; [reflexivity | discriminate].
Qed.

(** C9, amended. With all closes positive, after every number [k] of
    iterations of the crossover loop at most one of cash and shares is
    active: when [in_market] holds, cash is the 0 the code assigned and
    shares are not negative; when it does not, shares are the 0 the code
    assigned and cash is not negative (the active amount can be rounded
    down to zero).  At every positive price the final-value rule (cash when
    cash > 0, else shares times the last close) selects an amount equal to
    the one the [in_market] flag selects. *)
Theorem crossover_cash_or_shares (data : DataFrame) (k : nat) :
  all_closes_positive data -> (k <= length data - 200)%nat ->
  exists st,
    for_each (range 200 (200 + k)) (crossover_body data) initial_position = Ok st
    /\ (in_market st = true -> cash st = 0 /\ 0 <= shares st)
    /\ (in_market st = false -> shares st = 0 /\ 0 <= cash st)
    /\ forall final_price,
         0 < final_price ->
         final_value_rule (cash st) (shares st) final_price ==
         final_value_by_flag st final_price.
Proof.
  intros Hall Hk.
  destruct (crossover_prefix_position_inv data k Hall Hk) as [st [Hst Hinv]].
  assert (Ham := crossover_prefix_position_amounts data k st Hall Hst).
  exists st. split; [exact Hst|].
  split; [|split].
  - intros Hm. unfold position_amounts in Ham. now rewrite Hm in Ham.
  - intros Hm. unfold position_amounts in Ham. now rewrite Hm in Ham.
  - intros p _. now rewrite (final_value_rule_by_flag st p Hinv).
Qed.

Lemma crossover_cash_or_shares_witness :
  (exists st,
     for_each (range 200 (200 + 1)) (crossover_body sample) initial_position
       = Ok st
     /\ in_market st = true /\ cash st = 0 /\ 0 <= shares st) /\
  (exists st,
     for_each (range 200 (200 + 3)) (crossover_body sample) initial_position
       = Ok st
     /\ in_market st = false /\ shares st = 0 /\ 0 <= cash st).
Proof.
  assert (Hall : all_closes_positive sample)
    by (apply all_closes_positive_forallb; vm_compute; reflexivity).
  split.
  - assert (Hk : (1 <= length sample - 200)%nat) by (vm_compute; lia).
    destruct (crossover_cash_or_shares sample 1 Hall Hk)
      as [st [Hst [Hin _]]].
    exists st. split; [exact Hst|].
    assert (Hm : in_market st = true).
    { vm_compute in Hst. injection Hst as <-. reflexivity. }
    split; [exact Hm|]. exact (Hin Hm).
  - assert (Hk : (3 <= length sample - 200)%nat) by (vm_compute; lia).
    destruct (crossover_cash_or_shares sample 3 Hall Hk)
      as [st [Hst [_ [Hflat _]]]].
    exists st. split; [exact Hst|].
    assert (Hm : in_market st = false).
    { vm_compute in Hst. injection Hst as <-. reflexivity. }
    split; [exact Hm|]. exact (Hflat Hm).
Defined.

(** ** Series that stop at or before the warm-up boundary *)

Section ShortSeries.
Variable data : DataFrame.
Hypothesis short : (length data <= 200)%nat.

Lemma buy_and_hold_short : buy_and_hold data = Raise IndexError.
Proof.
  unfold buy_and_hold, close_col.
  rewrite iloc_ge by (rewrite length_map; exact short). reflexivity.
Qed.

Lemma crossover_loop_short : crossover_loop data = Ok initial_position.
Proof.
  unfold crossover_loop. rewrite range_empty by exact short. reflexivity.
Qed.

Lemma ma_crossover_strategy_short (res : CrossoverResult) :
  ma_crossover_strategy data = Ok res ->
  ma_transactions res = [] /\ ma_final_value res = initial_investment.
Proof.
  unfold ma_crossover_strategy. rewrite crossover_loop_short. simpl.
  intros H. apply bind_Ok_inv in H. destruct H as [last [_ H]].
  apply bind_Ok_inv in H. destruct H as [p [_ H]].
  injection H as <-. split; reflexivity.
Qed.
End ShortSeries.

Lemma bh_values_prefix (data : DataFrame) (bh : Q) (k : nat) :
  (k <= 200)%nat ->
  for_each (range 0 k) (bh_body data bh) [] = Ok (repeat None k).
Proof.
  induction k as [|k IH]; intros Hk; [reflexivity|].
  rewrite range_snoc, for_each_app, IH by lia. simpl.
  unfold bh_body. replace (k <? 200)%nat with true
    by (symmetry; apply Nat.ltb_lt; lia).
  now rewrite <- repeat_cons.
Qed.

Lemma bh_values_loop_short (data : DataFrame) (bh : Q) :
  (length data <= 200)%nat ->
  bh_values_loop data bh = Ok (repeat None (length data)).
Proof. intros H. now apply bh_values_prefix. Qed.

Lemma prepare_strategy_data_short (data : DataFrame) (bh : Q) :
  (length data <= 200)%nat -> prepare_strategy_data data bh = Raise IndexError.
Proof.
  intros H. unfold prepare_strategy_data.
  rewrite bh_values_loop_short by exact H. simpl.
  unfold index. rewrite iloc_ge by (rewrite length_map; exact H). reflexivity.
Qed.

Lemma defined_points_repeat_None (n : nat) : defined_points (repeat None n) = 0%nat.
Proof.
  unfold defined_points. induction n as [|n IH]; simpl; auto.
Qed.

Lemma ma_crossover_strategy_total (data : DataFrame) :
  data <> [] -> all_closes_positive data ->
  exists res, ma_crossover_strategy data = Ok res.
Proof.
  intros Hne Hall. unfold ma_crossover_strategy, crossover_loop.
  destruct (crossover_prefix_position_inv data (length data - 200) Hall
              (Nat.le_refl _)) as [st [Hst _]].
  replace (200 + (length data - 200))%nat with (Nat.max 200 (length data))
    in Hst by lia.
  assert (Hr : range 200 (Nat.max 200 (length data)) = range 200 (length data)).
  { unfold range. f_equal. lia. }
  rewrite Hr in Hst. rewrite Hst. simpl.
  assert (Hlen : (length data - 1 < length data)%nat).
  { destruct data; [congruence | simpl; lia]. }
  rewrite iloc_last_eq by (unfold close_col; destruct data; simpl; congruence).
  unfold close_col. rewrite iloc_map, length_map.
  destruct (iloc_lt data _ Hlen) as [r [Hr1 Hr2]]. rewrite Hr1. simpl.
  destruct (positive_close_nth data _ r Hall Hr2) as [p [Hp _]].
  rewrite Hp. simpl. eauto.
Qed.

Lemma quiet_frame_positive (n : nat) : all_closes_positive (quiet_frame n).
Proof.
  unfold quiet_frame, sample_frame. apply Forall_forall. intros r Hr.
  apply in_map_iff in Hr. destruct Hr as [i [<- _]].
  exists (sample_close i). split; [reflexivity|].
  unfold sample_close, Qlt. cbn [inject_Z Qnum Qden]. lia.
Qed.

Lemma quiet_frame_length (n : nat) : length (quiet_frame n) = n.
Proof. unfold quiet_frame, sample_frame. now rewrite length_map, length_seq. Qed.

(** C4, the statement of the specification fails: a series of 10 valid
    closes makes both [buy_and_hold] and [prepare_strategy_data] raise
    IndexError. *)
Lemma short_series_raise_IndexError :
  buy_and_hold frame10 = Raise IndexError /\
  prepare_strategy_data frame10 1 = Raise IndexError /\
  ~ short_series_succeed.
Proof.
  assert (Hb : buy_and_hold frame10 = Raise IndexError)
    by (vm_compute; reflexivity).
  split; [exact Hb|]. split; [vm_compute; reflexivity|].
  intros claim.
  destruct (claim frame10 1 (quiet_frame_positive 10)) as [b [c [r [H _]]]].
  - unfold frame10. rewrite quiet_frame_length. lia.
  - rewrite Hb in H. discriminate.
Qed.

(** C4, amended. For a series shorter than the long window the crossover
    strategy executes no trade: its loop leaves the initial position, and
    whenever [ma_crossover_strategy] returns (it does for a series that is
    not empty and has positive closes) the log is empty and the final value
    is the initial capital.  The rest of the simulation does not succeed:
    [buy_and_hold] and [prepare_strategy_data] raise IndexError, the latter
    after a buy-and-hold column that is undefined at every point. *)
Theorem short_series_no_trade (data : DataFrame) (bh : Q) :
  (length data < 200)%nat ->
  buy_and_hold data = Raise IndexError /\
  bh_values_loop data bh = Ok (repeat None (length data)) /\
  prepare_strategy_data data bh = Raise IndexError /\
  crossover_loop data = Ok initial_position /\
  (forall res, ma_crossover_strategy data = Ok res ->
     ma_transactions res = [] /\ ma_final_value res = initial_investment) /\
  (data <> [] -> all_closes_positive data ->
     exists res, ma_crossover_strategy data = Ok res).
Proof.
  intros H. assert (H' : (length data <= 200)%nat) by lia.
  split; [now apply buy_and_hold_short|].
  split; [now apply bh_values_loop_short|].
  split; [now apply prepare_strategy_data_short|].
  split; [now apply crossover_loop_short|].
  split; [now apply ma_crossover_strategy_short|].
  apply ma_crossover_strategy_total.
Qed.

Lemma short_series_no_trade_witness :
  buy_and_hold frame10 = Raise IndexError /\
  exists res, ma_crossover_strategy frame10 = Ok res /\ ma_transactions res = [].
Proof.
  assert (Hlen : (length frame10 < 200)%nat) by (vm_compute; lia).
  destruct (short_series_no_trade frame10 1 Hlen) as [Hb [_ [_ [_ [Hlog Htot]]]]].
  split; [exact Hb|].
  destruct (Htot ltac:(discriminate) (quiet_frame_positive 10)) as [res Hres].
  exists res. split; [exact Hres|]. apply (Hlog res Hres).
Defined.

(** C3, the statement of the specification fails: on 200 valid closes
    [buy_and_hold] raises IndexError instead of investing at the last index,
    and the buy-and-hold column is defined at no point. *)
Lemma length_200_buy_and_hold_raises :
  buy_and_hold frame200 = Raise IndexError /\
  (exists col, bh_values_loop frame200 1 = Ok col /\ defined_points col = 0%nat) /\
  ~ boundary_at_last_index.
Proof.
  assert (Hb : buy_and_hold frame200 = Raise IndexError)
    by (vm_compute; reflexivity).
  split; [exact Hb|]. split.
  - exists (repeat None 200). split; vm_compute; reflexivity.
  - intros claim.
    destruct (claim frame200 1 (quiet_frame_positive 200)
                (quiet_frame_length 200)) as [b [col [r [last [H _]]]]].
    rewrite Hb in H. discriminate.
Qed.

Lemma defined_points_one (n : nat) (x : Q) :
  defined_points (repeat None n ++ [Some x]) = 1%nat.
Proof.
  unfold defined_points. rewrite filter_app, length_app.
  fold (defined_points (repeat None n)). now rewrite defined_points_repeat_None.
Qed.

Section BoundaryAtLastIndex.
Variable data : DataFrame.
Hypothesis length_201 : length data = 201%nat.
Hypothesis valid : all_closes_positive data.

Lemma close_200 :
  exists r p, nth_error data 200 = Some r /\ to_scalar (Close r) = Ok p /\ 0 < p.
Proof.
  destruct (iloc_lt data 200 ltac:(lia)) as [r [_ Hr]].
  destruct (positive_close_nth data 200 r valid Hr) as [p [Hp Hpos]].
  eauto.
Qed.

Lemma buy_and_hold_201 (r : Row) (p : Q) :
  nth_error data 200 = Some r -> to_scalar (Close r) = Ok p -> 0 < p ->
  exists b, buy_and_hold data = Ok b /\
            bh_shares b = initial_investment / p /\
            bh_final_value b = initial_investment / p * p.
Proof.
  intros Hr Hp Hpos. apply iloc_Ok_nth in Hr.
  unfold buy_and_hold.
  rewrite iloc_last_eq by (unfold close_col; destruct data; simpl in *; congruence).
  unfold close_col. rewrite length_map, length_201. simpl (201 - 1)%nat.
  rewrite !iloc_map, Hr. simpl. rewrite Hp. simpl.
  rewrite (py_div_pos _ _ Hpos). simpl.
  eexists. repeat split; reflexivity.
Qed.

Lemma bh_values_loop_201 (bh : Q) (r : Row) (p : Q) :
  nth_error data 200 = Some r -> to_scalar (Close r) = Ok p ->
  bh_values_loop data bh = Ok (repeat None 200 ++ [Some (bh * p)]).
Proof.
  intros Hr Hp. apply iloc_Ok_nth in Hr.
  unfold bh_values_loop. rewrite length_201.
  rewrite range_snoc, for_each_app, bh_values_prefix by lia.
  cbn [bind for_each]. unfold bh_body.
  replace (200 <? 200)%nat with false by reflexivity.
  unfold close_col. rewrite iloc_map, Hr. simpl. rewrite Hp. reflexivity.
Qed.
End BoundaryAtLastIndex.

(** C3, amended. The warm-up boundary of the code is index 200.  For a
    series of exactly 200 points it lies one past the last index:
    [buy_and_hold] raises IndexError and invests nothing, the buy-and-hold
    column is undefined at all 200 points and [prepare_strategy_data] then
    raises IndexError; the crossover strategy never trades and its log is
    empty.  The boundary is the last index for a series of exactly 201
    valid points: there [buy_and_hold] invests the full initial capital at
    the close of index 200 and the buy-and-hold curve is defined at exactly
    one point. *)
Theorem boundary_is_index_200 :
  (forall data bh, length data = 200%nat ->
     buy_and_hold data = Raise IndexError /\
     bh_values_loop data bh = Ok (repeat None 200) /\
     defined_points (repeat None 200) = 0%nat /\
     prepare_strategy_data data bh = Raise IndexError /\
     crossover_loop data = Ok initial_position /\
     (forall res, ma_crossover_strategy data = Ok res ->
        ma_transactions res = [] /\ ma_final_value res = initial_investment) /\
     (all_closes_positive data ->
        exists res, ma_crossover_strategy data = Ok res)) /\
  (forall data bh, length data = 201%nat -> all_closes_positive data ->
     exists r p b,
       nth_error data 200 = Some r /\ to_scalar (Close r) = Ok p /\ 0 < p /\
       buy_and_hold data = Ok b /\
       bh_shares b = initial_investment / p /\
       bh_final_value b = initial_investment / p * p /\
       bh_values_loop data bh = Ok (repeat None 200 ++ [Some (bh * p)]) /\
       defined_points (repeat None 200 ++ [Some (bh * p)]) = 1%nat).
Proof.
  split.
  - intros data bh Hlen. assert (H' : (length data <= 200)%nat) by lia.
    split; [now apply buy_and_hold_short|].
    split; [rewrite <- Hlen; now apply bh_values_loop_short|].
    split; [apply defined_points_repeat_None|].
    split; [now apply prepare_strategy_data_short|].
    split; [now apply crossover_loop_short|].
    split; [now apply ma_crossover_strategy_short|].
    apply ma_crossover_strategy_total. destruct data; [discriminate|congruence].
  - intros data bh Hlen Hall.
    destruct (close_200 data Hlen Hall) as [r [p [Hr [Hp Hpos]]]].
    destruct (buy_and_hold_201 data Hlen Hall r p Hr Hp Hpos)
      as [b [Hb [Hs Hf]]].
    exists r, p, b.
    repeat (split; [assumption|]).
    split; [now apply (bh_values_loop_201 data Hlen bh r p)|].
    apply defined_points_one.
Qed.

Lemma boundary_is_index_200_witness :
  (buy_and_hold frame200 = Raise IndexError /\
   crossover_loop frame200 = Ok initial_position) /\
  (exists b, buy_and_hold frame201 = Ok b /\
             bh_shares b = initial_investment / sample_close 200).
Proof.
  destruct boundary_is_index_200 as [H200 H201].
  split.
  - destruct (H200 frame200 1 (quiet_frame_length 200))
      as [Hb [_ [_ [_ [Hc _]]]]].
    split; assumption.
  - destruct (H201 frame201 1 (quiet_frame_length 201)
                (quiet_frame_positive 201))
      as [r [p [b [Hr [Hp [_ [Hb [Hs _]]]]]]]].
    exists b. split; [exact Hb|].
    vm_compute in Hr. injection Hr as <-.
    vm_compute in Hp. injection Hp as <-. exact Hs.
Defined.

(** ** Prices that are not positive *)

Lemma range_split (a i b : nat) :
  (a <= i < b)%nat -> range a b = range a i ++ i :: range (S i) b.
Proof.
  intros H. unfold range.
  replace (b - a)%nat with ((i - a) + S (b - S i))%nat by lia.
  rewrite seq_app. f_equal. simpl. f_equal; [lia|]. f_equal. lia.
Qed.

Lemma trade_shares_nonneg (d : Z) (p signal : Q) (st st' : Position) :
  0 < p -> position_inv st -> shares_nonneg (transactions st) ->
  trade d p signal st = Ok st' -> shares_nonneg (transactions st').
Proof.
  intros Hp Hinv Hlog. unfold trade, shares_nonneg in *.
  destruct (Qeq_bool signal 1 && negb (in_market st)) eqn:Hbuy.
  - apply andb_true_iff in Hbuy. destruct Hbuy as [_ Hm].
    apply negb_true_iff in Hm. unfold position_inv in Hinv. rewrite Hm in Hinv.
    rewrite (py_div_pos _ _ Hp). simpl. intros [= <-]. cbn [transactions].
    apply Forall_app. split; [exact Hlog|]. constructor; [|constructor].
    cbn [tx_shares]. apply Qlt_le_weak. apply Qlt_shift_div_l; [exact Hp|].
    destruct Hinv as [_ Hc]. now rewrite Qmult_0_l.
  - destruct (Qeq_bool signal (-1) && in_market st).
    + intros [= <-]. cbn [transactions].
      apply Forall_app. split; [exact Hlog|]. constructor; [|constructor].
      cbn [tx_shares]. apply Qle_refl.
    + now intros [= <-].
Qed.

Lemma crossover_loop_valid (data : DataFrame) :
  all_closes_positive data ->
  exists st, crossover_loop data = Ok st /\
             position_inv st /\ shares_nonneg (transactions st).
Proof.
  intros Hall. unfold crossover_loop.
  apply (for_each_total
           (fun st => position_inv st /\ shares_nonneg (transactions st))).
  - intros i st Hi [Hinv Hlog]. apply in_range in Hi.
    destruct (crossover_body_position_inv data i st Hall ltac:(lia) Hinv)
      as [st' [Hst' Hinv']].
    exists st'. split; [exact Hst'|]. split; [exact Hinv'|].
    destruct (nth_error data i) as [r|] eqn:Hr;
      [|apply nth_error_None in Hr; lia].
    destruct (positive_close_nth data i r Hall Hr) as [p [Hp Hpos]].
    rewrite (crossover_body_row data i r st Hr), Hp in Hst'. simpl in Hst'.
    exact (trade_shares_nonneg _ _ _ st st' Hpos Hinv Hlog Hst').
  - split; [|constructor]. unfold position_inv. simpl.
    split; reflexivity.
Qed.

Lemma crossover_loop_zero_close (data : DataFrame) (i : nat) (r : Row)
    (p : Q) (st : Position) :
  (200 <= i)%nat ->
  for_each (range 200 i) (crossover_body data) initial_position = Ok st ->
  nth_error data i = Some r -> to_scalar (Close r) = Ok p -> p == 0 ->
  Signal r = 1%Z -> in_market st = false ->
  crossover_loop data = Raise ZeroDivisionError.
Proof.
  intros Hi Hpre Hr Hp Hz Hsig Hm.
  assert (Hlt : (i < length data)%nat) by (apply nth_error_Some; congruence).
  unfold crossover_loop.
  rewrite (range_split 200 i (length data)) by lia.
  rewrite for_each_app, Hpre. cbn [bind for_each].
  rewrite (crossover_body_row data i r st Hr), Hp. cbn [bind].
  unfold trade. rewrite Hsig, Hm. cbn [negb andb inject_Z].
  change (Qeq_bool (1 # 1) 1) with true. cbn [andb].
  rewrite (py_div_zero _ _ Hz). reflexivity.
Qed.

(** C5, the statement of the specification fails: a negative close on the
    day of a Buy is accepted and yields a negative share count, and a zero
    close raises ZeroDivisionError, not InvalidPriceError. *)
Lemma negative_close_not_rejected :
  (exists res t,
     ma_crossover_strategy negative_close_frame = Ok res /\
     ma_transactions res = [t] /\ tx_action t = BUY /\
     tx_price t = -100 /\ tx_shares t < 0) /\
  ma_crossover_strategy zero_close_frame = Raise ZeroDivisionError /\
  ~ invalid_price_rejected.
Proof.
  split; [|split].
  - eexists. eexists. split; [vm_compute; reflexivity|].
    split; [reflexivity|]. split; [reflexivity|]. split; reflexivity.
  - vm_compute. reflexivity.
  - intros claim.
    assert (H : ma_crossover_strategy negative_close_frame
                = Raise InvalidPriceError).
    { apply (claim negative_close_frame 200%nat
               (mkRow 200 (PyFloat (-100)) 1) (-100) initial_position).
      - lia.
      - reflexivity.
      - vm_compute. reflexivity.
      - reflexivity.
      - discriminate.
      - left. split; reflexivity. }
    vm_compute in H. discriminate.
Qed.

Lemma bind_not_raising {A B} (e : exn) (m : result A) (k : A -> result B) :
  m <> Raise e -> (forall a, k a <> Raise e) -> bind m k <> Raise e.
Proof.
  intros Hm Hk. destruct m as [a|e']; simpl; [apply Hk|]. congruence.
Qed.

Lemma iloc_not_invalid {A} (col : list A) (i : nat) :
  iloc col i <> Raise InvalidPriceError.
Proof. unfold iloc. destruct (nth_error col i); discriminate. Qed.

Lemma to_scalar_not_invalid (value : pyvalue) :
  to_scalar value <> Raise InvalidPriceError.
Proof.
  destruct value as [z|x|[|x [|y xs]]|[|[|x [|y r]] rows]]; discriminate.
Qed.

Lemma py_div_not_invalid (x y : Q) : py_div x y <> Raise InvalidPriceError.
Proof. unfold py_div. destruct (Qeq_bool y 0); discriminate. Qed.

Lemma trade_not_invalid (d : Z) (p signal : Q) (st : Position) :
  trade d p signal st <> Raise InvalidPriceError.
Proof.
  unfold trade.
  destruct (Qeq_bool signal 1 && negb (in_market st)).
  - apply bind_not_raising; [apply py_div_not_invalid | discriminate].
  - destruct (Qeq_bool signal (-1) && in_market st); discriminate.
Qed.

Lemma for_each_not_raising {S} (e : exn) (idx : list nat)
    (body : nat -> S -> result S) (s : S) :
  (forall i s, body i s <> Raise e) -> for_each idx body s <> Raise e.
Proof.
  intros Hbody. revert s. induction idx as [|i idx IH]; intros s; simpl.
  - discriminate.
  - apply bind_not_raising; auto.
Qed.

Lemma ma_crossover_strategy_not_invalid (data : DataFrame) :
  ma_crossover_strategy data <> Raise InvalidPriceError.
Proof.
  unfold ma_crossover_strategy, crossover_loop.
  apply bind_not_raising.
  - apply for_each_not_raising. intros i s. unfold crossover_body.
    repeat (apply bind_not_raising;
            [first [apply iloc_not_invalid | apply to_scalar_not_invalid]
            | intros ?]).
    apply trade_not_invalid.
  - intros st. apply bind_not_raising.
    + unfold iloc_last. destruct (close_col data);
        [discriminate | apply iloc_not_invalid].
    + intros last. apply bind_not_raising;
        [apply to_scalar_not_invalid | discriminate].
Qed.

(** C5, amended. The simulator does not validate prices and never raises
    InvalidPriceError.  A zero close on a day on which it buys makes it
    fail with ZeroDivisionError, so no infinite share count is produced;
    for valid inputs (a series that is not empty, all closes positive) no
    error is raised and every logged share count is non-negative. *)
Theorem zero_close_raises_ZeroDivisionError :
  (forall data, ma_crossover_strategy data <> Raise InvalidPriceError) /\
  (forall data i r p st,
     (200 <= i)%nat ->
     for_each (range 200 i) (crossover_body data) initial_position = Ok st ->
     nth_error data i = Some r -> to_scalar (Close r) = Ok p -> p == 0 ->
     Signal r = 1%Z -> in_market st = false ->
     ma_crossover_strategy data = Raise ZeroDivisionError) /\
  (forall data, data <> [] -> all_closes_positive data ->
     exists res, ma_crossover_strategy data = Ok res /\
                 shares_nonneg (ma_transactions res)).
Proof.
  split; [exact ma_crossover_strategy_not_invalid|]. split.
  - intros data i r p st Hi Hpre Hr Hp Hz Hsig Hm.
    unfold ma_crossover_strategy.
    now rewrite (crossover_loop_zero_close data i r p st).
  - intros data Hne Hall.
    destruct (ma_crossover_strategy_total data Hne Hall) as [res Hres].
    exists res. split; [exact Hres|].
    destruct (crossover_loop_valid data Hall) as [st [Hst [_ Hlog]]].
    unfold ma_crossover_strategy in Hres. rewrite Hst in Hres. simpl in Hres.
    apply bind_Ok_inv in Hres. destruct Hres as [last [_ Hres]].
    apply bind_Ok_inv in Hres. destruct Hres as [p [_ Hres]].
    injection Hres as <-. exact Hlog.
Qed.

Lemma zero_close_raises_ZeroDivisionError_witness :
  ma_crossover_strategy zero_close_frame = Raise ZeroDivisionError /\
  exists res, ma_crossover_strategy sample = Ok res /\
              shares_nonneg (ma_transactions res).
Proof.
  destruct zero_close_raises_ZeroDivisionError as [_ [Hzero Hvalid]].
  split.
  - apply (Hzero zero_close_frame 200%nat (mkRow 200 (PyFloat 0) 1) 0
             initial_position).
    + lia.
    + reflexivity.
    + vm_compute. reflexivity.
    + reflexivity.
    + reflexivity.
    + reflexivity.
    + reflexivity.
  - apply Hvalid; [discriminate|].
    apply all_closes_positive_forallb. vm_compute. reflexivity.
Defined.

(** ** Label-based access on an index without duplicates *)

Lemma zip_with_nth_error {A B C} (f : A -> B -> C) (l : list A) (l' : list B)
    (i : nat) :
  nth_error (zip_with f l l') i =
  match nth_error l i, nth_error l' i with
  | Some a, Some b => Some (f a b)
  | _, _ => None
  end.
Proof.
  unfold zip_with. revert l' i.
  induction l as [|a l IH]; intros [|b l'] [|i]; simpl; try reflexivity.
  - now destruct (nth_error l i).
  - apply IH.
Qed.

Lemma filter_label_absent (data : DataFrame) (label : Z) :
  ~ In label (index data) ->
  filter (fun r => (date r =? label)%Z) data = [].
Proof.
  induction data as [|x l IH]; intros Hn; simpl; [reflexivity|].
  simpl in Hn. destruct (Z.eqb_spec (date x) label) as [E|_]; [tauto|].
  apply IH. tauto.
Qed.

Lemma filter_label_unique (data : DataFrame) (i : nat) (r : Row) :
  NoDup (index data) -> nth_error data i = Some r ->
  filter (fun r' => (date r' =? date r)%Z) data = [r].
Proof.
  revert i. induction data as [|x l IH]; intros i Hnd Hr;
    [destruct i; discriminate|].
  simpl in Hnd. apply NoDup_cons_iff in Hnd. destruct Hnd as [Hx Hnd].
  destruct i as [|i]; simpl in Hr.
  - injection Hr as ->. simpl. rewrite Z.eqb_refl.
    now rewrite filter_label_absent.
  - simpl. destruct (Z.eqb_spec (date x) (date r)) as [E|_].
    + exfalso. apply Hx. rewrite E. unfold index. apply in_map.
      eapply nth_error_In; eauto.
    + eapply IH; eauto.
Qed.

Lemma loc_get_unique (column : Row -> pyvalue) (data : DataFrame) (i : nat)
    (r : Row) :
  NoDup (index data) -> nth_error data i = Some r ->
  loc_get column data (date r) = Ok (column r).
Proof.
  intros Hnd Hr. unfold loc_get.
  now rewrite (filter_label_unique data i r Hnd Hr).
Qed.

Lemma loc_set_length (data : DataFrame) (label : Z) (v : Q)
    (col : list (option Q)) :
  length col = length data -> length (loc_set data label v col) = length data.
Proof.
  intros H. unfold loc_set. rewrite zip_with_length; congruence.
Qed.

Lemma loc_set_nth_error_same (data : DataFrame) (i : nat) (r : Row) (v : Q)
    (col : list (option Q)) :
  length col = length data -> nth_error data i = Some r ->
  nth_error (loc_set data (date r) v col) i = Some (Some v).
Proof.
  intros Hlen Hr. unfold loc_set. rewrite zip_with_nth_error, Hr.
  assert (Hi : (i < length col)%nat)
    by (rewrite Hlen; apply nth_error_Some; congruence).
  destruct (nth_error col i) eqn:E; [|apply nth_error_None in E; lia].
  now rewrite Z.eqb_refl.
Qed.

Lemma Qeq_bool_inject_Z (z k : Z) : Qeq_bool (inject_Z z) (inject_Z k) = (z =? k)%Z.
Proof.
  unfold Qeq_bool, inject_Z. simpl. now rewrite !Z.mul_1_r.
Qed.

(** ** The two replays of the signals *)

Section Replays.
Variable data : DataFrame.
Hypothesis valid : all_closes_positive data.

Lemma row_at (i : nat) :
  (i < length data)%nat ->
  exists r p, nth_error data i = Some r /\ to_scalar (Close r) = Ok p /\ 0 < p.
Proof.
  intros Hi. destruct (iloc_lt data i Hi) as [r [_ Hr]].
  destruct (positive_close_nth data i r valid Hr) as [p [Hp Hpos]]. eauto.
Qed.

Lemma trade_signal (d : Z) (p : Q) (r : Row) (st : Position) :
  trade d p (inject_Z (Signal r)) st =
  if (Signal r =? 1)%Z && negb (in_market st) then
    sh <- py_div (cash st) p ;;
    Ok {| cash := 0; shares := sh; in_market := true;
          transactions := transactions st ++
            [ {| tx_date := d; tx_action := BUY; tx_price := p;
                 tx_shares := sh; tx_value := sh * p |} ] |}
  else if (Signal r =? -1)%Z && in_market st then
    Ok {| cash := shares st * p; shares := 0; in_market := false;
          transactions := transactions st ++
            [ {| tx_date := d; tx_action := SELL; tx_price := p;
                 tx_shares := 0; tx_value := shares st * p |} ] |}
  else Ok st.
Proof.
  unfold trade.
  change 1 with (inject_Z 1). change (-1) with (inject_Z (-1)).
  now rewrite !Qeq_bool_inject_Z.
Qed.

Lemma lagged_step_matches (i : nat) (r : Row) (p : Q) (sim : SimState)
    (st : Position) :
  nth_error data i = Some r -> to_scalar (Close r) = Ok p -> 0 < p ->
  sim_matches sim st ->
  exists sim' st',
    lagged_step data (S i) sim = Ok sim' /\
    crossover_body data i st = Ok st' /\ sim_matches sim' st'.
Proof.
  intros Hr Hp Hpos [Hlog Hst].
  rewrite (crossover_body_row data i r st Hr), Hp. cbn [bind].
  rewrite trade_signal.
  unfold lagged_step, signal_at, valid_close, index.
  replace (S i - 1)%nat with i by lia.
  rewrite iloc_map. apply iloc_Ok_nth in Hr. rewrite Hr. cbn [bind].
  rewrite Hp. replace (Qgtb p 0) with true by (symmetry; now apply Qgtb_iff).
  destruct (sim_state sim) eqn:Hs; destruct Hst as [Hm Heq]; rewrite Hm;
    cbn [negb]; rewrite ?andb_true_r, ?andb_false_r;
    destruct (Signal r =? 1)%Z eqn:E1; cbn [andb bind];
    try (destruct (Signal r =? -1)%Z eqn:E2; cbn [andb bind]);
    try (apply Z.eqb_eq in E1; apply Z.eqb_eq in E2; congruence);
    try rewrite (py_div_pos _ _ Hpos); cbn [bind];
    do 2 eexists; (split; [reflexivity|]); (split; [reflexivity|]);
    unfold sim_matches; cbn; rewrite ?Hs, ?Hlog, ?Heq; auto.
Qed.

Lemma lagged_prefix (k : nat) :
  (200 + k <= length data)%nat ->
  exists sim st,
    for_each (range 201 (201 + k)) (lagged_step data) sim_start = Ok sim /\
    for_each (range 200 (200 + k)) (crossover_body data) initial_position
      = Ok st /\
    sim_matches sim st.
Proof.
  induction k as [|k IH]; intros Hk.
  - exists sim_start, initial_position.
    rewrite !range_empty by lia. repeat split; reflexivity.
  - destruct (IH ltac:(lia)) as [sim [st [Hsim [Hst Hm]]]].
    destruct (row_at (200 + k) ltac:(lia)) as [r [p [Hr [Hp Hpos]]]].
    destruct (lagged_step_matches (200 + k) r p sim st Hr Hp Hpos Hm)
      as [sim' [st' [Hsim' [Hst' Hm']]]].
    exists sim', st'.
    replace (201 + S k)%nat with (S (201 + k)) by lia.
    replace (200 + S k)%nat with (S (200 + k)) by lia.
    rewrite !range_snoc, !for_each_app, Hsim, Hst by lia.
    cbn [bind for_each].
    change (201 + k)%nat with (S (200 + k)).
    rewrite Hsim', Hst'. repeat split; auto; apply Hm'.
Qed.
End Replays.

Lemma trade_preserves_value (d : Z) (p signal : Q) (st st' : Position) :
  0 < p -> trade d p signal st = Ok st' ->
  final_value_by_flag st' p == final_value_by_flag st p.
Proof.
  intros Hp. unfold trade, final_value_by_flag.
  destruct (Qeq_bool signal 1 && negb (in_market st)) eqn:Hbuy.
  - apply andb_true_iff in Hbuy. destruct Hbuy as [_ Hm].
    apply negb_true_iff in Hm. rewrite Hm, (py_div_pos _ _ Hp).
    intros [= <-]. cbn. field. intros E. rewrite E in Hp.
    revert Hp. apply Qlt_irrefl.
  - destruct (Qeq_bool signal (-1) && in_market st) eqn:Hsell.
    + apply andb_true_iff in Hsell. destruct Hsell as [_ Hm]. rewrite Hm.
      intros [= <-]. cbn. reflexivity.
    + intros [= <-]. reflexivity.
Qed.

Section EquityCurve.
Variable data : DataFrame.
Hypothesis valid : all_closes_positive data.
Hypothesis unique_dates : NoDup (index data).

Lemma replay_body_matches (i : nat) (r r' : Row) (p p' : Q) (rp : Replay)
    (st : Position) :
  nth_error data i = Some r -> nth_error data (S i) = Some r' ->
  to_scalar (Close r) = Ok p -> 0 < p -> to_scalar (Close r') = Ok p' ->
  replay_matches rp st -> length (ma_values rp) = length data ->
  exists rp' st',
    replay_body data (S i) rp = Ok rp' /\
    crossover_body data i st = Ok st' /\
    replay_matches rp' st' /\
    length (ma_values rp') = length data /\
    nth_error (ma_values rp') (S i) = Some (Some (final_value_by_flag st' p')).
Proof.
  intros Hr Hr' Hp Hpos Hp' [Hm Heq] Hlen.
  rewrite (crossover_body_row data i r st Hr), Hp. cbn [bind].
  rewrite trade_signal.
  unfold replay_body, index.
  replace (S i - 1)%nat with i by lia.
  rewrite !iloc_map.
  rewrite (proj2 (iloc_Ok_nth data i r) Hr),
          (proj2 (iloc_Ok_nth data (S i) r') Hr').
  cbn [bind].
  rewrite (loc_get_unique (fun x => PyInt (Signal x)) data i r unique_dates Hr).
  cbn [bind]. rewrite to_scalar_int. cbn [bind].
  rewrite (loc_get_unique Close data i r unique_dates Hr). cbn [bind].
  rewrite Hp. cbn [bind].
  rewrite (loc_get_unique Close data (S i) r' unique_dates Hr'). cbn [bind].
  rewrite Hp'. cbn [bind].
  change 1 with (inject_Z 1). change (-1) with (inject_Z (-1)).
  rewrite !Qeq_bool_inject_Z. rewrite Hm.
  unfold final_value_by_flag.
  destruct (in_market st) eqn:Hin; cbn [negb];
    rewrite ?andb_true_r, ?andb_false_r;
    destruct (Signal r =? 1)%Z eqn:E1; cbn [andb bind];
    try (destruct (Signal r =? -1)%Z eqn:E2; cbn [andb bind]);
    rewrite ?Heq; try rewrite (py_div_pos _ _ Hpos); cbn [bind];
    do 2 eexists; (split; [reflexivity|]); (split; [reflexivity|]);
    cbn [current_value rp_in_market rp_shares ma_values
         cash shares in_market];
    unfold replay_matches; cbn [current_value rp_in_market rp_shares
                                 cash shares in_market];
    rewrite ?Hin, ?Hm;
    (split; [auto|]);
    (split; [now apply loc_set_length|]);
    rewrite ?Heq; now apply loc_set_nth_error_same.
Qed.

Lemma replay_prefix (r200 : Row) (k : nat) :
  nth_error data 200 = Some r200 -> (200 + k < length data)%nat ->
  exists rp st r p,
    for_each (range 201 (201 + k)) (replay_body data)
             (replay_start data (date r200)) = Ok rp /\
    for_each (range 200 (200 + k)) (crossover_body data) initial_position
      = Ok st /\
    replay_matches rp st /\
    length (ma_values rp) = length data /\
    nth_error data (200 + k) = Some r /\ to_scalar (Close r) = Ok p /\
    nth_error (ma_values rp) (200 + k) = Some (Some (final_value_by_flag st p)).
Proof.
  intros H200. induction k as [|k IH]; intros Hk.
  - destruct (row_at data valid 200 ltac:(lia)) as [r [p [Hr [Hp Hpos]]]].
    assert (r = r200) by congruence. subst r200.
    exists (replay_start data (date r)), initial_position, r, p.
    rewrite !range_empty by lia.
    assert (Hlen : length (ma_values (replay_start data (date r)))
                   = length data).
    { cbn [replay_start ma_values]. apply loc_set_length, repeat_length. }
    repeat split; try assumption; try reflexivity.
    cbn [replay_start ma_values]. rewrite Nat.add_0_r.
    apply loc_set_nth_error_same; [apply repeat_length | exact Hr].
  - destruct (IH ltac:(lia))
      as [rp [st [r [p [Hrp [Hst [Hm [Hlen [Hr [Hp _]]]]]]]]]].
    destruct (row_at data valid (S (200 + k)) ltac:(lia))
      as [r' [p' [Hr' [Hp' _]]]].
    assert (Hpos : 0 < p).
    { destruct (positive_close_nth data _ r valid Hr) as [q [Hq Hqpos]].
      congruence. }
    destruct (replay_body_matches (200 + k) r r' p p' rp st
                Hr Hr' Hp Hpos Hp' Hm Hlen)
      as [rp' [st' [Hrp' [Hst' [Hm' [Hlen' Hnth]]]]]].
    exists rp', st', r', p'.
    replace (201 + S k)%nat with (S (201 + k)) by lia.
    replace (200 + S k)%nat with (S (200 + k)) by lia.
    rewrite !range_snoc, !for_each_app, Hrp, Hst by lia.
    cbn [bind for_each].
    change (201 + k)%nat with (S (200 + k)).
    rewrite Hrp', Hst'. repeat split; auto; apply Hm'.
Qed.

Lemma bh_values_loop_total (bh : Q) :
  exists col, bh_values_loop data bh = Ok col.
Proof.
  destruct (for_each_total (fun _ => True) (range 0 (length data))
              (bh_body data bh) []) as [col [Hcol _]]; [| exact I | eauto].
  intros i acc Hi _. apply in_range in Hi. unfold bh_body.
  destruct (i <? 200)%nat; [eauto|].
  destruct (row_at data valid i ltac:(lia)) as [r [p [Hr [Hp _]]]].
  unfold close_col. rewrite iloc_map, (proj2 (iloc_Ok_nth data i r) Hr).
  cbn [bind]. rewrite Hp. cbn [bind]. eauto.
Qed.
End EquityCurve.

Lemma nodupb_NoDup (l : list Z) : nodupb l = true -> NoDup l.
Proof.
  induction l as [|x l IH]; simpl; intros H; constructor.
  - apply andb_true_iff in H. destruct H as [Hx _].
    apply negb_true_iff in Hx. intros Hin.
    assert (existsb (Z.eqb x) l = true)
      by (apply existsb_exists; exists x; split; [exact Hin | apply Z.eqb_refl]).
    congruence.
  - apply andb_true_iff in H. apply IH, H.
Qed.

Lemma crossover_loop_last_step (data : DataFrame) (st : Position) :
  (200 < length data)%nat ->
  for_each (range 200 (length data - 1)) (crossover_body data) initial_position
    = Ok st ->
  crossover_loop data = crossover_body data (length data - 1) st.
Proof.
  intros Hlen Hst. unfold crossover_loop.
  replace (length data) with (S (length data - 1)) at 1 by lia.
  rewrite range_snoc, for_each_app, Hst by lia. cbn [bind for_each].
  now destruct (crossover_body data (length data - 1) st).
Qed.

(** C2, the statement of the specification fails on the doubles the code
    computes with: 201 days at the close 4980.38 with a Buy signal on the
    last day.  [prepare_strategy_data] acts on the signal of the day before
    and leaves 10000.0 at the last index of MA_Value;
    [ma_crossover_strategy] buys on the last day and values the shares at
    the same close: (10000.0 / 4980.38) * 4980.38 = 10000.000000000002. *)
Lemma last_day_buy_is_rounded :
  (200 < length Double.buy_on_last_day)%nat /\
  Double.all_closes_positive Double.buy_on_last_day /\
  NoDup (Double.index Double.buy_on_last_day) /\
  (exists cv res,
     Double.prepare_strategy_data Double.buy_on_last_day 2 = Ok cv /\
     iloc_last (Double.MA_Value cv) = Ok (Some 10000%float) /\
     Double.ma_crossover_strategy Double.buy_on_last_day = Ok res /\
     Double.ma_final_value res = 0x1.3880000000001p+13%float /\
     PrimFloat.eqb 10000 (Double.ma_final_value res) = false) /\
  ~ Double.curve_end_is_final_value.
Proof.
  assert (Hlen : (200 < length Double.buy_on_last_day)%nat)
    by (vm_compute; lia).
  assert (Hall : Double.all_closes_positive Double.buy_on_last_day)
    by (vm_compute; reflexivity).
  assert (Hnd : NoDup (Double.index Double.buy_on_last_day))
    by (apply nodupb_NoDup; vm_compute; reflexivity).
  split; [exact Hlen|]. split; [exact Hall|]. split; [exact Hnd|]. split.
  - do 2 eexists. split; [vm_compute; reflexivity|].
    split; [vm_compute; reflexivity|].
    split; [vm_compute; reflexivity|].
    split; vm_compute; reflexivity.
  - intros H.
    destruct (H Double.buy_on_last_day 2%float Hlen Hall Hnd)
      as [cv [v [res [Hcv [Hv [Hres Heq]]]]]].
    vm_compute in Hcv. injection Hcv as <-.
    vm_compute in Hv. injection Hv as <-.
    vm_compute in Hres. injection Hres as <-.
    vm_compute in Heq. discriminate Heq.
Qed.

Lemma crossover_final_value_cases (data : DataFrame) (st : Position)
    (rl : Row) (pl : Q) :
  (200 < length data)%nat -> all_closes_positive data ->
  for_each (range 200 (length data - 1)) (crossover_body data)
           initial_position = Ok st ->
  nth_error data (length data - 1) = Some rl -> to_scalar (Close rl) = Ok pl ->
  exists res,
    ma_crossover_strategy data = Ok res /\
    if (Signal rl =? 1)%Z && negb (in_market st)
    then ma_final_value res = final_value_by_flag st pl / pl * pl
    else final_value_by_flag st pl == ma_final_value res.
Proof.
  intros Hlen Hall Hst Hl Hpl.
  destruct (crossover_prefix_position_inv data (length data - 201) Hall
              ltac:(lia)) as [st0 [Hst0 Hinv]].
  replace (200 + (length data - 201))%nat with (length data - 1)%nat
    in Hst0 by lia.
  assert (st0 = st) by congruence. subst st0.
  assert (Hpos : 0 < pl).
  { destruct (positive_close_nth data _ rl Hall Hl) as [q [Hq Hqpos]].
    congruence. }
  destruct (trade_position_inv (date rl) pl (inject_Z (Signal rl)) st Hpos Hinv)
    as [st' [Hst' Hinv']].
  assert (Hres : ma_crossover_strategy data =
                 Ok {| ma_initial_investment := initial_investment;
                       ma_final_value :=
                         final_value_rule (cash st') (shares st') pl;
                       ma_return_percentage :=
                         (final_value_rule (cash st') (shares st') pl
                          - initial_investment) / initial_investment * 100;
                       ma_transactions := transactions st' |}).
  { unfold ma_crossover_strategy.
    rewrite (crossover_loop_last_step data st Hlen Hst).
    rewrite (crossover_body_row data _ rl st Hl), Hpl. cbn [bind].
    rewrite Hst'. cbn [bind].
    rewrite iloc_last_eq
      by (unfold close_col; destruct data; simpl in *; [lia | congruence]).
    unfold close_col. rewrite length_map, iloc_map.
    rewrite (proj2 (iloc_Ok_nth data _ rl) Hl). cbn [bind].
    rewrite Hpl. reflexivity. }
  eexists. split; [exact Hres|]. cbn [ma_final_value].
  destruct ((Signal rl =? 1)%Z && negb (in_market st)) eqn:Hbuy.
  - apply andb_true_iff in Hbuy. destruct Hbuy as [Hs Hm].
    apply negb_true_iff in Hm.
    unfold trade in Hst'.
    change 1 with (inject_Z 1) in Hst'.
    rewrite Qeq_bool_inject_Z, Hs, Hm in Hst'. cbn [andb negb] in Hst'.
    rewrite (py_div_pos _ _ Hpos) in Hst'. injection Hst' as <-.
    unfold final_value_by_flag. rewrite Hm. reflexivity.
  - rewrite (final_value_rule_by_flag st' pl Hinv'). symmetry.
    exact (trade_preserves_value (date rl) pl (inject_Z (Signal rl)) st st'
             Hpos Hst').
Qed.

(** C2, amended. For a series of more than 200 days with positive closes
    (and, as for every price series, dates without duplicates) both
    implementations return, and the value [v] at the last index of the
    MA_Value curve of [prepare_strategy_data] is the position held before
    the last day, marked at the last close [p].  The [final_value] of
    [ma_crossover_strategy] equals [v] unless the last day carries a Buy
    signal while that position is out of the market: then
    [ma_crossover_strategy] buys on the last day and its [final_value] is
    [(v / p) * p] as floating point computes it, which rounding can move
    away from [v]. *)
Theorem equity_curve_end_and_final_value (data : DataFrame) (bh : Q) :
  (200 < length data)%nat -> all_closes_positive data -> NoDup (index data) ->
  exists curves v res st r p,
    prepare_strategy_data data bh = Ok curves /\
    iloc_last (MA_Value curves) = Ok (Some v) /\
    ma_crossover_strategy data = Ok res /\
    for_each (range 200 (length data - 1)) (crossover_body data)
             initial_position = Ok st /\
    nth_error data (length data - 1) = Some r /\
    to_scalar (Close r) = Ok p /\
    v = final_value_by_flag st p /\
    if (Signal r =? 1)%Z && negb (in_market st)
    then ma_final_value res = v / p * p
    else v == ma_final_value res.
Proof.
  intros Hlen Hall Hnd.
  destruct (row_at data Hall 200 ltac:(lia)) as [r200 [p200 [H200 _]]].
  destruct (replay_prefix data Hall Hnd r200 (length data - 201) H200
              ltac:(lia))
    as [rp [st [r [p [Hrp [Hst [Hm [Hcol [Hr [Hp Hv]]]]]]]]]].
  replace (201 + (length data - 201))%nat with (length data) in Hrp by lia.
  replace (200 + (length data - 201))%nat with (length data - 1)%nat
    in Hst, Hr, Hv by lia.
  destruct (bh_values_loop_total data Hall bh) as [col Hbh].
  destruct (crossover_final_value_cases data st r p Hlen Hall Hst Hr Hp)
    as [res [Hres Hfinal]].
  exists {| BH_Value := col; MA_Value := ma_values rp |},
         (final_value_by_flag st p), res, st, r, p.
  split; [|split; [|repeat (split; [first [assumption | reflexivity]|]);
                    exact Hfinal]].
  - unfold prepare_strategy_data. rewrite Hbh. cbn [bind].
    unfold index. rewrite iloc_map, (proj2 (iloc_Ok_nth data 200 r200) H200).
    cbn [bind]. fold (index data). rewrite Hrp. reflexivity.
  - cbn [MA_Value].
    rewrite iloc_last_eq by (intros E; rewrite E in Hcol; simpl in Hcol; lia).
    rewrite Hcol. now apply iloc_Ok_nth.
Qed.

Lemma equity_curve_end_and_final_value_witness :
  (exists curves v res,
     prepare_strategy_data sample 1 = Ok curves /\
     iloc_last (MA_Value curves) = Ok (Some v) /\
     ma_crossover_strategy sample = Ok res /\
     v == ma_final_value res) /\
  (exists curves v res,
     prepare_strategy_data buy_on_last_day 1 = Ok curves /\
     iloc_last (MA_Value curves) = Ok (Some v) /\
     ma_crossover_strategy buy_on_last_day = Ok res /\
     ma_final_value res = v / 100 * 100).
Proof.
  split.
  - destruct (equity_curve_end_and_final_value sample 1)
      as [cv [v [res [st [r [p [Hcv [Hv [Hres [Hst [Hr [Hp [_ Hcase]]]]]]]]]]]]].
    + vm_compute. lia.
    + apply all_closes_positive_forallb. vm_compute. reflexivity.
    + apply nodupb_NoDup. vm_compute. reflexivity.
    + exists cv, v, res. repeat (split; [assumption|]).
      vm_compute in Hr. injection Hr as <-.
      vm_compute in Hst. injection Hst as <-.
      exact Hcase.
  - destruct (equity_curve_end_and_final_value buy_on_last_day 1)
      as [cv [v [res [st [r [p [Hcv [Hv [Hres [Hst [Hr [Hp [_ Hcase]]]]]]]]]]]]].
    + vm_compute. lia.
    + apply all_closes_positive_forallb. vm_compute. reflexivity.
    + apply nodupb_NoDup. vm_compute. reflexivity.
    + exists cv, v, res. repeat (split; [assumption|]).
      vm_compute in Hr. injection Hr as <-.
      vm_compute in Hp. injection Hp as <-.
      vm_compute in Hst. injection Hst as <-.
      exact Hcase.
Defined.

(** C1, the statement of the specification fails: with a Buy signal on the
    last day (index 200 of 201) [ma_crossover_strategy] buys on that day, at
    its close, and logs a BUY dated 200, while the scan that starts one past
    the boundary and acts on the signal of the day before has no index left
    and logs nothing. *)
Lemma same_day_trade_on_last_index :
  (exists st t,
     crossover_loop buy_on_last_day = Ok st /\
     transactions st = [t] /\ tx_action t = BUY /\ tx_date t = 200%Z /\
     tx_price t = 100 /\ in_market st = true) /\
  lagged_crossover buy_on_last_day = Ok sim_start /\
  ~ lagged_execution.
Proof.
  assert (Hlag : lagged_crossover buy_on_last_day = Ok sim_start)
    by (vm_compute; reflexivity).
  split; [|split; [exact Hlag|]].
  - eexists. eexists. split; [vm_compute; reflexivity|].
    repeat split; reflexivity.
  - intros claim.
    destruct (claim buy_on_last_day) as [st [sim [Hst [Hsim [Hlog _]]]]].
    + vm_compute. lia.
    + apply all_closes_positive_forallb. vm_compute. reflexivity.
    + rewrite Hlag in Hsim. injection Hsim as <-.
      vm_compute in Hst. injection Hst as <-. discriminate.
Qed.

(** C1, amended. For a series of more than 200 days with positive closes,
    the transitions of the specification (at each index [i] from 201 to the
    last index, on the signal of [i-1] and at the close of [i-1]: a Buy
    while FLAT converts all cash to shares and logs a Buy dated [i-1],
    symmetrically for a Sell, otherwise nothing changes) are exactly what
    the loop of [ma_crossover_strategy] has done after its iterations for
    the indices 200 to [len-2], and, when the dates have no duplicates, the
    position [prepare_strategy_data] holds after its loop.  The loop of
    [ma_crossover_strategy] itself starts at the boundary index 200 and acts
    at each index on the signal and the close of that same index, so it ends
    with one more iteration: it acts on the signal of the last index at the
    last close. *)
Theorem crossover_acts_on_same_day_signal (data : DataFrame) :
  (200 < length data)%nat -> all_closes_positive data ->
  exists sim st st' r p,
    lagged_crossover data = Ok sim /\
    for_each (range 200 (length data - 1)) (crossover_body data)
             initial_position = Ok st /\
    sim_matches sim st /\
    nth_error data (length data - 1) = Some r /\
    to_scalar (Close r) = Ok p /\
    trade (date r) p (inject_Z (Signal r)) st = Ok st' /\
    crossover_loop data = Ok st' /\
    (NoDup (index data) ->
     exists start rp,
       iloc (index data) 200 = Ok start /\
       for_each (range 201 (length data)) (replay_body data)
                (replay_start data start) = Ok rp /\
       replay_matches rp st).
Proof.
  intros Hlen Hall.
  destruct (lagged_prefix data Hall (length data - 201) ltac:(lia))
    as [sim [st [Hsim [Hst Hmatch]]]].
  replace (201 + (length data - 201))%nat with (length data) in Hsim by lia.
  replace (200 + (length data - 201))%nat with (length data - 1)%nat
    in Hst by lia.
  destruct (row_at data Hall (length data - 1) ltac:(lia))
    as [r [p [Hr [Hp Hpos]]]].
  destruct (crossover_prefix_position_inv data (length data - 201) Hall
              ltac:(lia)) as [st0 [Hst0 Hinv]].
  replace (200 + (length data - 201))%nat with (length data - 1)%nat
    in Hst0 by lia.
  assert (st0 = st) by congruence. subst st0.
  destruct (trade_position_inv (date r) p (inject_Z (Signal r)) st Hpos Hinv)
    as [st' [Hst' _]].
  exists sim, st, st', r, p.
  split; [exact Hsim|]. split; [exact Hst|]. split; [exact Hmatch|].
  split; [exact Hr|]. split; [exact Hp|]. split; [exact Hst'|]. split.
  - rewrite (crossover_loop_last_step data st Hlen Hst).
    rewrite (crossover_body_row data _ r st Hr), Hp. exact Hst'.
  - intros Hnd.
    destruct (row_at data Hall 200 ltac:(lia)) as [r200 [p200 [H200 _]]].
    destruct (replay_prefix data Hall Hnd r200 (length data - 201) H200
                ltac:(lia))
      as [rp [st1 [_ [_ [Hrp [Hst1 [Hm _]]]]]]].
    replace (201 + (length data - 201))%nat with (length data) in Hrp by lia.
    replace (200 + (length data - 201))%nat with (length data - 1)%nat
      in Hst1 by lia.
    assert (st1 = st) by congruence. subst st1.
    exists (date r200), rp. split; [|split; assumption].
    unfold index. rewrite iloc_map.
    now rewrite (proj2 (iloc_Ok_nth data 200 r200) H200).
Qed.

Lemma crossover_acts_on_same_day_signal_witness :
  exists sim st st',
    lagged_crossover sample = Ok sim /\
    for_each (range 200 (length sample - 1)) (crossover_body sample)
             initial_position = Ok st /\
    sim_matches sim st /\
    crossover_loop sample = Ok st'.
Proof.
  assert (Hlen : (200 < length sample)%nat) by (vm_compute; lia).
  assert (Hall : all_closes_positive sample)
    by (apply all_closes_positive_forallb; vm_compute; reflexivity).
  destruct (crossover_acts_on_same_day_signal sample Hlen Hall)
    as [sim [st [st' [r [p [Hsim [Hst [Hm [_ [_ [_ [Hloop _]]]]]]]]]]]].
  exists sim, st, st'. repeat split; try assumption; apply Hm.
Defined.

(** * Further properties of the code *)

(** ** [to_scalar] *)

(** X1. The [empty] test of [to_scalar] guards [iloc[0]]: IndexError never
    escapes, and every Series converts, an empty one to 0.0 and any other
    to its first element. *)
Theorem to_scalar_guards_first_element :
  (forall value, to_scalar value <> Raise IndexError) /\
  (forall xs, to_scalar (PySeries xs) = Ok (hd 0 xs)).
Proof.
  split.
  - intros value.
    destruct value as [z|x|[|x [|y xs]]|[|[|x [|y r]] rows]]; discriminate.
  - intros [|x xs]; reflexivity.
Qed.

(** ** Moving averages *)

Lemma roll_mean_prefix (window : nat) (xs later : list Q) (todo : list Q) :
  forall (i : nat) (s : MeanState) (rest : list Q),
    (i + length todo <= length xs)%nat ->
    firstn (length todo) (roll_mean window (xs ++ later) i (todo ++ rest) s)
    = roll_mean window xs i todo s.
Proof.
  induction todo as [|v todo IH]; intros i s rest Hi; [reflexivity|].
  cbn [app roll_mean length firstn]. simpl in Hi.
  rewrite (app_nth1 xs later 0) by lia.
  f_equal. apply IH. lia.
Qed.

Lemma rolling_mean_prefix (window : nat) (xs later : list Q) :
  firstn (length xs) (rolling_mean window (xs ++ later))
  = rolling_mean window xs.
Proof. unfold rolling_mean. apply roll_mean_prefix. simpl. lia. Qed.

(** X2. The moving averages are causal: closes appended after the series do
    not change any average already computed. *)
Theorem calculate_moving_averages_causal (close later : list Q) :
  firstn (length close) (MA50 (calculate_moving_averages (close ++ later)))
  = MA50 (calculate_moving_averages close) /\
  firstn (length close) (MA200 (calculate_moving_averages (close ++ later)))
  = MA200 (calculate_moving_averages close).
Proof. split; apply rolling_mean_prefix. Qed.

Lemma Qsum_bounds (lo hi : Q) (l : list Q) :
  Forall (fun c => lo <= c /\ c <= hi) l ->
  inject_Z (Z.of_nat (length l)) * lo <= Qsum l /\
  Qsum l <= inject_Z (Z.of_nat (length l)) * hi.
Proof.
  induction 1 as [|c l [Hlo Hhi] _ [IHlo IHhi]].
  - simpl. split; rewrite Qmult_0_l; apply Qle_refl.
  - cbn [length Qsum fold_right]. fold (Qsum l).
    rewrite Nat2Z.inj_succ, <- Z.add_1_r, inject_Z_plus.
    split.
    + setoid_replace ((inject_Z (Z.of_nat (length l)) + inject_Z 1) * lo)
        with (lo + inject_Z (Z.of_nat (length l)) * lo) by ring.
      now apply Qplus_le_compat.
    + setoid_replace ((inject_Z (Z.of_nat (length l)) + inject_Z 1) * hi)
        with (hi + inject_Z (Z.of_nat (length l)) * hi) by ring.
      now apply Qplus_le_compat.
Qed.

Lemma Forall_firstn_skipn {A} (P : A -> Prop) (l : list A) (a n : nat) :
  Forall P l -> Forall P (firstn n (skipn a l)).
Proof.
  intros H.
  rewrite <- (firstn_skipn a l) in H. apply Forall_app in H.
  destruct H as [_ H].
  rewrite <- (firstn_skipn n (skipn a l)) in H. apply Forall_app in H.
  apply H.
Qed.

Lemma trailing_mean_bounds (window : nat) (close : list Q) (lo hi : Q)
    (i : nat) (x : Q) :
  (0 < window)%nat -> (i < length close)%nat ->
  Forall (fun c => lo <= c /\ c <= hi) close ->
  trailing_mean window close i = Some x -> lo <= x /\ x <= hi.
Proof.
  intros Hw Hi Hall. unfold trailing_mean.
  destruct (Nat.ltb_spec i (window - 1)) as [_|Hge]; [discriminate|].
  intros [= <-].
  set (win := firstn window (skipn (i + 1 - window) close)).
  assert (Hlen : length win = window).
  { unfold win. rewrite length_firstn, length_skipn. lia. }
  destruct (Qsum_bounds lo hi win) as [Hlo Hhi];
    [now apply Forall_firstn_skipn|].
  rewrite Hlen in Hlo, Hhi.
  assert (Hpos : 0 < inject_Z (Z.of_nat window)).
  { unfold Qlt. simpl. lia. }
  split.
  - apply Qle_shift_div_l; [exact Hpos|]. now rewrite Qmult_comm.
  - apply Qle_shift_div_r; [exact Hpos|]. now rewrite Qmult_comm.
Qed.

Lemma rolling_mean_bounds (window : nat) (close : list Q) (lo hi : Q)
    (i : nat) (x : Q) :
  (0 < window)%nat ->
  Forall (fun c => lo <= c /\ c <= hi) close ->
  nth_error (rolling_mean window close) i = Some (Some x) ->
  lo <= x /\ x <= hi.
Proof.
  intros Hw Hall Hx.
  assert (Hi : (i < length close)%nat).
  { rewrite <- (rolling_mean_length window close).
    apply nth_error_Some. congruence. }
  assert (H := rolling_mean_trailing window close Hw i Hi).
  rewrite (nth_error_nth _ _ None Hx) in H.
  destruct (trailing_mean window close i) as [y|] eqn:Hy; [|destruct H].
  simpl in H. rewrite H.
  exact (trailing_mean_bounds window close lo hi i y Hw Hi Hall Hy).
Qed.

Lemma Forall_forallb {A} (P : A -> Prop) (f : A -> bool) (l : list A) :
  (forall a, f a = true -> P a) -> forallb f l = true -> Forall P l.
Proof.
  intros Hf H. apply Forall_forall. intros a Ha.
  apply Hf. exact (proj1 (forallb_forall f l) H a Ha).
Qed.

(** ** Signals *)

Lemma above_not_at_most (a b : option Q) : above a b -> at_most a b -> False.
Proof.
  destruct a as [x|], b as [y|]; simpl; try tauto.
  intros H1 H2. apply (Qlt_irrefl x). eapply Qle_lt_trans; eauto.
Qed.

(** X4. Two consecutive rows never carry the same non-zero signal: a Buy
    is never followed by a Buy on the next row, nor a Sell by a Sell. *)
Theorem generate_signals_adjacent_differ (data : list MARow) (i : nat) :
  (S i < length data)%nat ->
  nth i (generate_signals data) 0%Z <> 0%Z ->
  nth (S i) (generate_signals data) 0%Z <> nth i (generate_signals data) 0%Z.
Proof.
  intros Hi Hnz Heq.
  rewrite (generate_signals_nth data (S i) Hi) in Heq.
  rewrite (generate_signals_nth data i ltac:(lia)) in Heq, Hnz.
  set (c50 := nth i (map ma50 data) None) in *.
  set (c200 := nth i (map ma200 data) None) in *.
  set (p50 := match i with O => None | S j => nth j (map ma50 data) None end)
    in *.
  set (p200 := match i with O => None | S j => nth j (map ma200 data) None end)
    in *.
  set (n50 := nth (S i) (map ma50 data) None) in *.
  set (n200 := nth (S i) (map ma200 data) None) in *.
  destruct (signal_of_cases p50 p200 c50 c200) as [Hv [Hb Hs]].
  destruct (signal_of_cases c50 c200 n50 n200) as [_ [Hb' Hs']].
  cbv zeta in *.
  destruct Hv as [E|[E|E]]; [| |congruence].
  - rewrite E in Heq. apply Hb in E. apply Hb' in Heq.
    eapply above_not_at_most; [apply E | apply Heq].
  - rewrite E in Heq. apply Hs in E. apply Hs' in Heq.
    eapply above_not_at_most; [apply E | apply Heq].
Qed.

Lemma generate_signals_adjacent_differ_witness :
  nth 2 (generate_signals crossing_rows) 0%Z
  <> nth 1 (generate_signals crossing_rows) 0%Z.
Proof.
  apply (generate_signals_adjacent_differ crossing_rows 1).
  - simpl. lia.
  - vm_compute. discriminate.
Defined.

(** X5. The signals are causal: rows appended after the frame do not change
    any signal already computed. *)
Theorem generate_signals_causal (data later : list MARow) :
  firstn (length data) (generate_signals (data ++ later))
  = generate_signals data.
Proof.
  assert (Hlen : length (firstn (length data) (generate_signals (data ++ later)))
                 = length (generate_signals data)).
  { rewrite length_firstn, !generate_signals_length, length_app. lia. }
  apply (nth_ext _ _ 0%Z 0%Z Hlen).
  intros i Hi. rewrite Hlen, generate_signals_length in Hi.
  rewrite nth_firstn.
  replace (i <? length data)%nat with true by (symmetry; now apply Nat.ltb_lt).
  rewrite (generate_signals_nth data i Hi).
  rewrite (generate_signals_nth (data ++ later) i)
    by (rewrite length_app; lia).
  rewrite !map_app.
  rewrite !(app_nth1 (map _ data)) by (rewrite length_map; lia).
  destruct i as [|j]; [reflexivity|].
  rewrite !(app_nth1 (map _ data)) by (rewrite length_map; lia).
  reflexivity.
Qed.

Lemma indicator_rows_columns (close : list Q) :
  map ma50 (indicator_rows close) = MA50 (calculate_moving_averages close) /\
  map ma200 (indicator_rows close) = MA200 (calculate_moving_averages close).
Proof.
  unfold indicator_rows, calculate_moving_averages. cbn [MA50 MA200].
  assert (H : length (rolling_mean 50 close) = length (rolling_mean 200 close))
    by now rewrite !rolling_mean_length.
  revert H. generalize (rolling_mean 50 close) (rolling_mean 200 close).
  unfold zip_with.
  induction l as [|a l IH]; intros [|b l'] H; simpl in *; try discriminate;
    [split; reflexivity|].
  destruct (IH l' ltac:(lia)) as [H1 H2]. rewrite H1, H2. split; reflexivity.
Qed.

Lemma indicator_rows_length (close : list Q) :
  length (indicator_rows close) = length close.
Proof.
  rewrite <- (length_map ma50), (proj1 (indicator_rows_columns close)).
  apply rolling_mean_length.
Qed.

Lemma rolling_mean_undefined (window : nat) (close : list Q) (i : nat) :
  (0 < window)%nat -> (i < window - 1)%nat ->
  nth i (rolling_mean window close) None = None.
Proof.
  intros Hw Hi.
  destruct (Nat.lt_ge_cases i (length close)) as [Hlt|Hge].
  - assert (H := rolling_mean_trailing window close Hw i Hlt).
    unfold trailing_mean in H.
    replace (i <? window - 1)%nat with true in H
      by (symmetry; now apply Nat.ltb_lt).
    destruct (nth i (rolling_mean window close) None); [destruct H | reflexivity].
  - apply nth_overflow. now rewrite rolling_mean_length.
Qed.

(** X6. On the averages [calculate_moving_averages] computes, every signal
    before index 200 is 0: the 200-day average of the previous row is not
    yet available.  The strategies, which skip the first 200 rows, therefore
    skip no signal. *)
Theorem no_signal_before_200 (close : list Q) (i : nat) :
  (i < 200)%nat ->
  nth i (generate_signals (indicator_rows close)) 0%Z = 0%Z.
Proof.
  intros Hi.
  destruct (Nat.lt_ge_cases i (length (indicator_rows close))) as [Hlt|Hge].
  - rewrite (generate_signals_nth _ i Hlt).
    apply signal_of_undefined. destruct i as [|j]; [now left|].
    right. left. rewrite (proj2 (indicator_rows_columns close)).
    apply (rolling_mean_undefined 200); lia.
  - apply nth_overflow. now rewrite generate_signals_length.
Qed.

Lemma no_signal_before_200_witness :
  nth 55 (generate_signals (indicator_rows ramp60)) 0%Z = 0%Z.
Proof. apply no_signal_before_200. lia. Defined.

Lemma nth_Some_nth_error {A} (l : list (option A)) (i : nat) (x : A) :
  nth i l None = Some x -> nth_error l i = Some (Some x).
Proof.
  intros H. destruct (nth_error l i) as [o|] eqn:E.
  - rewrite (nth_error_nth _ _ None E) in H. now subst o.
  - apply nth_error_None in E. rewrite nth_overflow in H by exact E.
    discriminate.
Qed.

Lemma indicator_rows_constant (close : list Q) (k : Q) (i : nat) :
  Forall (fun c => c == k) close ->
  nth i (generate_signals (indicator_rows close)) 0%Z = 0%Z.
Proof.
  intros Hconst.
  assert (Hb : Forall (fun c => k <= c /\ c <= k) close).
  { eapply Forall_impl; [|exact Hconst]. intros c Hc. simpl in Hc.
    rewrite Hc. split; apply Qle_refl. }
  destruct (Nat.lt_ge_cases i (length (indicator_rows close))) as [Hlt|Hge];
    [|apply nth_overflow; now rewrite generate_signals_length].
  rewrite (generate_signals_nth _ i Hlt).
  destruct (indicator_rows_columns close) as [-> ->].
  unfold signal_of, nan_lt.
  assert (Hno : forall a b,
            nan_gt (nth i (rolling_mean a close) None)
                   (nth i (rolling_mean b close) None) = false
            \/ (a = 0 \/ b = 0)%nat).
  { intros a b. destruct a as [|a]; [now right; left|].
    destruct b as [|b]; [now right; right|]. left.
    destruct (nth i (rolling_mean (S a) close) None) as [x|] eqn:Ex;
      [|reflexivity].
    destruct (nth i (rolling_mean (S b) close) None) as [y|] eqn:Ey;
      [|reflexivity].
    apply nth_Some_nth_error in Ex. apply nth_Some_nth_error in Ey.
    destruct (rolling_mean_bounds (S a) close k k i x ltac:(lia) Hb Ex)
      as [_ Hx].
    destruct (rolling_mean_bounds (S b) close k k i y ltac:(lia) Hb Ey)
      as [Hy _].
    simpl. apply Qgtb_false_iff. eapply Qle_trans; eauto. }
  cbn [MA50 MA200 calculate_moving_averages].
  destruct (Hno 200%nat 50%nat) as [->|[H|H]]; [|discriminate H..].
  destruct (Hno 50%nat 200%nat) as [->|[H|H]]; [|discriminate H..].
  reflexivity.
Qed.

(** X7. A series whose closes are all equal produces no signal at all: both
    averages equal the common close wherever they are defined, so neither
    is ever strictly above the other. *)
Theorem constant_series_no_signal (close : list Q) (k : Q) (i : nat) :
  Forall (fun c => c == k) close ->
  nth i (generate_signals (indicator_rows close)) 0%Z = 0%Z.
Proof. apply indicator_rows_constant. Qed.

Lemma constant_series_no_signal_witness :
  nth 250 (generate_signals (indicator_rows (repeat 100 300))) 0%Z = 0%Z.
Proof.
  apply (constant_series_no_signal (repeat 100 300) 100).
  apply Forall_forall. intros c Hc. apply repeat_spec in Hc. now subst.
Defined.

(** ** Buy and hold *)

Lemma close_last (data : DataFrame) (r : Row) :
  nth_error data (length data - 1) = Some r ->
  iloc_last (close_col data) = Ok (Close r).
Proof.
  intros Hr.
  assert (Hne : close_col data <> []).
  { unfold close_col. destruct data; [simpl in Hr|]; discriminate. }
  rewrite (iloc_last_eq _ Hne). unfold close_col.
  rewrite length_map, iloc_map.
  now rewrite (proj2 (iloc_Ok_nth data _ r) Hr).
Qed.

Lemma buy_and_hold_rows (data : DataFrame) (r rl : Row) :
  nth_error data 200 = Some r ->
  nth_error data (length data - 1) = Some rl ->
  buy_and_hold data =
  (price <- to_scalar (Close r) ;;
   sh <- py_div initial_investment price ;;
   last_price <- to_scalar (Close rl) ;;
   Ok {| bh_initial_investment := initial_investment;
         bh_final_value := sh * last_price;
         bh_return_percentage :=
           (sh * last_price - initial_investment) / initial_investment * 100;
         bh_shares := sh |}).
Proof.
  intros Hr Hl. unfold buy_and_hold.
  rewrite (close_last data rl Hl).
  unfold close_col. rewrite iloc_map, (proj2 (iloc_Ok_nth data 200 r) Hr).
  cbn [bind]. destruct (to_scalar (Close r)) as [p|e]; [|reflexivity].
  cbn [bind]. destruct (py_div initial_investment p); reflexivity.
Qed.

Lemma buy_and_hold_valid (data : DataFrame) :
  (200 < length data)%nat -> all_closes_positive data ->
  exists b r rl p pl,
    buy_and_hold data = Ok b /\
    nth_error data 200 = Some r /\ to_scalar (Close r) = Ok p /\ 0 < p /\
    nth_error data (length data - 1) = Some rl /\
    to_scalar (Close rl) = Ok pl /\ 0 < pl /\
    bh_shares b = initial_investment / p /\
    bh_final_value b = initial_investment / p * pl /\
    bh_return_percentage b =
      (initial_investment / p * pl - initial_investment)
      / initial_investment * 100.
Proof.
  intros Hlen Hall.
  destruct (row_at data Hall 200 ltac:(lia)) as [r [p [Hr [Hp Hpos]]]].
  destruct (row_at data Hall (length data - 1) ltac:(lia))
    as [rl [pl [Hl [Hpl Hlpos]]]].
  eexists. exists r, rl, p, pl.
  rewrite (buy_and_hold_rows data r rl Hr Hl), Hp. cbn [bind].
  rewrite (py_div_pos _ _ Hpos). cbn [bind]. rewrite Hpl. cbn [bind].
  repeat (split; [first [reflexivity | assumption]|]). reflexivity.
Qed.

(** X8. [buy_and_hold] reads two rows only, row 200 and the last one: two
    frames of more than 200 rows that agree on these two rows give the same
    result, whatever the other rows hold.  With positive closes it returns:
    the shares are 10000 divided by the close of row 200, the final value
    is the shares times the last close, and the return percentage is the
    gain over the initial 10000, in percent. *)
Theorem buy_and_hold_reads_two_rows (data data' : DataFrame) :
  (200 < length data)%nat -> (200 < length data')%nat ->
  nth_error data 200 = nth_error data' 200 ->
  nth_error data (length data - 1) = nth_error data' (length data' - 1) ->
  buy_and_hold data = buy_and_hold data' /\
  (all_closes_positive data ->
   exists b r rl p pl,
     buy_and_hold data = Ok b /\
     nth_error data 200 = Some r /\ to_scalar (Close r) = Ok p /\
     nth_error data (length data - 1) = Some rl /\
     to_scalar (Close rl) = Ok pl /\
     bh_shares b = initial_investment / p /\
     bh_final_value b = bh_shares b * pl /\
     bh_return_percentage b =
       (bh_final_value b - initial_investment) / initial_investment * 100).
Proof.
  intros Hlen Hlen' H200 Hlast. split.
  - destruct (iloc_lt data 200 Hlen) as [r [_ Hr]].
    destruct (iloc_lt data (length data - 1) ltac:(lia)) as [rl [_ Hl]].
    rewrite (buy_and_hold_rows data r rl Hr Hl).
    rewrite H200 in Hr. rewrite Hlast in Hl.
    now rewrite (buy_and_hold_rows data' r rl Hr Hl).
  - intros Hall.
    destruct (buy_and_hold_valid data Hlen Hall)
      as [b [r [rl [p [pl [Hb [Hr [Hp [_ [Hl [Hpl [_ [Hs [Hf Hret]]]]]]]]]]]]]].
    exists b, r, rl, p, pl.
    repeat (split; [assumption|]).
    split; [now rewrite Hf, Hs|]. now rewrite Hret, Hf.
Qed.

Lemma buy_and_hold_reads_two_rows_witness :
  buy_and_hold sample = buy_and_hold sample_one_buy /\
  exists b, buy_and_hold sample = Ok b /\
            bh_final_value b = bh_shares b * sample_close 204.
Proof.
  destruct (buy_and_hold_reads_two_rows sample sample_one_buy)
    as [Hsame Hvalid]; try (vm_compute; reflexivity); try (vm_compute; lia).
  split; [exact Hsame|].
  destruct Hvalid as [b [r [rl [p [pl [Hb [_ [_ [Hl [Hpl [_ [Hf _]]]]]]]]]]]].
  - apply all_closes_positive_forallb. vm_compute. reflexivity.
  - exists b. split; [exact Hb|].
    vm_compute in Hl. injection Hl as <-.
    vm_compute in Hpl. injection Hpl as <-.
    exact Hf.
Defined.

Lemma to_scalar_not_IndexError (value : pyvalue) :
  to_scalar value <> Raise IndexError.
Proof.
  destruct value as [z|x|[|x [|y xs]]|[|[|x [|y r]] rows]]; discriminate.
Qed.

Lemma py_div_not_IndexError (x y : Q) : py_div x y <> Raise IndexError.
Proof. unfold py_div. destruct (Qeq_bool y 0); discriminate. Qed.

(** X9. [buy_and_hold] raises IndexError exactly when the frame has at most
    200 rows, whatever the rows hold; with more rows, a close of zero at row
    200 makes it raise ZeroDivisionError. *)
Theorem buy_and_hold_errors (data : DataFrame) :
  (buy_and_hold data = Raise IndexError <-> (length data <= 200)%nat) /\
  (forall r p,
     nth_error data 200 = Some r -> to_scalar (Close r) = Ok p -> p == 0 ->
     buy_and_hold data = Raise ZeroDivisionError).
Proof.
  split; [split|].
  - intros H.
    destruct (Nat.le_gt_cases (length data) 200) as [Hle|Hgt]; [exact Hle|].
    exfalso.
    destruct (iloc_lt data 200 Hgt) as [r [_ Hr]].
    destruct (iloc_lt data (length data - 1) ltac:(lia)) as [rl [_ Hl]].
    rewrite (buy_and_hold_rows data r rl Hr Hl) in H.
    revert H. apply bind_not_raising; [apply to_scalar_not_IndexError|].
    intros p. apply bind_not_raising; [apply py_div_not_IndexError|].
    intros sh. apply bind_not_raising; [apply to_scalar_not_IndexError|].
    discriminate.
  - apply buy_and_hold_short.
  - intros r p Hr Hp Hz.
    assert (Hlen : (200 < length data)%nat)
      by (apply nth_error_Some; congruence).
    destruct (iloc_lt data (length data - 1) ltac:(lia)) as [rl [_ Hl]].
    rewrite (buy_and_hold_rows data r rl Hr Hl), Hp. cbn [bind].
    now rewrite (py_div_zero _ _ Hz).
Qed.

Lemma buy_and_hold_errors_witness :
  buy_and_hold frame200 = Raise IndexError /\
  buy_and_hold zero_close_frame = Raise ZeroDivisionError.
Proof.
  split.
  - apply (proj1 (buy_and_hold_errors frame200)).
    unfold frame200. rewrite (quiet_frame_length 200). lia.
  - apply (proj2 (buy_and_hold_errors zero_close_frame)
             (mkRow 200 (PyFloat 0) 1) 0); reflexivity.
Defined.

(** ** The crossover strategy *)

Lemma for_each_ext {S} (idx : list nat) (body body' : nat -> S -> result S)
    (s : S) :
  (forall i t, In i idx -> body i t = body' i t) ->
  for_each idx body s = for_each idx body' s.
Proof.
  revert s. induction idx as [|i idx IH]; intros s H; [reflexivity|].
  simpl. rewrite (H i s (or_introl eq_refl)).
  destruct (body' i s) as [s'|e]; simpl; [|reflexivity].
  apply IH. intros j t Hj. apply H. now right.
Qed.

Lemma nth_error_from_skipn {A} (l l' : list A) (a i : nat) :
  skipn a l = skipn a l' -> (a <= i)%nat -> nth_error l i = nth_error l' i.
Proof.
  intros H Hi. replace i with (a + (i - a))%nat by lia.
  rewrite <- !nth_error_skipn. now rewrite H.
Qed.

Lemma crossover_body_depends_on_row (data data' : DataFrame) (i : nat)
    (st : Position) :
  nth_error data i = nth_error data' i ->
  crossover_body data i st = crossover_body data' i st.
Proof.
  intros H. unfold crossover_body, index, close_col, signal_col.
  rewrite !iloc_map. unfold iloc. now rewrite H.
Qed.

(** X10. [ma_crossover_strategy] does not look at the first 200 rows: two
    frames of the same length (more than 200 rows) that agree from row 200
    on give the same result, transactions included. *)
Theorem ma_crossover_strategy_ignores_warmup (data data' : DataFrame) :
  length data = length data' -> (200 < length data)%nat ->
  skipn 200 data = skipn 200 data' ->
  ma_crossover_strategy data = ma_crossover_strategy data'.
Proof.
  intros Hlen Hgt Hskip. unfold ma_crossover_strategy, crossover_loop.
  rewrite <- Hlen.
  rewrite (for_each_ext _ (crossover_body data) (crossover_body data')).
  2:{ intros i t Hi. apply in_range in Hi.
      apply crossover_body_depends_on_row.
      apply (nth_error_from_skipn data data' 200); [exact Hskip | lia]. }
  destruct (iloc_lt data (length data - 1) ltac:(lia)) as [rl [_ Hl]].
  assert (Hl' : nth_error data' (length data' - 1) = Some rl).
  { rewrite <- Hlen, <- Hl. symmetry.
    apply (nth_error_from_skipn data data' 200); [exact Hskip | lia]. }
  now rewrite (close_last data rl Hl), (close_last data' rl Hl').
Qed.

Lemma ma_crossover_strategy_ignores_warmup_witness :
  ma_crossover_strategy sample
  = ma_crossover_strategy
      (map (fun r => mkRow (date r) (PyFloat 1) 1) (firstn 200 sample)
       ++ skipn 200 sample).
Proof.
  apply ma_crossover_strategy_ignores_warmup.
  - vm_compute. reflexivity.
  - vm_compute. lia.
  - vm_compute. reflexivity.
Defined.

Lemma trade_no_signal (d : Z) (p : Q) (r : Row) (st : Position) :
  Signal r <> 1%Z -> Signal r <> (-1)%Z ->
  trade d p (inject_Z (Signal r)) st = Ok st.
Proof.
  intros H1 H2. rewrite trade_signal.
  apply Z.eqb_neq in H1. apply Z.eqb_neq in H2. now rewrite H1, H2.
Qed.

Lemma range_from_200 (n : nat) : range 200 n = range 200 (200 + (n - 200)).
Proof. unfold range. f_equal. lia. Qed.

Lemma crossover_loop_no_signal (data : DataFrame) :
  closes_convert data ->
  (forall i r, (200 <= i)%nat -> nth_error data i = Some r ->
               Signal r <> 1%Z /\ Signal r <> (-1)%Z) ->
  crossover_loop data = Ok initial_position.
Proof.
  intros Hconv Hsig. unfold crossover_loop.
  destruct (for_each_total (fun st => st = initial_position)
              (range 200 (length data)) (crossover_body data)
              initial_position) as [st [Hst ->]]; [| reflexivity | exact Hst].
  intros i st Hi ->. apply in_range in Hi.
  destruct (iloc_lt data i ltac:(lia)) as [r [_ Hr]].
  assert (Hc : exists p, to_scalar (Close r) = Ok p).
  { apply (proj1 (Forall_forall _ data) Hconv r).
    eapply nth_error_In; eauto. }
  destruct Hc as [p Hp].
  destruct (Hsig i r ltac:(lia) Hr) as [H1 H2].
  exists initial_position.
  rewrite (crossover_body_row data i r _ Hr), Hp. cbn [bind].
  split; [now apply trade_no_signal | reflexivity].
Qed.

(** X11. Without a Buy or Sell signal from row 200 on, the crossover
    strategy never trades, whatever the closes are (as long as they are
    numbers): the log is empty, the final value is the initial 10000 and
    the return is 0 percent. *)
Theorem no_signal_no_trade (data : DataFrame) :
  data <> [] -> closes_convert data ->
  (forall i r, (200 <= i)%nat -> nth_error data i = Some r ->
               Signal r <> 1%Z /\ Signal r <> (-1)%Z) ->
  exists res,
    ma_crossover_strategy data = Ok res /\
    ma_transactions res = [] /\
    ma_final_value res = initial_investment /\
    ma_return_percentage res == 0.
Proof.
  intros Hne Hconv Hsig. unfold ma_crossover_strategy.
  rewrite (crossover_loop_no_signal data Hconv Hsig). cbn [bind].
  destruct (iloc_lt data (length data - 1)) as [rl [_ Hl]].
  { destruct data; [congruence | simpl; lia]. }
  rewrite (close_last data rl Hl). cbn [bind].
  destruct (proj1 (Forall_forall _ data) Hconv rl) as [p Hp].
  { eapply nth_error_In; eauto. }
  rewrite Hp. cbn [bind]. eexists. split; [reflexivity|].
  cbn. repeat split; reflexivity.
Qed.

Lemma no_signal_no_trade_witness :
  exists res,
    ma_crossover_strategy frame201 = Ok res /\ ma_transactions res = [].
Proof.
  destruct (no_signal_no_trade frame201) as [res [Hres [Hlog _]]].
  - discriminate.
  - apply Forall_forall. intros r Hr.
    apply in_map_iff in Hr. destruct Hr as [i [<- _]]. now eexists.
  - intros i r _ Hr. apply nth_error_In in Hr.
    apply in_map_iff in Hr. destruct Hr as [j [<- _]]. split; discriminate.
  - exists res. split; assumption.
Defined.

Lemma StronglySorted_snoc (l : list nat) (x : nat) :
  StronglySorted lt l -> Forall (fun j => (j < x)%nat) l ->
  StronglySorted lt (l ++ [x]).
Proof.
  induction 1 as [|a l Hl IH Ha]; intros Hx; simpl.
  - constructor; constructor.
  - apply Forall_cons_iff in Hx. destruct Hx as [Hax Hx].
    constructor; [now apply IH|].
    apply Forall_app. split; [exact Ha | constructor; [exact Hax | constructor]].
Qed.

Lemma trade_log_step (d : Z) (p : Q) (r : Row) (st st' : Position) :
  trade d p (inject_Z (Signal r)) st = Ok st' ->
  transactions st' = transactions st \/
  exists t, transactions st' = transactions st ++ [t] /\
            tx_date t = d /\ tx_price t = p /\
            Signal r = match tx_action t with BUY => 1%Z | SELL => (-1)%Z end.
Proof.
  rewrite trade_signal.
  destruct ((Signal r =? 1)%Z && negb (in_market st)) eqn:Hbuy.
  - apply andb_true_iff in Hbuy. destruct Hbuy as [E _].
    apply Z.eqb_eq in E.
    intros H. apply bind_Ok_inv in H. destruct H as [sh [_ [= <-]]].
    right. eexists. split; [reflexivity|]. cbn. auto.
  - destruct ((Signal r =? -1)%Z && in_market st) eqn:Hsell.
    + apply andb_true_iff in Hsell. destruct Hsell as [E _].
      apply Z.eqb_eq in E. intros [= <-].
      right. eexists. split; [reflexivity|]. cbn. auto.
    + intros [= <-]. now left.
Qed.

Lemma for_each_snoc_inv {S} (idx : list nat) (i : nat)
    (body : nat -> S -> result S) (s s' : S) :
  for_each (idx ++ [i]) body s = Ok s' ->
  exists s0, for_each idx body s = Ok s0 /\ body i s0 = Ok s'.
Proof.
  rewrite for_each_app. intros H.
  apply bind_Ok_inv in H. destruct H as [s0 [H0 H]].
  exists s0. split; [exact H0|].
  cbn [for_each] in H. apply bind_Ok_inv in H.
  destruct H as [s1 [H1 [= <-]]]. exact H1.
Qed.

Lemma crossover_prefix_log (data : DataFrame) (k : nat) :
  forall st,
    for_each (range 200 (200 + k)) (crossover_body data) initial_position
      = Ok st ->
    exists idxs,
      StronglySorted lt idxs /\
      Forall (fun j => (j < 200 + k)%nat) idxs /\
      Forall2 (tx_at data) idxs (transactions st) /\
      (length (transactions st) <= k)%nat.
Proof.
  induction k as [|k IH]; intros st Hst.
  - rewrite range_empty in Hst by lia. injection Hst as <-.
    exists []. repeat split; constructor.
  - replace (200 + S k)%nat with (S (200 + k)) in Hst by lia.
    rewrite range_snoc in Hst by lia.
    apply for_each_snoc_inv in Hst. destruct Hst as [st0 [Hst0 Hbody]].
    destruct (IH st0 Hst0) as [idxs [Hsort [Hlt [Hlog Hlen]]]].
    destruct (nth_error data (200 + k)) as [r|] eqn:Hr.
    2:{ apply nth_error_None in Hr.
        rewrite crossover_body_out_of_range in Hbody by exact Hr.
        discriminate. }
    rewrite (crossover_body_row data _ r st0 Hr) in Hbody.
    apply bind_Ok_inv in Hbody. destruct Hbody as [p [Hp Htrade]].
    assert (Hweak : Forall (fun j => (j < 200 + S k)%nat) idxs).
    { eapply Forall_impl; [|exact Hlt]. intros j Hj. simpl in Hj. lia. }
    destruct (trade_log_step _ _ _ _ _ Htrade) as [E|[t [E [Hd [Hpr Hs]]]]].
    + exists idxs. rewrite E. repeat split; auto.
    + exists (idxs ++ [200 + k]%nat). rewrite E.
      split; [now apply StronglySorted_snoc|].
      split; [apply Forall_app; split; [exact Hweak|];
              constructor; [lia | constructor]|].
      split.
      * apply Forall2_app; [exact Hlog|]. constructor; [|constructor].
        split; [lia|]. exists r. subst p. repeat split; auto.
      * rewrite length_app. simpl. lia.
Qed.

(** X12. Every transaction [ma_crossover_strategy] logs was made on a row
    from index 200 on: it carries the date and the close of that row, and
    the row's signal is 1 for a BUY and -1 for a SELL.  The rows of
    successive transactions come in strictly increasing order, so there is
    at most one transaction per row and at most [len - 200] in all. *)
Theorem transactions_come_from_signals (data : DataFrame)
    (res : CrossoverResult) :
  ma_crossover_strategy data = Ok res ->
  exists idxs,
    StronglySorted lt idxs /\
    Forall2 (tx_at data) idxs (ma_transactions res) /\
    (length (ma_transactions res) <= length data - 200)%nat.
Proof.
  intros H. unfold ma_crossover_strategy in H.
  apply bind_Ok_inv in H. destruct H as [st [Hloop H]].
  apply bind_Ok_inv in H. destruct H as [last [_ H]].
  apply bind_Ok_inv in H. destruct H as [final_price [_ H]].
  injection H as <-. cbn [ma_transactions].
  unfold crossover_loop in Hloop. rewrite range_from_200 in Hloop.
  destruct (crossover_prefix_log data _ st Hloop)
    as [idxs [Hsort [_ [Hlog Hlen]]]].
  exists idxs. repeat split; assumption.
Qed.

Lemma transactions_come_from_signals_witness :
  exists res idxs,
    ma_crossover_strategy sample = Ok res /\
    StronglySorted lt idxs /\
    Forall2 (tx_at sample) idxs (ma_transactions res).
Proof.
  eexists.
  assert (H : ma_crossover_strategy sample = Ok _)
    by (vm_compute; reflexivity).
  destruct (transactions_come_from_signals sample _ H)
    as [idxs [Hsort [Hlog _]]].
  exists idxs. repeat split; assumption.
Defined.

Lemma last_tx_snoc (log : list Transaction) (t : Transaction) :
  last_tx (log ++ [t]) = Some t.
Proof.
  unfold last_tx. rewrite length_app, Nat.add_1_r. simpl.
  rewrite Nat.sub_0_r, nth_error_app2 by lia.
  now rewrite Nat.sub_diag.
Qed.

Lemma chained_snoc (log : list Transaction) (t : Transaction) :
  chained log ->
  match last_tx log with
  | None => tx_action t = BUY /\ tx_shares t = initial_investment / tx_price t
  | Some a =>
      match tx_action a with
      | BUY => tx_action t = SELL /\ tx_value t = tx_shares a * tx_price t
      | SELL => tx_action t = BUY /\ tx_shares t = tx_value a / tx_price t
      end
  end ->
  match tx_action t with
  | BUY => tx_value t = tx_shares t * tx_price t
  | SELL => tx_shares t = 0
  end ->
  chained (log ++ [t]).
Proof.
  intros [Hfirst [Hpairs Hall]] Hlast Hself. unfold last_tx in Hlast.
  split; [|split].
  - intros a Ha. destruct log as [|x log].
    + simpl in Ha. injection Ha as <-. exact Hlast.
    + apply Hfirst. exact Ha.
  - intros k a b Ha Hb.
    destruct (Nat.lt_ge_cases (S k) (length log)) as [Hlt|Hge].
    + rewrite nth_error_app1 in Ha, Hb by lia. now apply (Hpairs k).
    + assert (Hk : S k = length log).
      { assert (S k < length (log ++ [t]))%nat
          by (apply nth_error_Some; congruence).
        rewrite length_app in H. simpl in H. lia. }
      rewrite nth_error_app1 in Ha by lia.
      rewrite nth_error_app2, Hk, Nat.sub_diag in Hb by lia.
      injection Hb as <-.
      replace (length log - 1)%nat with k in Hlast by lia.
      now rewrite Ha in Hlast.
  - apply Forall_app. split; [exact Hall|]. constructor; [exact Hself|constructor].
Qed.

Lemma trade_ledger (d : Z) (p signal : Q) (st st' : Position) :
  mirrors st -> chained (transactions st) ->
  trade d p signal st = Ok st' ->
  mirrors st' /\ chained (transactions st').
Proof.
  intros Hm Hc. unfold trade.
  destruct (Qeq_bool signal 1 && negb (in_market st)) eqn:Hbuy.
  - apply andb_true_iff in Hbuy. destruct Hbuy as [_ Hin].
    apply negb_true_iff in Hin.
    unfold py_div. destruct (Qeq_bool p 0); [discriminate|]. cbn [bind].
    intros [= <-]. unfold mirrors in *. cbn [transactions in_market shares cash].
    rewrite last_tx_snoc. split; [repeat split|].
    apply chained_snoc; [exact Hc | | reflexivity].
    rewrite Hin in Hm. cbn [tx_action tx_shares tx_price].
    destruct (last_tx (transactions st)) as [a|].
    + destruct Hm as [Ha [Hcash _]]. rewrite Ha, Hcash. now split.
    + destruct Hm as [_ Hcash]. rewrite Hcash. now split.
  - destruct (Qeq_bool signal (-1) && in_market st) eqn:Hsell.
    + apply andb_true_iff in Hsell. destruct Hsell as [_ Hin].
      intros [= <-]. unfold mirrors in *.
      cbn [transactions in_market shares cash].
      rewrite last_tx_snoc. split; [repeat split|].
      apply chained_snoc; [exact Hc | | reflexivity].
      rewrite Hin in Hm. cbn [tx_action tx_value tx_price].
      destruct (last_tx (transactions st)) as [a|].
      * destruct Hm as [Ha [Hsh _]]. rewrite Ha, Hsh. now split.
      * destruct Hm as [Hf _]. discriminate.
    + intros [= <-]. now split.
Qed.

Lemma crossover_loop_ledger (data : DataFrame) (st : Position) :
  crossover_loop data = Ok st -> mirrors st /\ chained (transactions st).
Proof.
  apply (for_each_preserves
           (fun s => mirrors s /\ chained (transactions s))).
  - intros i s s' _ [Hm Hc] Hbody.
    destruct (nth_error data i) as [r|] eqn:Hr.
    + rewrite (crossover_body_row data i r s Hr) in Hbody.
      apply bind_Ok_inv in Hbody. destruct Hbody as [p [_ Ht]].
      exact (trade_ledger _ _ _ s s' Hm Hc Ht).
    + apply nth_error_None in Hr.
      rewrite crossover_body_out_of_range in Hbody by exact Hr. discriminate.
  - split.
    + unfold mirrors. simpl. now split.
    + split; [|split].
      * intros a Ha. discriminate.
      * intros k a b Ha. destruct k; discriminate.
      * constructor.
Qed.

(** X13. The log [ma_crossover_strategy] returns is a consistent ledger: the
    first entry buys [10000 / price] shares; every SELL follows a BUY and
    cashes exactly its shares at the SELL price; every later BUY follows a
    SELL and turns exactly its proceeds into shares at the BUY price.  When
    the closes are positive the final value is read off the last entry:
    10000 when there is none, the shares of a final BUY at the last close,
    the proceeds of a final SELL. *)
Theorem transactions_form_a_ledger (data : DataFrame) (res : CrossoverResult) :
  ma_crossover_strategy data = Ok res ->
  chained (ma_transactions res) /\
  (all_closes_positive data ->
   exists rl pl,
     nth_error data (length data - 1) = Some rl /\
     to_scalar (Close rl) = Ok pl /\
     ma_final_value res =
       match last_tx (ma_transactions res) with
       | None => initial_investment
       | Some t => match tx_action t with
                   | BUY => tx_shares t * pl
                   | SELL => tx_value t
                   end
       end).
Proof.
  intros H. unfold ma_crossover_strategy in H.
  apply bind_Ok_inv in H. destruct H as [st [Hloop H]].
  apply bind_Ok_inv in H. destruct H as [last [Hlast H]].
  apply bind_Ok_inv in H. destruct H as [pl [Hpl H]].
  injection H as <-. cbn [ma_transactions ma_final_value].
  destruct (crossover_loop_ledger data st Hloop) as [Hm Hc].
  split; [exact Hc|]. intros Hall.
  destruct (crossover_loop_valid data Hall) as [st0 [Hst0 [Hinv _]]].
  assert (st0 = st) by congruence. subst st0.
  assert (Hne : data <> []).
  { intros ->. discriminate. }
  destruct (iloc_lt data (length data - 1)) as [rl [_ Hl]].
  { destruct data; [congruence | simpl; lia]. }
  rewrite (close_last data rl Hl) in Hlast. injection Hlast as <-.
  exists rl, pl. split; [exact Hl|]. split; [exact Hpl|].
  rewrite (final_value_rule_by_flag st pl Hinv).
  unfold final_value_by_flag, mirrors in *.
  destruct (last_tx (transactions st)) as [t|].
  - destruct (in_market st).
    + destruct Hm as [-> [-> _]]. reflexivity.
    + destruct Hm as [-> [-> _]]. reflexivity.
  - destruct Hm as [-> ->]. reflexivity.
Qed.

Lemma transactions_form_a_ledger_witness :
  exists res, ma_crossover_strategy sample = Ok res /\
              chained (ma_transactions res).
Proof.
  eexists.
  assert (H : ma_crossover_strategy sample = Ok _)
    by (vm_compute; reflexivity).
  split; [exact H|].
  exact (proj1 (transactions_form_a_ledger sample _ H)).
Defined.

(** X14. With positive closes the crossover strategy never ends below
    zero: on a frame that is not empty it returns a final value that is not
    negative, so the return percentage is not below -100. *)
Theorem crossover_final_value_not_negative (data : DataFrame) :
  data <> [] -> all_closes_positive data ->
  exists res,
    ma_crossover_strategy data = Ok res /\
    0 <= ma_final_value res /\ -(100) <= ma_return_percentage res.
Proof.
  intros Hne Hall.
  destruct (crossover_loop_valid data Hall) as [st [Hst [Hinv _]]].
  destruct (row_at data Hall (length data - 1)) as [rl [pl [Hl [Hpl Hpos]]]].
  { destruct data; [congruence | simpl; lia]. }
  unfold ma_crossover_strategy. rewrite Hst. cbn [bind].
  rewrite (close_last data rl Hl). cbn [bind]. rewrite Hpl. cbn [bind].
  eexists. split; [reflexivity|]. cbn [ma_final_value ma_return_percentage].
  rewrite (final_value_rule_by_flag st pl Hinv).
  assert (Hv : 0 < final_value_by_flag st pl).
  { unfold final_value_by_flag, position_inv in *.
    destruct (in_market st); destruct Hinv as [_ Hp]; [|exact Hp].
    now apply Qmult_lt_0_compat. }
  split; [now apply Qlt_le_weak|]. unfold initial_investment.
  setoid_replace ((final_value_by_flag st pl - 10000) / 10000 * 100)
    with (final_value_by_flag st pl / 100 - 100) by field.
  assert (0 < final_value_by_flag st pl / 100)
    by (apply Qlt_shift_div_l; [reflexivity | now rewrite Qmult_0_l]).
  lra.
Qed.

Lemma crossover_final_value_not_negative_witness :
  exists res, ma_crossover_strategy sample = Ok res /\ 0 <= ma_final_value res.
Proof.
  destruct (crossover_final_value_not_negative sample) as [res [Hres [Hv _]]].
  - discriminate.
  - apply all_closes_positive_forallb. vm_compute. reflexivity.
  - exists res. split; assumption.
Defined.

(** ** The equity curves *)

Lemma bh_values_prefix_entries (data : DataFrame) (bh : Q) (k : nat) :
  forall col,
    for_each (range 0 k) (bh_body data bh) [] = Ok col ->
    length col = k /\
    forall i r, (i < k)%nat -> nth_error data i = Some r ->
      ((i < 200)%nat -> nth_error col i = Some None) /\
      ((200 <= i)%nat ->
       exists p, to_scalar (Close r) = Ok p /\
                 nth_error col i = Some (Some (bh * p))).
Proof.
  induction k as [|k IH]; intros col Hcol.
  - injection Hcol as <-. split; [reflexivity|]. intros i r Hi. lia.
  - rewrite range_snoc in Hcol by lia.
    apply for_each_snoc_inv in Hcol. destruct Hcol as [col0 [Hcol0 Hbody]].
    destruct (IH col0 Hcol0) as [Hlen Hentries].
    unfold bh_body in Hbody.
    assert (Hlast : exists v, col = col0 ++ [v] /\
              forall r, nth_error data k = Some r ->
                ((k < 200)%nat -> v = None) /\
                ((200 <= k)%nat ->
                 exists p, to_scalar (Close r) = Ok p /\ v = Some (bh * p))).
    { destruct (Nat.ltb_spec k 200) as [Hlt|Hge].
      - injection Hbody as <-. exists None. split; [reflexivity|].
        intros r _. split; [reflexivity | lia].
      - apply bind_Ok_inv in Hbody. destruct Hbody as [cell [Hcell Hbody]].
        apply bind_Ok_inv in Hbody. destruct Hbody as [p [Hp [= <-]]].
        exists (Some (bh * p)). split; [reflexivity|].
        intros r Hr. split; [lia|]. intros _. exists p. split; [|reflexivity].
        unfold close_col in Hcell. rewrite iloc_map in Hcell.
        rewrite (proj2 (iloc_Ok_nth data k r) Hr) in Hcell.
        injection Hcell as <-. exact Hp. }
    destruct Hlast as [v [-> Hv]].
    split; [rewrite length_app; simpl; lia|].
    intros i r Hi Hr.
    destruct (Nat.eq_dec i k) as [->|Hne].
    + rewrite nth_error_app2, Hlen, Nat.sub_diag by lia. cbn [nth_error].
      destruct (Hv r Hr) as [H1 H2]. split.
      * intros H. now rewrite (H1 H).
      * intros H. destruct (H2 H) as [p [Hp ->]]. eauto.
    + rewrite nth_error_app1 by lia. apply Hentries; [lia | exact Hr].
Qed.

Lemma prepare_strategy_data_inv (data : DataFrame) (bh : Q) (cv : Curves) :
  prepare_strategy_data data bh = Ok cv ->
  exists r200 rp,
    bh_values_loop data bh = Ok (BH_Value cv) /\
    nth_error data 200 = Some r200 /\
    for_each (range 201 (length data)) (replay_body data)
             (replay_start data (date r200)) = Ok rp /\
    MA_Value cv = ma_values rp.
Proof.
  unfold prepare_strategy_data. intros H.
  apply bind_Ok_inv in H. destruct H as [col [Hcol H]].
  apply bind_Ok_inv in H. destruct H as [start [Hstart H]].
  apply bind_Ok_inv in H. destruct H as [rp [Hrp [= <-]]].
  unfold index in Hstart. rewrite iloc_map in Hstart.
  apply bind_Ok_inv in Hstart. destruct Hstart as [r200 [Hr [= <-]]].
  exists r200, rp. apply iloc_Ok_nth in Hr. repeat split; assumption.
Qed.

(** X15. The buy-and-hold curve [prepare_strategy_data] returns has one
    entry per row: undefined on the first 200 rows, and from row 200 on the
    given number of shares times the close of the row. *)
Theorem buy_and_hold_curve (data : DataFrame) (bh : Q) (cv : Curves) :
  prepare_strategy_data data bh = Ok cv ->
  length (BH_Value cv) = length data /\
  forall i r, nth_error data i = Some r ->
    ((i < 200)%nat -> nth_error (BH_Value cv) i = Some None) /\
    ((200 <= i)%nat ->
     exists p, to_scalar (Close r) = Ok p /\
               nth_error (BH_Value cv) i = Some (Some (bh * p))).
Proof.
  intros H. destruct (prepare_strategy_data_inv data bh cv H)
    as [r200 [rp [Hbh _]]].
  destruct (bh_values_prefix_entries data bh (length data) _ Hbh)
    as [Hlen Hentries].
  split; [exact Hlen|]. intros i r Hr. apply Hentries; [|exact Hr].
  apply nth_error_Some. congruence.
Qed.

Lemma buy_and_hold_curve_witness :
  exists cv, prepare_strategy_data frame201 1 = Ok cv /\
             length (BH_Value cv) = length frame201.
Proof.
  eexists.
  assert (H : prepare_strategy_data frame201 1 = Ok _)
    by (vm_compute; reflexivity).
  split; [exact H|]. exact (proj1 (buy_and_hold_curve frame201 1 _ H)).
Defined.

Lemma loc_set_nth_error_other (data : DataFrame) (i j : nat) (r : Row) (v : Q)
    (col : list (option Q)) :
  NoDup (index data) -> nth_error data i = Some r -> j <> i ->
  length col = length data ->
  nth_error (loc_set data (date r) v col) j = nth_error col j.
Proof.
  intros Hnd Hr Hne Hlen. unfold loc_set. rewrite zip_with_nth_error.
  destruct (nth_error data j) as [r'|] eqn:Hr'.
  - destruct (nth_error col j) as [c|] eqn:Hc; [|reflexivity].
    destruct (Z.eqb_spec (date r') (date r)) as [E|_]; [|reflexivity].
    exfalso. apply Hne.
    apply (proj1 (NoDup_nth_error (index data)) Hnd).
    + unfold index. rewrite length_map. apply nth_error_Some. congruence.
    + unfold index. rewrite !nth_error_map, Hr, Hr'. simpl. now rewrite E.
  - apply nth_error_None in Hr'. symmetry. apply nth_error_None. lia.
Qed.

Lemma replay_body_ma_values (data : DataFrame) (i : nat) (rp rp' : Replay) :
  replay_body data i rp = Ok rp' ->
  exists r v, nth_error data i = Some r /\
              ma_values rp' = loc_set data (date r) v (ma_values rp).
Proof.
  unfold replay_body. intros H.
  apply bind_Ok_inv in H. destruct H as [prev_idx [_ H]].
  apply bind_Ok_inv in H. destruct H as [curr_idx [Hcurr H]].
  apply bind_Ok_inv in H. destruct H as [sig [_ H]].
  apply bind_Ok_inv in H. destruct H as [prev_signal [_ H]].
  apply bind_Ok_inv in H. destruct H as [pc [_ H]].
  apply bind_Ok_inv in H. destruct H as [prev_close [_ H]].
  apply bind_Ok_inv in H. destruct H as [cc [_ H]].
  apply bind_Ok_inv in H. destruct H as [curr_close [_ H]].
  apply bind_Ok_inv in H. destruct H as [st1 [Hst1 [= <-]]].
  unfold index in Hcurr. rewrite iloc_map in Hcurr.
  apply bind_Ok_inv in Hcurr. destruct Hcurr as [r [Hr [= <-]]].
  apply iloc_Ok_nth in Hr.
  assert (Hsame : ma_values st1 = ma_values rp).
  { destruct (Qeq_bool prev_signal 1 && negb (rp_in_market rp)).
    - apply bind_Ok_inv in Hst1. destruct Hst1 as [sh [_ [= <-]]]. reflexivity.
    - destruct (Qeq_bool prev_signal (-1) && rp_in_market rp);
        injection Hst1 as <-; reflexivity. }
  exists r. eexists. split; [exact Hr|]. cbn [ma_values]. now rewrite Hsame.
Qed.

Section EquityCurveEntries.
Variable data : DataFrame.
Hypothesis valid : all_closes_positive data.
Hypothesis unique_dates : NoDup (index data).

Lemma replay_prefix_curve (r200 : Row) (k : nat) :
  nth_error data 200 = Some r200 -> (200 + k < length data)%nat ->
  exists rp,
    for_each (range 201 (201 + k)) (replay_body data)
             (replay_start data (date r200)) = Ok rp /\
    length (ma_values rp) = length data /\
    (forall j, (j < 200)%nat -> nth_error (ma_values rp) j = Some None) /\
    (forall j, (200 <= j <= 200 + k)%nat ->
       exists st r p,
         for_each (range 200 j) (crossover_body data) initial_position = Ok st /\
         nth_error data j = Some r /\ to_scalar (Close r) = Ok p /\
         nth_error (ma_values rp) j = Some (Some (final_value_by_flag st p))).
Proof.
  intros H200. induction k as [|k IH]; intros Hk.
  - destruct (replay_prefix data valid unique_dates r200 0 H200 Hk)
      as [rp [st [r [p [Hrp [Hst [_ [Hlen [Hr [Hp Hv]]]]]]]]]].
    exists rp. split; [exact Hrp|]. split; [exact Hlen|]. split.
    + intros j Hj. rewrite range_empty in Hrp by lia. injection Hrp as <-.
      cbn [replay_start ma_values].
      rewrite (loc_set_nth_error_other data 200 j r200)
        by (auto using repeat_length; lia).
      rewrite nth_error_repeat by lia. reflexivity.
    + intros j Hj. assert (j = (200 + 0)%nat) by lia. subst j.
      exists st, r, p. repeat split; assumption.
  - destruct (IH ltac:(lia)) as [rp0 [Hrp0 [Hlen0 [Hlow0 Hhigh0]]]].
    destruct (replay_prefix data valid unique_dates r200 (S k) H200 Hk)
      as [rp [st [r [p [Hrp [Hst [_ [Hlen [Hr [Hp Hv]]]]]]]]]].
    exists rp. split; [exact Hrp|]. split; [exact Hlen|].
    assert (Hstep : replay_body data (201 + k) rp0 = Ok rp).
    { replace (201 + S k)%nat with (S (201 + k)) in Hrp by lia.
      rewrite range_snoc in Hrp by lia.
      apply for_each_snoc_inv in Hrp. destruct Hrp as [s0 [Hs0 Hb]].
      assert (s0 = rp0) by congruence. now subst s0. }
    destruct (replay_body_ma_values data _ rp0 rp Hstep) as [r' [v [Hr' Hma]]].
    assert (Hother : forall j, j <> (201 + k)%nat ->
              nth_error (ma_values rp) j = nth_error (ma_values rp0) j).
    { intros j Hj. rewrite Hma.
      now apply (loc_set_nth_error_other data (201 + k) j r'). }
    split.
    + intros j Hj. rewrite Hother by lia. now apply Hlow0.
    + intros j Hj. destruct (Nat.eq_dec j (200 + S k)) as [->|Hne].
      * exists st, r, p. repeat split; assumption.
      * rewrite Hother by lia. apply Hhigh0. lia.
Qed.
End EquityCurveEntries.

(** X16. With positive closes and dates without duplicates, the MA_Value
    curve [prepare_strategy_data] returns has one entry per row: undefined
    on the first 200 rows, 10000 at row 200, and at every later row [i] the
    mark-to-market value, at the close of [i], of the position the loop of
    [ma_crossover_strategy] holds after the rows 200 to [i-1] (its shares
    times that close when in the market, else its cash); no entry is
    negative. *)
Theorem crossover_curve (data : DataFrame) (bh : Q) (cv : Curves) :
  all_closes_positive data -> NoDup (index data) ->
  prepare_strategy_data data bh = Ok cv ->
  length (MA_Value cv) = length data /\
  (forall j, (j < 200)%nat -> nth_error (MA_Value cv) j = Some None) /\
  nth_error (MA_Value cv) 200 = Some (Some 10000) /\
  (forall j, (200 <= j < length data)%nat ->
     exists st r p,
       for_each (range 200 j) (crossover_body data) initial_position = Ok st /\
       nth_error data j = Some r /\ to_scalar (Close r) = Ok p /\
       nth_error (MA_Value cv) j = Some (Some (final_value_by_flag st p)) /\
       0 <= final_value_by_flag st p).
Proof.
  intros Hall Hnd H.
  destruct (prepare_strategy_data_inv data bh cv H)
    as [r200 [rp [_ [H200 [Hrp Hma]]]]].
  assert (Hlen : (200 < length data)%nat)
    by (apply nth_error_Some; congruence).
  destruct (replay_prefix_curve data Hall Hnd r200 (length data - 201) H200
              ltac:(lia)) as [rp' [Hrp' [Hl [Hlow Hhigh]]]].
  replace (201 + (length data - 201))%nat with (length data) in Hrp' by lia.
  assert (rp' = rp) by congruence. subst rp'. rewrite Hma.
  split; [exact Hl|]. split; [exact Hlow|]. split.
  - destruct (Hhigh 200%nat ltac:(lia)) as [st [r [p [Hst [_ [_ Hv]]]]]].
    rewrite range_empty in Hst by lia. injection Hst as <-. exact Hv.
  - intros j Hj.
    destruct (Hhigh j ltac:(lia)) as [st [r [p [Hst [Hr [Hp Hv]]]]]].
    exists st, r, p. repeat (split; [assumption|]).
    destruct (crossover_prefix_position_inv data (j - 200) Hall ltac:(lia))
      as [st0 [Hst0 Hinv]].
    replace (200 + (j - 200))%nat with j in Hst0 by lia.
    assert (st0 = st) by congruence. subst st0.
    destruct (positive_close_nth data j r Hall Hr) as [q [Hq Hqpos]].
    assert (q = p) by congruence. subst q.
    apply Qlt_le_weak.
    unfold final_value_by_flag, position_inv in *.
    destruct (in_market st); destruct Hinv as [_ Hpos]; [|exact Hpos].
    now apply Qmult_lt_0_compat.
Qed.

Lemma crossover_curve_witness :
  exists cv, prepare_strategy_data sample 1 = Ok cv /\
             nth_error (MA_Value cv) 200 = Some (Some 10000).
Proof.
  eexists.
  assert (H : prepare_strategy_data sample 1 = Ok _)
    by (vm_compute; reflexivity).
  split; [exact H|].
  apply (crossover_curve sample 1 _).
  - apply all_closes_positive_forallb. vm_compute. reflexivity.
  - apply nodupb_NoDup. vm_compute. reflexivity.
  - exact H.
Defined.

(** ** The steps of [main] together *)

Lemma prepare_strategy_data_total (data : DataFrame) (bh : Q) :
  (200 < length data)%nat -> all_closes_positive data -> NoDup (index data) ->
  exists cv rp r200,
    prepare_strategy_data data bh = Ok cv /\
    bh_values_loop data bh = Ok (BH_Value cv) /\
    nth_error data 200 = Some r200 /\
    for_each (range 201 (length data)) (replay_body data)
             (replay_start data (date r200)) = Ok rp /\
    MA_Value cv = ma_values rp.
Proof.
  intros Hlen Hall Hnd.
  destruct (row_at data Hall 200 ltac:(lia)) as [r200 [p200 [H200 _]]].
  destruct (replay_prefix data Hall Hnd r200 (length data - 201) H200
              ltac:(lia)) as [rp [st [r [p [Hrp _]]]]].
  replace (201 + (length data - 201))%nat with (length data) in Hrp by lia.
  destruct (bh_values_loop_total data Hall bh) as [col Hbh].
  exists {| BH_Value := col; MA_Value := ma_values rp |}, rp, r200.
  split; [|repeat split; assumption].
  unfold prepare_strategy_data. rewrite Hbh. cbn [bind].
  unfold index. rewrite iloc_map, (proj2 (iloc_Ok_nth data 200 r200) H200).
  cbn [bind]. fold (index data). now rewrite Hrp.
Qed.

(** X17. The steps of [main] fit together.  On a frame of at most 200 rows
    the analysis stops with the IndexError of [buy_and_hold].  On more than
    200 rows with positive closes and dates without duplicates it succeeds.
    The buy-and-hold curve starts, at row 200, at the shares (10000 divided
    by the close of that row) times that close, and ends at the final value
    of [buy_and_hold].  The MA_Value curve starts at 10000 at row 200; its
    last entry [vm] is the final value of [ma_crossover_strategy], unless
    the last row carries a Buy signal while the position is out of the
    market: then the final value is [(vm / p) * p] for the last close
    [p]. *)
Theorem main_analysis_outcome (data : DataFrame) :
  ((length data <= 200)%nat -> main_analysis data = Raise IndexError) /\
  ((200 < length data)%nat -> all_closes_positive data ->
   NoDup (index data) ->
   exists a r200 p200 st rl pl vm,
     main_analysis data = Ok a /\
     nth_error data 200 = Some r200 /\ to_scalar (Close r200) = Ok p200 /\
     bh_shares (bh_results a) = initial_investment / p200 /\
     nth_error (BH_Value (curves a)) 200
       = Some (Some (bh_shares (bh_results a) * p200)) /\
     iloc_last (BH_Value (curves a))
       = Ok (Some (bh_final_value (bh_results a))) /\
     nth_error (MA_Value (curves a)) 200 = Some (Some 10000) /\
     iloc_last (MA_Value (curves a)) = Ok (Some vm) /\
     for_each (range 200 (length data - 1)) (crossover_body data)
              initial_position = Ok st /\
     nth_error data (length data - 1) = Some rl /\
     to_scalar (Close rl) = Ok pl /\
     if (Signal rl =? 1)%Z && negb (in_market st)
     then ma_final_value (ma_results a) = vm / pl * pl
     else vm == ma_final_value (ma_results a)).
Proof.
  split.
  - intros H. unfold main_analysis. now rewrite buy_and_hold_short.
  - intros Hlen Hall Hnd.
    destruct (buy_and_hold_valid data Hlen Hall)
      as [b [r [rl [p [pl [Hb [Hr [Hp [Hpos [Hl [Hpl [_ [Hs [Hf _]]]]]]]]]]]]]].
    destruct (prepare_strategy_data_total data (bh_shares b) Hlen Hall Hnd)
      as [cv [rp [r200 [Hcv [Hbh [H200 [Hrp Hma]]]]]]].
    assert (r200 = r) by congruence. subst r200.
    destruct (bh_values_prefix_entries data (bh_shares b) (length data) _ Hbh)
      as [Hbhlen Hbhent].
    destruct (replay_prefix_curve data Hall Hnd r (length data - 201) H200
                ltac:(lia)) as [rp' [Hrp' [Hmalen [_ Hhigh]]]].
    replace (201 + (length data - 201))%nat with (length data) in Hrp' by lia.
    assert (rp' = rp) by congruence. subst rp'.
    destruct (Hhigh 200%nat ltac:(lia)) as [s0 [r0 [p0 [Hs0 [_ [_ Hv0]]]]]].
    rewrite range_empty in Hs0 by lia. injection Hs0 as <-.
    destruct (Hhigh (length data - 1)%nat ltac:(lia))
      as [st [rl' [pl' [Hst [Hl' [Hpl' Hvl]]]]]].
    assert (rl' = rl) by congruence. subst rl'.
    assert (pl' = pl) by congruence. subst pl'.
    destruct (crossover_final_value_cases data st rl pl Hlen Hall Hst
                Hl Hpl) as [res [Hres Hfinal]].
    exists {| bh_results := b; ma_results := res; curves := cv |}.
    exists r, p, st, rl, pl, (final_value_by_flag st pl).
    cbn [bh_results ma_results curves].
    split.
    { unfold main_analysis. rewrite Hb. cbn [bind]. rewrite Hres. cbn [bind].
      now rewrite Hcv. }
    split; [exact Hr|]. split; [exact Hp|]. split; [exact Hs|].
    destruct (proj2 (Hbhent 200%nat r ltac:(lia) Hr) ltac:(lia))
      as [q [Hq Hq200]].
    assert (q = p) by congruence. subst q.
    split; [exact Hq200|].
    destruct (proj2 (Hbhent (length data - 1)%nat rl ltac:(lia) Hl) ltac:(lia))
      as [q [Hq' Hqlast]].
    assert (q = pl) by congruence. subst q.
    split.
    { rewrite iloc_last_eq
        by (intros E; rewrite E in Hbhlen; simpl in Hbhlen; lia).
      rewrite Hbhlen. apply iloc_Ok_nth. rewrite Hqlast, Hf, Hs. reflexivity. }
    rewrite Hma. split; [exact Hv0|]. split.
    { rewrite iloc_last_eq
        by (intros E; rewrite E in Hmalen; simpl in Hmalen; lia).
      rewrite Hmalen. now apply iloc_Ok_nth. }
    repeat (split; [assumption|]). exact Hfinal.
Qed.

Lemma main_analysis_outcome_witness :
  main_analysis frame200 = Raise IndexError /\
  exists a, main_analysis sample = Ok a /\
            nth_error (MA_Value (curves a)) 200 = Some (Some 10000).
Proof.
  destruct (main_analysis_outcome frame200) as [Hshort _].
  destruct (main_analysis_outcome sample) as [_ Hlong].
  split.
  - apply Hshort. unfold frame200. rewrite quiet_frame_length. lia.
  - destruct Hlong
      as [a [r200 [p200 [st [rl [pl [vm [Ha [_ [_ [_ [_ [_ [Hm _]]]]]]]]]]]]]].
    + vm_compute. lia.
    + apply all_closes_positive_forallb. vm_compute. reflexivity.
    + apply nodupb_NoDup. vm_compute. reflexivity.
    + exists a. split; assumption.
Defined.

Lemma with_signals_length (raw : list (Z * Q)) :
  length (with_signals raw) = length raw.
Proof.
  unfold with_signals. rewrite zip_with_length; [reflexivity|].
  now rewrite generate_signals_length, indicator_rows_length, length_map.
Qed.

Lemma with_signals_nth_error (raw : list (Z * Q)) (i : nat) (r : Row) :
  nth_error (with_signals raw) i = Some r ->
  exists dc,
    nth_error raw i = Some dc /\
    r = mkRow (fst dc) (PyFloat (snd dc))
              (nth i (generate_signals (indicator_rows (map snd raw))) 0%Z).
Proof.
  unfold with_signals. rewrite zip_with_nth_error.
  destruct (nth_error raw i) as [dc|] eqn:Hdc; [|discriminate].
  destruct (nth_error (generate_signals _) i) as [s|] eqn:Hs; [|discriminate].
  intros [= <-]. exists dc. split; [reflexivity|].
  now rewrite (nth_error_nth _ _ 0%Z Hs).
Qed.

Lemma with_signals_closes (raw : list (Z * Q)) (P : Q -> Prop) :
  Forall (fun dc => P (snd dc)) raw ->
  Forall (fun r => exists p, to_scalar (Close r) = Ok p /\ P p)
         (with_signals raw).
Proof.
  intros H. apply Forall_forall. intros r Hr.
  apply In_nth_error in Hr. destruct Hr as [i Hi].
  destruct (with_signals_nth_error raw i r Hi) as [dc [Hdc ->]].
  exists (snd dc). split; [reflexivity|].
  apply (proj1 (Forall_forall _ raw) H). eapply nth_error_In; eauto.
Qed.

(** X18. Constant prices.  When every downloaded close is the same positive
    price [k] (more than 200 rows), the frame [main] builds carries no
    signal; the crossover strategy makes no transaction, keeps exactly the
    initial 10000 and returns 0 percent; buy-and-hold holds 10000 / k shares
    and ends at that share count times [k]. *)
Theorem constant_prices_no_trade (raw : list (Z * Q)) (k : Q) :
  0 < k -> Forall (fun dc => snd dc = k) raw -> (200 < length raw)%nat ->
  exists b res,
    buy_and_hold (with_signals raw) = Ok b /\
    bh_shares b = initial_investment / k /\
    bh_final_value b = initial_investment / k * k /\
    ma_crossover_strategy (with_signals raw) = Ok res /\
    ma_transactions res = [] /\
    ma_final_value res = initial_investment /\
    ma_return_percentage res == 0.
Proof.
  intros Hk Hconst Hlen.
  assert (Hcl : Forall (fun r => exists p, to_scalar (Close r) = Ok p /\ p = k)
                       (with_signals raw))
    by now apply with_signals_closes.
  assert (Hall : all_closes_positive (with_signals raw)).
  { eapply Forall_impl; [|exact Hcl]. intros r [p [Hp Hpk]].
    exists p. split; [exact Hp|]. now rewrite Hpk. }
  assert (Hlen' : (200 < length (with_signals raw))%nat)
    by now rewrite with_signals_length.
  destruct (buy_and_hold_valid _ Hlen' Hall)
    as [b [r [rl [p [pl [Hb [Hr [Hp [Hpos [Hl [Hpl [_ [Hs [Hf _]]]]]]]]]]]]]].
  assert (Hpk : p = k).
  { destruct (proj1 (Forall_forall _ _) Hcl r (nth_error_In _ _ Hr))
      as [q [Hq Hqk]]. congruence. }
  assert (Hplk : pl = k).
  { destruct (proj1 (Forall_forall _ _) Hcl rl (nth_error_In _ _ Hl))
      as [q [Hq Hqk]]. congruence. }
  subst p pl.
  assert (Hsig : forall i r0, (200 <= i)%nat ->
            nth_error (with_signals raw) i = Some r0 ->
            Signal r0 <> 1%Z /\ Signal r0 <> (-1)%Z).
  { intros i r0 _ Hr0.
    destruct (with_signals_nth_error raw i r0 Hr0) as [dc [_ ->]].
    cbn [Signal].
    rewrite (indicator_rows_constant (map snd raw) k i).
    - split; discriminate.
    - apply Forall_map. eapply Forall_impl; [|exact Hconst].
      intros dc' Hdc. cbn beta in Hdc. rewrite Hdc. reflexivity. }
  assert (Hconv : closes_convert (with_signals raw)).
  { eapply Forall_impl; [|exact Hcl]. intros r0 [q [Hq _]]. eauto. }
  exists b. eexists.
  split; [exact Hb|]. split; [exact Hs|]. split; [exact Hf|].
  unfold ma_crossover_strategy.
  rewrite (crossover_loop_no_signal _ Hconv Hsig). cbn [bind].
  rewrite (close_last _ rl Hl). cbn [bind]. rewrite Hpl. cbn [bind].
  split; [reflexivity|]. cbn. repeat split; reflexivity.
Qed.

Lemma constant_prices_no_trade_witness :
  exists b res,
    buy_and_hold (with_signals flat_download) = Ok b /\
    bh_final_value b = initial_investment / 100 * 100 /\
    ma_crossover_strategy (with_signals flat_download) = Ok res /\
    ma_transactions res = [] /\
    ma_final_value res = initial_investment.
Proof.
  destruct (constant_prices_no_trade flat_download 100)
    as [b [res [Hb [_ [Hf [Hres [Hlog [Hv _]]]]]]]].
  - reflexivity.
  - apply Forall_forall. intros dc Hdc.
    apply in_map_iff in Hdc. destruct Hdc as [i [<- _]]. reflexivity.
  - unfold flat_download. rewrite length_map, length_seq. lia.
  - exists b, res. repeat split; assumption.
Defined.

(** ** The plot *)

Lemma scatter_points_In (rows : DataFrame) (r : Row) :
  In r rows -> In (date r, Close r) (scatter_points rows).
Proof.
  unfold scatter_points, index, close_col.
  induction rows as [|x rows IH]; simpl; [tauto|].
  intros [->|H]; [now left | right; auto].
Qed.

Lemma Forall2_In_r {A B} (R : A -> B -> Prop) (l : list A) (l' : list B)
    (b : B) :
  Forall2 R l l' -> In b l' -> exists a, In a l /\ R a b.
Proof.
  induction 1 as [|x y l l' Hxy _ IH]; simpl; [tauto|].
  intros [<-|H].
  - exists x. auto.
  - destruct (IH H) as [a [Ha Hab]]. exists a. auto.
Qed.

(** X19. Every transaction of [ma_crossover_strategy] is drawn by
    [plot_strategies]: a BUY lies on a buy marker and a SELL on a sell
    marker that carries the date of the transaction and, as its close, the
    price of the transaction. *)
Theorem every_transaction_is_marked (data : DataFrame) (res : CrossoverResult)
    (cv : Curves) (bh : Q) (t : Transaction) :
  ma_crossover_strategy data = Ok res -> In t (ma_transactions res) ->
  exists cell,
    to_scalar cell = Ok (tx_price t) /\
    In (tx_date t, cell)
       (match tx_action t with
        | BUY => buy_markers (plot_strategies data cv bh)
        | SELL => sell_markers (plot_strategies data cv bh)
        end).
Proof.
  intros H Ht. unfold ma_crossover_strategy in H.
  apply bind_Ok_inv in H. destruct H as [st [Hloop H]].
  apply bind_Ok_inv in H. destruct H as [last [_ H]].
  apply bind_Ok_inv in H. destruct H as [final_price [_ H]].
  injection H as <-. cbn [ma_transactions] in Ht.
  unfold crossover_loop in Hloop. rewrite range_from_200 in Hloop.
  destruct (crossover_prefix_log data _ st Hloop) as [idxs [_ [_ [Hlog _]]]].
  destruct (Forall2_In_r _ _ _ t Hlog Ht)
    as [i [_ [_ [r [Hr [Hd [Hp Hs]]]]]]].
  exists (Close r). split; [exact Hp|]. rewrite Hd.
  apply nth_error_In in Hr.
  destruct (tx_action t); cbn [plot_strategies buy_markers sell_markers];
    apply scatter_points_In; apply filter_In; (split; [exact Hr|]);
    now apply Z.eqb_eq.
Qed.

Lemma every_transaction_is_marked_witness :
  exists res,
    ma_crossover_strategy buy_on_last_day = Ok res /\
    forall t, In t (ma_transactions res) ->
      exists cell,
        to_scalar cell = Ok (tx_price t) /\
        In (tx_date t, cell)
           (match tx_action t with
            | BUY => buy_markers
                       (plot_strategies buy_on_last_day (mkCurves [] []) 1)
            | SELL => sell_markers
                        (plot_strategies buy_on_last_day (mkCurves [] []) 1)
            end).
Proof.
  eexists.
  assert (H : ma_crossover_strategy buy_on_last_day = Ok _)
    by (vm_compute; reflexivity).
  split; [exact H|]. intros t Ht.
  exact (every_transaction_is_marked buy_on_last_day _ (mkCurves [] []) 1 t
           H Ht).
Defined.

Lemma map_fst_combine {A B} (l : list A) (l' : list B) :
  length l = length l' -> map fst (combine l l') = l.
Proof.
  revert l'. induction l as [|a l IH]; intros [|b l'] H; simpl in *;
    try discriminate; [reflexivity|].
  f_equal. apply IH. lia.
Qed.

Lemma map_snd_combine {A B} (l : list A) (l' : list B) :
  length l = length l' -> map snd (combine l l') = l'.
Proof.
  revert l'. induction l as [|a l IH]; intros [|b l'] H; simpl in *;
    try discriminate; [reflexivity|].
  f_equal. apply IH. lia.
Qed.

Lemma Forall_skipn_nth {A} (P : A -> Prop) (l : list A) (a : nat) :
  (forall j x, (a <= j)%nat -> nth_error l j = Some x -> P x) ->
  Forall P (skipn a l).
Proof.
  intros H. apply Forall_forall. intros x Hx.
  apply In_nth_error in Hx. destruct Hx as [i Hi].
  rewrite nth_error_skipn in Hi. apply (H (a + i)%nat x); [lia | exact Hi].
Qed.

Lemma Forall_firstn_nth {A} (P : A -> Prop) (l : list A) (a : nat) :
  (forall j x, (j < a)%nat -> nth_error l j = Some x -> P x) ->
  Forall P (firstn a l).
Proof.
  intros H. apply Forall_forall. intros x Hx.
  apply In_nth_error in Hx. destruct Hx as [i Hi].
  rewrite nth_error_firstn in Hi.
  destruct (Nat.ltb_spec i a) as [Hlt|_]; [|discriminate].
  apply (H i x); assumption.
Qed.

(** X20. The slice [[200:]] that [plot_strategies] draws of each equity
    curve cuts exactly the warm-up: with positive closes and dates without
    duplicates, each of the two lines has one point per row from row 200
    on, dated like those rows, and every point is defined, while the 200
    entries left out of each curve are all undefined. *)
Theorem equity_lines_are_defined (data : DataFrame) (bh : Q) (cv : Curves) :
  all_closes_positive data -> NoDup (index data) ->
  prepare_strategy_data data bh = Ok cv ->
  map fst (bh_line (plot_strategies data cv bh)) = skipn 200 (index data) /\
  map fst (ma_line (plot_strategies data cv bh)) = skipn 200 (index data) /\
  map snd (bh_line (plot_strategies data cv bh)) = skipn 200 (BH_Value cv) /\
  map snd (ma_line (plot_strategies data cv bh)) = skipn 200 (MA_Value cv) /\
  length (skipn 200 (BH_Value cv)) = (length data - 200)%nat /\
  length (skipn 200 (MA_Value cv)) = (length data - 200)%nat /\
  Forall is_defined (skipn 200 (BH_Value cv)) /\
  Forall is_defined (skipn 200 (MA_Value cv)) /\
  Forall (fun v => v = None) (firstn 200 (BH_Value cv)) /\
  Forall (fun v => v = None) (firstn 200 (MA_Value cv)).
Proof.
  intros Hall Hnd H.
  destruct (prepare_strategy_data_inv data bh cv H)
    as [r200 [rp [Hbh [H200 [Hrp Hma]]]]].
  assert (Hlen : (200 < length data)%nat)
    by (apply nth_error_Some; congruence).
  destruct (bh_values_prefix_entries data bh (length data) _ Hbh)
    as [Hbhlen Hbhent].
  destruct (replay_prefix_curve data Hall Hnd r200 (length data - 201) H200
              ltac:(lia)) as [rp' [Hrp' [Hmalen [Hlow Hhigh]]]].
  replace (201 + (length data - 201))%nat with (length data) in Hrp' by lia.
  assert (rp' = rp) by congruence. subst rp'. rewrite <- Hma in *.
  assert (Li : length (skipn 200 (index data)) = (length data - 200)%nat)
    by (unfold index; now rewrite length_skipn, length_map).
  assert (Lb : length (skipn 200 (BH_Value cv)) = (length data - 200)%nat)
    by now rewrite length_skipn, Hbhlen.
  assert (Lm : length (skipn 200 (MA_Value cv)) = (length data - 200)%nat)
    by now rewrite length_skipn, Hmalen.
  cbn [plot_strategies bh_line ma_line]. unfold line_points.
  split; [apply map_fst_combine; congruence|].
  split; [apply map_fst_combine; congruence|].
  split; [apply map_snd_combine; congruence|].
  split; [apply map_snd_combine; congruence|].
  split; [exact Lb|]. split; [exact Lm|].
  split; [|split; [|split]].
  - apply Forall_skipn_nth. intros j x Hj Hx.
    assert (Hjl : (j < length data)%nat)
      by (rewrite <- Hbhlen; apply nth_error_Some; congruence).
    destruct (iloc_lt data j Hjl) as [r [_ Hr]].
    destruct (proj2 (Hbhent j r Hjl Hr) Hj) as [p [_ Hv]].
    assert (x = Some (bh * p)) by congruence. subst x. discriminate.
  - apply Forall_skipn_nth. intros j x Hj Hx.
    assert (Hjl : (j < length data)%nat)
      by (rewrite <- Hmalen; apply nth_error_Some; congruence).
    destruct (Hhigh j ltac:(lia)) as [st [r [p [_ [_ [_ Hv]]]]]].
    rewrite Hv in Hx. injection Hx as <-. discriminate.
  - apply Forall_firstn_nth. intros j x Hj Hx.
    destruct (iloc_lt data j ltac:(lia)) as [r [_ Hr]].
    rewrite (proj1 (Hbhent j r ltac:(lia) Hr) Hj) in Hx. congruence.
  - apply Forall_firstn_nth. intros j x Hj Hx.
    rewrite (Hlow j Hj) in Hx. congruence.
Qed.

Lemma equity_lines_are_defined_witness :
  exists cv,
    prepare_strategy_data sample 1 = Ok cv /\
    Forall is_defined (skipn 200 (MA_Value cv)) /\
    Forall (fun v => v = None) (firstn 200 (MA_Value cv)).
Proof.
  eexists.
  assert (H : prepare_strategy_data sample 1 = Ok _)
    by (vm_compute; reflexivity).
  split; [exact H|].
  assert (Hall : all_closes_positive sample)
    by (apply all_closes_positive_forallb; vm_compute; reflexivity).
  assert (Hnd : NoDup (index sample))
    by (apply nodupb_NoDup; vm_compute; reflexivity).
  destruct (equity_lines_are_defined sample 1 _ Hall Hnd H)
    as [_ [_ [_ [_ [_ [_ [_ [Hd [_ Hu]]]]]]]]].
  split; assumption.
Defined.

(** ** The date range of [main] *)

Lemma leap_year_minus_10 (year : Z) :
  is_leap year = true -> is_leap (year - 10) = false.
Proof.
  unfold is_leap. intros H. apply andb_true_iff in H. destruct H as [H4 _].
  apply Z.eqb_eq in H4.
  replace ((year - 10) mod 4 =? 0)%Z with false; [reflexivity|].
  symmetry. apply Z.eqb_neq.
  assert (Hq := Z.div_mod year 4 ltac:(lia)).
  assert (Hq' := Z.div_mod (year - 10) 4 ltac:(lia)).
  assert (Hr' := Z.mod_pos_bound (year - 10) 4 ltac:(lia)).
  lia.
Qed.

Lemma days_in_month_other (year year' month : Z) :
  month <> 2%Z -> days_in_month year month = days_in_month year' month.
Proof.
  intros H. unfold days_in_month.
  apply Z.eqb_neq in H. now rewrite H.
Qed.

(** X21. [main] computes its start date as the end date ten years earlier.
    For a valid end date after year 10 this raises ValueError exactly when
    the end date is 29 February (ten years before a leap year is never a
    leap year); on every other day the start date is the same day and
    month, ten years back.  The computation is outside the [try] of [main],
    so on 29 February [main] stops before the download. *)
Theorem start_date_fails_on_29_february (year month day : Z) :
  datetime year month day = DateOk year month day -> (10 < year)%Z ->
  (start_date year month day = DateValueError <->
   month = 2%Z /\ day = 29%Z) /\
  (~ (month = 2%Z /\ day = 29%Z) ->
   start_date year month day = DateOk (year - 10) month day).
Proof.
  unfold start_date, datetime. intros Hvalid Hy.
  destruct ((1 <=? year) && (year <=? 9999) && (1 <=? month) && (month <=? 12)
            && (1 <=? day) && (day <=? days_in_month year month))%Z eqn:E;
    [|discriminate].
  repeat (apply andb_true_iff in E; destruct E as [E ?]).
  repeat match goal with
         | H : (_ <=? _)%Z = true |- _ => apply Z.leb_le in H
         end.
  replace (1 <=? year - 10)%Z with true by (symmetry; apply Z.leb_le; lia).
  replace (year - 10 <=? 9999)%Z with true by (symmetry; apply Z.leb_le; lia).
  replace (1 <=? month)%Z with true by (symmetry; apply Z.leb_le; lia).
  replace (month <=? 12)%Z with true by (symmetry; apply Z.leb_le; lia).
  replace (1 <=? day)%Z with true by (symmetry; apply Z.leb_le; lia).
  cbn [andb].
  destruct (Z.eq_dec month 2) as [->|Hm].
  - unfold days_in_month in *. cbn [Z.eqb Pos.eqb] in *.
    destruct (is_leap year) eqn:Hleap.
    + rewrite (leap_year_minus_10 year Hleap).
      destruct (Z.leb_spec day 28) as [Hle|Hgt].
      * split; [split; [discriminate | lia]|]. reflexivity.
      * split; [split; [intros _; split; [reflexivity | lia] | reflexivity]|].
        intros Hn. exfalso. apply Hn. split; [reflexivity | lia].
    + assert (Hd : (day <= 28)%Z) by lia.
      destruct (is_leap (year - 10)).
      * replace (day <=? 29)%Z with true by (symmetry; apply Z.leb_le; lia).
        split; [split; [discriminate | lia]|]. reflexivity.
      * replace (day <=? 28)%Z with true by (symmetry; apply Z.leb_le; lia).
        split; [split; [discriminate | lia]|]. reflexivity.
  - rewrite (days_in_month_other (year - 10) year month Hm).
    replace (day <=? days_in_month year month)%Z with true
      by (symmetry; apply Z.leb_le; lia).
    split; [split; [discriminate | tauto]|]. reflexivity.
Qed.

Lemma start_date_fails_on_29_february_witness :
  start_date 2024 2 29 = DateValueError /\
  start_date 2026 11 3 = DateOk 2016 11 3.
Proof.
  split.
  - apply (proj1 (start_date_fails_on_29_february 2024 2 29 eq_refl eq_refl)).
    split; reflexivity.
  - apply (proj2 (start_date_fails_on_29_february 2026 11 3 eq_refl eq_refl)).
    intros [H _]. discriminate.
Defined.

(** ** Which exceptions the strategies raise *)

Section Raises.
Variable P : exn -> Prop.

Lemma bind_raises {A B} (m : result A) (k : A -> result B) :
  (forall e, m = Raise e -> P e) ->
  (forall a, m = Ok a -> forall e, k a = Raise e -> P e) ->
  forall e, bind m k = Raise e -> P e.
Proof.
  intros Hm Hk e. destruct m as [a|e']; simpl.
  - now apply Hk.
  - intros [= ->]. now apply Hm.
Qed.

Lemma for_each_raises {S} (idx : list nat) (body : nat -> S -> result S) :
  (forall i s e, In i idx -> body i s = Raise e -> P e) ->
  forall s e, for_each idx body s = Raise e -> P e.
Proof.
  induction idx as [|i idx IH]; intros Hbody s e; simpl; [discriminate|].
  apply bind_raises.
  - intros e' He'. apply (Hbody i s e'); [now left | exact He'].
  - intros s' _ e'. apply IH. intros j t e'' Hj. apply Hbody. now right.
Qed.
End Raises.

Lemma to_scalar_raises (value : pyvalue) (e : exn) :
  to_scalar value = Raise e -> e = TypeError.
Proof.
  destruct value as [z|x|[|x xs]|[|[|x [|y r]] rows]]; try discriminate.
  now intros [= <-].
Qed.

Lemma py_div_raises (x y : Q) (e : exn) :
  py_div x y = Raise e -> e = ZeroDivisionError.
Proof.
  unfold py_div. destruct (Qeq_bool y 0); [|discriminate]. now intros [= <-].
Qed.

Lemma loc_get_present (column : Row -> pyvalue) (data : DataFrame) (i : nat)
    (r : Row) :
  nth_error data i = Some r -> exists c, loc_get column data (date r) = Ok c.
Proof.
  intros Hr. unfold loc_get.
  assert (Hin : In r (filter (fun r' => (date r' =? date r)%Z) data)).
  { apply filter_In. split; [eapply nth_error_In; eauto | apply Z.eqb_refl]. }
  destruct (filter (fun r' => (date r' =? date r)%Z) data) as [|x [|y l]];
    [destruct Hin | eauto | eauto].
Qed.

Lemma trade_raises (d : Z) (p signal : Q) (st : Position) (e : exn) :
  trade d p signal st = Raise e -> cell_error e.
Proof.
  unfold trade.
  destruct (Qeq_bool signal 1 && negb (in_market st)).
  - apply bind_raises; [|discriminate].
    intros e' He'. right. eapply py_div_raises; eauto.
  - destruct (Qeq_bool signal (-1) && in_market st); discriminate.
Qed.

Lemma crossover_body_raises (data : DataFrame) (i : nat) (st : Position)
    (e : exn) :
  (i < length data)%nat -> crossover_body data i st = Raise e -> cell_error e.
Proof.
  intros Hi. destruct (iloc_lt data i Hi) as [r [_ Hr]].
  rewrite (crossover_body_row data i r st Hr).
  apply bind_raises.
  - intros e' He'. left. eapply to_scalar_raises; eauto.
  - intros p _ e'. apply trade_raises.
Qed.

Lemma replay_body_raises (data : DataFrame) (i : nat) (rp : Replay) (e : exn) :
  (1 <= i < length data)%nat -> replay_body data i rp = Raise e -> cell_error e.
Proof.
  intros Hi.
  destruct (iloc_lt data (i - 1) ltac:(lia)) as [r [_ Hr]].
  destruct (iloc_lt data i ltac:(lia)) as [r' [_ Hr']].
  destruct (loc_get_present (fun x => PyInt (Signal x)) data _ r Hr)
    as [c1 Hc1].
  destruct (loc_get_present Close data _ r Hr) as [c2 Hc2].
  destruct (loc_get_present Close data _ r' Hr') as [c3 Hc3].
  unfold replay_body, index. rewrite !iloc_map.
  rewrite (proj2 (iloc_Ok_nth data _ r) Hr),
          (proj2 (iloc_Ok_nth data _ r') Hr').
  cbn [bind]. rewrite Hc1. cbn [bind].
  apply bind_raises; [intros e' He'; left; eapply to_scalar_raises; eauto|].
  intros prev_signal _. rewrite Hc2. cbn [bind].
  apply bind_raises; [intros e' He'; left; eapply to_scalar_raises; eauto|].
  intros prev_close _. rewrite Hc3. cbn [bind].
  apply bind_raises; [intros e' He'; left; eapply to_scalar_raises; eauto|].
  intros curr_close _.
  apply bind_raises; [|discriminate].
  destruct (Qeq_bool prev_signal 1 && negb (rp_in_market rp)).
  - apply bind_raises; [|discriminate].
    intros e' He'. right. eapply py_div_raises; eauto.
  - destruct (Qeq_bool prev_signal (-1) && rp_in_market rp); discriminate.
Qed.

Lemma bh_body_raises (data : DataFrame) (bh : Q) (i : nat)
    (acc : list (option Q)) (e : exn) :
  (i < length data)%nat -> bh_body data bh i acc = Raise e -> cell_error e.
Proof.
  intros Hi. unfold bh_body. destruct (i <? 200)%nat; [discriminate|].
  destruct (iloc_lt data i Hi) as [r [_ Hr]].
  unfold close_col. rewrite iloc_map, (proj2 (iloc_Ok_nth data i r) Hr).
  cbn [bind].
  apply bind_raises; [|discriminate].
  intros e' He'. left. eapply to_scalar_raises; eauto.
Qed.

(** X22. Where the exceptions of the two loops come from.
    [ma_crossover_strategy] raises IndexError on the empty frame (its last
    close does not exist) and on no other frame; [prepare_strategy_data]
    raises IndexError on every frame of at most 200 rows and on no other.
    Apart from that, either function can only fail on a cell: TypeError for
    a close that is not one number, ZeroDivisionError for a Buy at a close
    of zero; a label is never missing (no KeyError). *)
Theorem strategy_exceptions (data : DataFrame) (bh : Q) :
  (data = [] -> ma_crossover_strategy data = Raise IndexError) /\
  (data <> [] ->
   forall e, ma_crossover_strategy data = Raise e -> cell_error e) /\
  ((length data <= 200)%nat ->
   prepare_strategy_data data bh = Raise IndexError) /\
  ((200 < length data)%nat ->
   forall e, prepare_strategy_data data bh = Raise e -> cell_error e).
Proof.
  split; [intros ->; reflexivity|].
  split; [|split; [apply prepare_strategy_data_short|]].
  - intros Hne. unfold ma_crossover_strategy, crossover_loop.
    apply bind_raises.
    + apply for_each_raises. intros i s e Hi. apply in_range in Hi.
      apply crossover_body_raises. lia.
    + intros st _.
      destruct (iloc_lt data (length data - 1)) as [rl [_ Hl]].
      { destruct data; [congruence | simpl; lia]. }
      rewrite (close_last data rl Hl). cbn [bind].
      apply bind_raises; [|discriminate].
      intros e He. left. eapply to_scalar_raises; eauto.
  - intros Hlen. unfold prepare_strategy_data, bh_values_loop.
    apply bind_raises.
    + apply for_each_raises. intros i s e Hi. apply in_range in Hi.
      apply bh_body_raises. lia.
    + intros col _.
      destruct (iloc_lt data 200 Hlen) as [r [_ Hr]].
      unfold index. rewrite iloc_map, (proj2 (iloc_Ok_nth data 200 r) Hr).
      cbn [bind]. apply bind_raises; [|discriminate].
      apply for_each_raises. intros i s e Hi. apply in_range in Hi.
      apply replay_body_raises. lia.
Qed.

Lemma strategy_exceptions_witness :
  ma_crossover_strategy [] = Raise IndexError /\
  prepare_strategy_data frame200 1 = Raise IndexError /\
  cell_error ZeroDivisionError.
Proof.
  destruct (strategy_exceptions [] 1) as [Hempty _].
  destruct (strategy_exceptions frame200 1) as [_ [_ [Hshort _]]].
  destruct (strategy_exceptions zero_close_frame 1) as [_ [Hcell _]].
  split; [now apply Hempty|]. split.
  - apply Hshort. unfold frame200. rewrite quiet_frame_length. lia.
  - apply (Hcell ltac:(discriminate) ZeroDivisionError).
    vm_compute. reflexivity.
Defined.

(** ** How the MA_Value curve moves *)

(** X23. From one row to the next the MA_Value curve follows the position.
    With positive closes and dates without duplicates, the entries [v] at
    row [i] and [v'] at row [i+1] are the position before, resp. after, the
    trade of row [i], marked at the close [p] of [i], resp. [p'] of [i+1].
    Out of the market after the trade, the value does not move ([v' = v],
    also across a Sell); in the market before and after it, both entries
    are the same shares at the two closes; after a Buy the new entry is
    [(v / p) * p']. *)
Theorem crossover_curve_follows_position (data : DataFrame) (bh : Q)
    (cv : Curves) (i : nat) :
  all_closes_positive data -> NoDup (index data) ->
  prepare_strategy_data data bh = Ok cv ->
  (200 <= i)%nat -> (S i < length data)%nat ->
  exists st st' r r' p p' v v',
    for_each (range 200 i) (crossover_body data) initial_position = Ok st /\
    for_each (range 200 (S i)) (crossover_body data) initial_position = Ok st' /\
    nth_error data i = Some r /\ to_scalar (Close r) = Ok p /\
    nth_error data (S i) = Some r' /\ to_scalar (Close r') = Ok p' /\
    nth_error (MA_Value cv) i = Some (Some v) /\
    nth_error (MA_Value cv) (S i) = Some (Some v') /\
    (in_market st' = false -> v' = v) /\
    (in_market st = true -> in_market st' = true ->
     v = shares st * p /\ v' = shares st * p') /\
    (in_market st = false -> in_market st' = true -> v' = v / p * p').
Proof.
  intros Hall Hnd H Hi Hlen.
  destruct (prepare_strategy_data_inv data bh cv H)
    as [r200 [rp [_ [H200 [Hrp Hma]]]]].
  destruct (replay_prefix_curve data Hall Hnd r200 (length data - 201) H200
              ltac:(lia)) as [rp' [Hrp' [_ [_ Hhigh]]]].
  replace (201 + (length data - 201))%nat with (length data) in Hrp' by lia.
  assert (rp' = rp) by congruence. subst rp'. rewrite <- Hma in Hhigh.
  destruct (Hhigh i ltac:(lia)) as [st [r [p [Hst [Hr [Hp Hv]]]]]].
  destruct (Hhigh (S i) ltac:(lia)) as [st' [r' [p' [Hst' [Hr' [Hp' Hv']]]]]].
  exists st, st', r, r', p, p', (final_value_by_flag st p),
         (final_value_by_flag st' p').
  repeat (split; [assumption|]).
  assert (Hpos : 0 < p).
  { destruct (positive_close_nth data i r Hall Hr) as [q [Hq Hqpos]].
    congruence. }
  assert (Htrade : trade (date r) p (inject_Z (Signal r)) st = Ok st').
  { assert (Hst2 := Hst'). rewrite range_snoc in Hst2 by lia.
    apply for_each_snoc_inv in Hst2. destruct Hst2 as [s0 [Hs0 Hb]].
    assert (s0 = st) by congruence. subst s0.
    rewrite (crossover_body_row data i r st Hr), Hp in Hb. exact Hb. }
  unfold trade in Htrade. unfold final_value_by_flag.
  destruct (in_market st) eqn:Hin; cbn [negb] in Htrade;
    rewrite ?andb_true_r, ?andb_false_r in Htrade.
  - destruct (Qeq_bool (inject_Z (Signal r)) (-1)); injection Htrade as <-;
      cbn [in_market cash shares]; rewrite ?Hin;
      (split; [intros; first [reflexivity | discriminate]|]);
      (split; [intros; first [now split | discriminate] | discriminate]).
  - destruct (Qeq_bool (inject_Z (Signal r)) 1).
    + rewrite (py_div_pos _ _ Hpos) in Htrade. injection Htrade as <-.
      cbn [in_market cash shares].
      split; [discriminate|]. split; [discriminate|]. reflexivity.
    + injection Htrade as <-. rewrite Hin.
      split; [reflexivity|]. split; discriminate.
Qed.

Lemma crossover_curve_follows_position_witness :
  exists cv v v',
    prepare_strategy_data sample 1 = Ok cv /\
    nth_error (MA_Value cv) 203 = Some (Some v) /\
    nth_error (MA_Value cv) 204 = Some (Some v') /\
    v' = v / sample_close 203 * sample_close 204.
Proof.
  eexists.
  assert (H : prepare_strategy_data sample 1 = Ok _)
    by (vm_compute; reflexivity).
  assert (Hall : all_closes_positive sample)
    by (apply all_closes_positive_forallb; vm_compute; reflexivity).
  assert (Hnd : NoDup (index sample))
    by (apply nodupb_NoDup; vm_compute; reflexivity).
  destruct (crossover_curve_follows_position sample 1 _ 203 Hall Hnd H
              ltac:(lia) ltac:(vm_compute; lia))
    as [st [st' [r [r' [p [p' [v [v' [Hst [Hst' [Hr [Hp [Hr' [Hp' [Hv [Hv'
         [_ [_ Hbuy]]]]]]]]]]]]]]]]]].
  exists v, v'. split; [exact H|]. split; [exact Hv|]. split; [exact Hv'|].
  vm_compute in Hr. injection Hr as <-.
  vm_compute in Hr'. injection Hr' as <-.
  vm_compute in Hp. injection Hp as <-.
  vm_compute in Hp'. injection Hp' as <-.
  vm_compute in Hst. injection Hst as <-.
  vm_compute in Hst'. injection Hst' as <-.
  apply Hbuy; reflexivity.
Defined.

(** ** The indicator columns are written in place *)


Section InPlaceColumns.
Import String.


End InPlaceColumns.



